(** * TinyViT image encoder (src/model.py): shapes, windows, offset table, lr tags

    A shallow embedding of the indexing and bookkeeping logic of
    [src/model.py]: the window partition of [TinyViTBlock.forward], the
    relative-offset table of [Attention.__init__], the bias cache of
    [Attention.train], the stage assembly of [TinyViT.__init__], the
    tagging pass [TinyViT.set_layer_lr_decay] and the shapes that
    [TinyViT.forward_features] pushes through the network.

    Floating-point kernels (convolution, softmax, layer norm, ...) are
    not modelled numerically: where a function of the source calls one,
    the embedding either takes it as a section variable or follows its
    shape only. *)

From stdpp Require Import gmap strings list fin_maps pretty.
From Stdlib Require Import ZArith Lia.

Set Default Proof Using "Type".

(** ** Python results *)

Module Py.

(** The exceptions the modelled code can raise. [AssertionError]
    carries the source line of the [assert]. *)
Inductive exn : Type :=
| AssertionError (line : nat)
| IndexError
| ZeroDivisionError
| ValueError
| RuntimeError
| AttributeError.

Inductive result (A : Type) : Type :=
| Ok (a : A)
| Raise (e : exn).
Arguments Ok {A} a.
Arguments Raise {A} e.

#[global] Instance result_ret : MRet result := fun A a => Ok a.
#[global] Instance result_bind : MBind result := fun A B k r =>
  match r with
  | Ok a => k a
  | Raise e => Raise e
  end.

(** [assert c] of the source, at line [line]. *)
Definition assert_ (line : nat) (c : bool) : result unit :=
  if c then Ok tt else Raise (AssertionError line).

(** [range(n)]. *)
Definition range (n : nat) : list nat := seq 0 n.

(** [l[i]] for a Python list and a Python int: negative indices count
    from the end, anything out of range raises [IndexError]. *)
Definition getitem {A} (l : list A) (i : Z) : result A :=
  let n := Z.of_nat (length l) in
  let j := if (i <? 0)%Z then (n + i)%Z else i in
  if ((0 <=? j)%Z && (j <? n)%Z)%bool
  then match l !! Z.to_nat j with
       | Some a => Ok a
       | None => Raise IndexError
       end
  else Raise IndexError.

(** [sum(l)] on a list of sizes. *)
Definition sum (l : list nat) : nat := foldr Nat.add 0 l.

(** [itertools.product(xs, ys)]: the last component varies fastest. *)
Definition product {A B} (xs : list A) (ys : list B) : list (A * B) :=
  flat_map (fun x => map (fun y => (x, y)) ys) xs.

End Py.

Import Py.

(** ** Tensors: a shape and the elements in row-major order *)

Module Tensor.

Record tensor (A : Type) : Type := Build { shape : list nat; data : list A }.
Arguments Build {A} shape data.
Arguments shape {A} t.
Arguments data {A} t.

(** Number of elements of a shape. *)
Definition numel (s : list nat) : nat := foldr Nat.mul 1 s.

(** A tensor is well formed when it holds as many elements as its
    shape says. *)
Definition wf {A} (t : tensor A) : Prop := length (data t) = numel (shape t).

(** Flat position of a multi-index in a contiguous tensor of shape
    [s], and the multi-index of a flat position. *)
Fixpoint ravel (s idx : list nat) : nat :=
  match s, idx with
  | _ :: s', i :: idx' => i * numel s' + ravel s' idx'
  | _, _ => 0
  end.

Fixpoint unravel (s : list nat) (k : nat) : list nat :=
  match s with
  | [] => []
  | _ :: s' => k / numel s' :: unravel s' (k mod numel s')
  end.

Definition in_bounds (s idx : list nat) : Prop :=
  Forall2 (fun i d => i < d) idx s.

(** [l] read at the positions [p]: entry [i] of the result is
    [l[p[i]]]. *)
Definition permute_list (p l : list nat) : list nat :=
  map (fun i => nth i l 0) p.

(** The permutation of [0..n-1] that exchanges [d0] and [d1]. *)
Definition exchange (d0 d1 i : nat) : nat :=
  if decide (i = d0) then d1 else if decide (i = d1) then d0 else i.

Definition transposition (n d0 d1 : nat) : list nat :=
  map (exchange d0 d1) (seq 0 n).

Section Ops.
Context {A : Type}.
Variable zero : A.

(** [t.view(s)] and [t.reshape(s)]: the elements keep their
    row-major order, the element count must agree. Every tensor of
    this model is stored contiguously, so the two coincide. *)
Definition view (s : list nat) (t : tensor A) : result (tensor A) :=
  if decide (numel s = numel (shape t))
  then Ok (Build s (data t))
  else Raise RuntimeError.

Definition reshape := view.

(** [t[idx]] for a full multi-index [idx]. *)
Definition item (t : tensor A) (idx : list nat) : A :=
  nth (ravel (shape t) idx) (data t) zero.

(** [t.transpose(d0, d1)]: element [idx] of the result is element
    [idx] with positions [d0] and [d1] exchanged of [t]. *)
Definition transpose (d0 d1 : nat) (t : tensor A) : result (tensor A) :=
  let n := length (shape t) in
  if decide (d0 < n /\ d1 < n) then
    let p := transposition n d0 d1 in
    let s' := permute_list p (shape t) in
    Ok (Build s'
          (map (fun k => nth (ravel (shape t) (permute_list p (unravel s' k)))
                             (data t) zero)
               (seq 0 (numel s'))))
  else Raise IndexError.

(** [F.pad(t, pads)] with constant zero fill. [pads] lists
    (left, right) amounts from the last axis backwards, as PyTorch
    does, and must have even length and name no more axes than [t]
    has; [pad_amounts] aligns the amounts with the axes. *)
Fixpoint pad_pairs (pads : list nat) : list (nat * nat) :=
  match pads with
  | l :: r :: rest => (l, r) :: pad_pairs rest
  | _ => []
  end.

Definition pad_amounts (rank : nat) (pads : list nat) : list (nat * nat) :=
  let ps := pad_pairs pads in
  replicate (rank - length ps) (0, 0) ++ rev ps.

Definition padded_shape (s : list nat) (amts : list (nat * nat)) : list nat :=
  zip_with (fun d lr => lr.1 + d + lr.2) s amts.

(** Whether the padded index [idx] falls on an element of the
    original tensor, and which one. *)
Fixpoint pad_source (s : list nat) (amts : list (nat * nat)) (idx : list nat)
  : option (list nat) :=
  match s, amts, idx with
  | d :: s', (l, _) :: amts', i :: idx' =>
      if decide (l <= i /\ i < l + d)
      then option_map (cons (i - l)) (pad_source s' amts' idx')
      else None
  | _, _, _ => Some []
  end.

Definition F_pad (t : tensor A) (pads : list nat) : result (tensor A) :=
  let rank := length (shape t) in
  if Nat.even (length pads) && (length (pad_pairs pads) <=? rank) then
    let amts := pad_amounts rank pads in
    let s' := padded_shape (shape t) amts in
    Ok (Build s'
          (map (fun k => match pad_source (shape t) amts (unravel s' k) with
                         | Some idx => nth (ravel (shape t) idx) (data t) zero
                         | None => zero
                         end)
               (seq 0 (numel s'))))
  else Raise RuntimeError.

(** [t[:, :h, :w]]: the leading axis whole, the next two cut to their
    first [h] and [w] entries (a slice bound beyond the axis is
    clamped), the remaining axes whole; [.contiguous()] lays the
    result out in row-major order. *)
Definition slice_hw (h w : nat) (t : tensor A) : result (tensor A) :=
  match shape t with
  | b :: h0 :: w0 :: rest =>
      let s' := b :: Nat.min h h0 :: Nat.min w w0 :: rest in
      Ok (Build s'
            (map (fun k => nth (ravel (shape t) (unravel s' k)) (data t) zero)
                 (seq 0 (numel s'))))
  | _ => Raise IndexError
  end.

End Ops.

End Tensor.

Import Tensor.

(** Membership in a list of names is decidable. *)
#[global] Instance In_decision {A : Type} `{EqDecision A} (x : A) (l : list A) :
  Decision (In x l).
Proof. refine (cast_if (decide (x ∈ l))); by rewrite <- list_elem_of_In. Defined.

(** ** nn.Module trees: parameters, [apply], attributes of parameters *)

Module NN.

(** A parameter is identified by its dotted name from the root module,
    kept as the list of its segments. *)
Definition path : Type := list string.

(** An [nn.Module] as far as parameters are concerned: the names of
    the parameters it registers itself, and its named child modules in
    registration order. Buffers are not parameters. *)
#[local] Unset Elimination Schemes.
Inductive module : Type :=
| Mod (own : list string) (children : list (string * module)).
#[local] Set Elimination Schemes.

Definition own (m : module) : list string :=
  match m with Mod o _ => o end.

Definition children (m : module) : list (string * module) :=
  match m with Mod _ c => c end.

(** [m.named_parameters(prefix)] / [m.parameters()]: the module's own
    parameters, then those of its children, recursively. *)
Fixpoint named_parameters (prefix : path) (m : module) : list path :=
  match m with
  | Mod own children =>
      map (fun n => prefix ++ [n]) own ++
      flat_map (fun nc => match nc with
                          | (n, c) => named_parameters (prefix ++ [n]) c
                          end) children
  end.

Section Apply.
Context {S : Type}.

(** [m.apply(fn)]: [fn] is called on every descendant, children first,
    then on [m] itself; what [fn] returns is dropped, only its effect on
    the state (and an exception) is kept. [prefix] is the name of [m]
    from the root. [apply_children] is the loop over the children, with
    the recursive call as [rec]. *)
Variable fn : path -> module -> S -> result S.

Fixpoint apply_children (rec : string -> module -> S -> result S)
    (cs : list (string * module)) (st : S) : result S :=
  match cs with
  | [] => Ok st
  | (n, c) :: cs' => st ← rec n c st; apply_children rec cs' st
  end.

Fixpoint apply (prefix : path) (m : module) (st : S) : result S :=
  match m with
  | Mod _ children =>
      st ← apply_children (fun n c st => apply (prefix ++ [n]) c st) children st;
      fn prefix m st
  end.

End Apply.

(** Modules without children. *)
Definition leaf (own : list string) : module := Mod own [].

(** [nn.Sequential] and [nn.ModuleList] name their children "0", "1",
    ... *)
Definition numbered (ms : list module) : list (string * module) :=
  imap (fun i m => (pretty i, m)) ms.

Definition Sequential (ms : list module) : module := Mod [] (numbered ms).
Definition ModuleList (ms : list module) : module := Mod [] (numbered ms).

(** [nn.Conv2d(..., bias=False)], [nn.BatchNorm2d], [nn.LayerNorm],
    [nn.Linear], and the parameter-free [nn.GELU], [nn.Identity],
    [nn.Dropout], [DropPath]. *)
Definition Conv2d_no_bias : module := leaf ["weight"].
Definition BatchNorm2d : module := leaf ["weight"; "bias"].
Definition LayerNorm : module := leaf ["weight"; "bias"].
Definition Linear : module := leaf ["weight"; "bias"].
Definition no_parameters : module := leaf [].

End NN.

(** ** Shapes through the numerical backend

    The shape rules of the PyTorch primitives the model calls. *)

Module Shape.

(** [nn.Conv2d(a, b, ks, stride, pad)] followed or not by a
    normalisation, on a (B, C, H, W) input. *)
Definition conv2d (a b ks stride pad : nat) (s : list nat) : result (list nat) :=
  match s with
  | [B; C; H; W] =>
      if (C =? a) && (0 <? stride) && (ks <=? H + 2 * pad) && (ks <=? W + 2 * pad)
      then Ok [B; b; (H + 2 * pad - ks) / stride + 1; (W + 2 * pad - ks) / stride + 1]
      else Raise RuntimeError
  | _ => Raise RuntimeError
  end.

(** Element counts are compared in binary: they reach millions. *)
Definition numel (s : list nat) : N :=
  foldr (fun d acc => (N.of_nat d * acc)%N) 1%N s.

(** [x.view(s')] / [x.reshape(s')]. *)
Definition view (s' s : list nat) : result (list nat) :=
  if (numel s' =? numel s)%N then Ok s' else Raise RuntimeError.

(** [x.view(d0, d1, d2, -1)]: the last size is inferred, which needs a
    non-zero product of the given sizes that divides the element
    count. *)
Definition view_infer_last (d0 d1 d2 : nat) (s : list nat) : result (list nat) :=
  let known := numel [d0; d1; d2] in
  if (known =? 0)%N || negb (numel s mod known =? 0)%N
  then Raise RuntimeError
  else Ok [d0; d1; d2; N.to_nat (numel s / known)].

(** Layer normalisation over a last axis of size [dim], and a linear
    layer [a -> b] on the last axis. *)
Definition layer_norm (dim : nat) (s : list nat) : result (list nat) :=
  match last s with
  | Some c => if c =? dim then Ok s else Raise RuntimeError
  | None => Raise RuntimeError
  end.

Definition linear (a b : nat) (s : list nat) : result (list nat) :=
  match last s with
  | Some c => if c =? a then Ok (removelast s ++ [b]) else Raise RuntimeError
  | None => Raise RuntimeError
  end.

(** [x + y] for two shapes that must agree (no broadcasting is relied
    on where this is used). *)
Definition add_same (s1 s2 : list nat) : result (list nat) :=
  if decide (s1 = s2) then Ok s1 else Raise RuntimeError.

(** [x += other], in place: [other] is broadcast to the shape of [x],
    which cannot change; the sizes are aligned from the last axis, and
    a size of [other] must be the size of [x] or 1. *)
Definition iadd (x other : list nat) : result (list nat) :=
  if (length other <=? length x) &&
     forallb (fun d_o : nat * nat => (d_o.2 =? d_o.1) || (d_o.2 =? 1))
             (zip (rev x) (rev other))
  then Ok x else Raise RuntimeError.

(** [nn.BatchNorm2d] on a (B, C, H, W) input: in training mode it asks
    for more than one value per channel, that is [B * H * W <> 1]; a
    product of sizes is 1 exactly when every size is. *)
Definition batch_norm2d (training : bool) (s : list nat) : result (list nat) :=
  match s with
  | [B; C; H; W] =>
      if training && (B =? 1) && (H =? 1) && (W =? 1)
      then Raise ValueError else Ok s
  | _ => Raise RuntimeError
  end.

End Shape.

(** ** Conv2d_BN, PatchEmbed, MBConv, PatchMerging, Mlp
    (src/model.py, lines 10-177)

    For each class: the attributes its constructor stores, the tree of
    its parameters, and the shape its [forward] returns. *)

Module Conv2d_BN.

(** [training] is the attribute of [nn.Module] that the batch
    normalisation reads; a freshly constructed module is in training
    mode. *)
Record t : Type := Build_Conv2d_BN {
  a : nat; b : nat; ks : nat; stride : nat; pad : nat; groups : nat;
  training : bool;
}.

Definition __init__ (a b ks stride pad groups : nat) : t :=
  Build_Conv2d_BN a b ks stride pad groups true.

Definition modules (self : t) : NN.module :=
  NN.Mod [] [("c", NN.Conv2d_no_bias); ("bn", NN.BatchNorm2d)].

Definition forward_shape (self : t) (x : list nat) : result (list nat) :=
  x ← Shape.conv2d (a self) (b self) (ks self) (stride self) (pad self) x;
  Shape.batch_norm2d (training self) x.

End Conv2d_BN.

Module PatchEmbed.

Record t : Type := Build_PatchEmbed {
  patches_resolution : nat * nat;
  num_patches : nat;
  in_chans : nat;
  embed_dim : nat;
  seq_0 : Conv2d_BN.t;
  seq_2 : Conv2d_BN.t;
}.

(** [resolution] is an int; [to_2tuple] repeats it. *)
Definition __init__ (in_chans embed_dim resolution : nat) : t :=
  let img_size := (resolution, resolution) in
  let patches_resolution := (img_size.1 / 4, img_size.2 / 4) in
  let n := embed_dim in
  {| patches_resolution := patches_resolution;
     num_patches := patches_resolution.1 * patches_resolution.2;
     in_chans := in_chans;
     embed_dim := embed_dim;
     seq_0 := Conv2d_BN.__init__ in_chans (n / 2) 3 2 1 1;
     seq_2 := Conv2d_BN.__init__ (n / 2) n 3 2 1 1 |}.

Definition modules (self : t) : NN.module :=
  NN.Mod [] [("seq", NN.Sequential [Conv2d_BN.modules (seq_0 self);
                                   NN.no_parameters;
                                   Conv2d_BN.modules (seq_2 self)])].

Definition forward_shape (self : t) (x : list nat) : result (list nat) :=
  x ← Conv2d_BN.forward_shape (seq_0 self) x;
  Conv2d_BN.forward_shape (seq_2 self) x.

End PatchEmbed.

Module MBConv.

Record t : Type := Build_MBConv {
  in_chans : nat;
  hidden_chans : nat;
  out_chans : nat;
  conv1 : Conv2d_BN.t;
  conv2 : Conv2d_BN.t;
  conv3 : Conv2d_BN.t;
}.

(** The expansion ratio is taken as an integer (the default is 4.0). *)
Definition __init__ (in_chans out_chans expand_ratio : nat) : t :=
  let hidden_chans := in_chans * expand_ratio in
  {| in_chans := in_chans;
     hidden_chans := hidden_chans;
     out_chans := out_chans;
     conv1 := Conv2d_BN.__init__ in_chans hidden_chans 1 1 0 1;
     conv2 := Conv2d_BN.__init__ hidden_chans hidden_chans 3 1 1 hidden_chans;
     conv3 := Conv2d_BN.__init__ hidden_chans out_chans 1 1 0 1 |}.

Definition modules (self : t) : NN.module :=
  NN.Mod [] [("conv1", Conv2d_BN.modules (conv1 self));
             ("act1", NN.no_parameters);
             ("conv2", Conv2d_BN.modules (conv2 self));
             ("act2", NN.no_parameters);
             ("conv3", Conv2d_BN.modules (conv3 self));
             ("act3", NN.no_parameters);
             ("drop_path", NN.no_parameters)].

Definition forward_shape (self : t) (x : list nat) : result (list nat) :=
  let shortcut := x in
  x ← Conv2d_BN.forward_shape (conv1 self) x;
  x ← Conv2d_BN.forward_shape (conv2 self) x;
  x ← Conv2d_BN.forward_shape (conv3 self) x;
  Shape.iadd x shortcut.

End MBConv.

Module PatchMerging.

Record t : Type := Build_PatchMerging {
  input_resolution : nat * nat;
  dim : nat;
  out_dim : nat;
  conv1 : Conv2d_BN.t;
  conv2 : Conv2d_BN.t;
  conv3 : Conv2d_BN.t;
}.

(** Lines 112-114. *)
Definition stride_c (out_dim : nat) : nat :=
  if bool_decide (out_dim ∈ [320; 448; 576]) then 1 else 2.

Definition __init__ (input_resolution : nat * nat) (dim out_dim : nat) : t :=
  {| input_resolution := input_resolution;
     dim := dim;
     out_dim := out_dim;
     conv1 := Conv2d_BN.__init__ dim out_dim 1 1 0 1;
     conv2 := Conv2d_BN.__init__ out_dim out_dim 3 (stride_c out_dim) 1 out_dim;
     conv3 := Conv2d_BN.__init__ out_dim out_dim 1 1 0 1 |}.

Definition modules (self : t) : NN.module :=
  NN.Mod [] [("act", NN.no_parameters);
             ("conv1", Conv2d_BN.modules (conv1 self));
             ("conv2", Conv2d_BN.modules (conv2 self));
             ("conv3", Conv2d_BN.modules (conv3 self))].

(** [x.flatten(2).transpose(1, 2)] on a (B, C, H, W) tensor. *)
Definition flatten_transpose (x : list nat) : result (list nat) :=
  match x with
  | [B; C; H; W] => Ok [B; H * W; C]
  | _ => Raise RuntimeError
  end.

Definition forward_shape (self : t) (x : list nat) : result (list nat) :=
  x ← (if length x =? 3 then
         let '(H, W) := input_resolution self in
         let B := hd 0 x in
         x ← Shape.view_infer_last B H W x;
         Ok (permute_list [0; 3; 1; 2] x)
       else Ok x);
  x ← Conv2d_BN.forward_shape (conv1 self) x;
  x ← Conv2d_BN.forward_shape (conv2 self) x;
  x ← Conv2d_BN.forward_shape (conv3 self) x;
  flatten_transpose x.

End PatchMerging.

Module Mlp.

Record t : Type := Build_Mlp {
  in_features : nat; hidden_features : nat; out_features : nat;
}.

(** [out_features] is left at [None] by the caller; a zero
    [hidden_features] is falsy and replaced as well. *)
Definition __init__ (in_features hidden_features : nat) : t :=
  {| in_features := in_features;
     hidden_features := if hidden_features =? 0 then in_features
                        else hidden_features;
     out_features := in_features |}.

Definition modules (self : t) : NN.module :=
  NN.Mod [] [("norm", NN.LayerNorm);
             ("fc1", NN.Linear);
             ("fc2", NN.Linear);
             ("act", NN.no_parameters);
             ("drop", NN.no_parameters)].

Definition forward_shape (self : t) (x : list nat) : result (list nat) :=
  x ← Shape.layer_norm (in_features self) x;
  x ← Shape.linear (in_features self) (hidden_features self) x;
  Shape.linear (hidden_features self) (out_features self) x.

End Mlp.

(** ** Attention (src/model.py, lines 180-233) *)

Module Attention.

(** [abs(a - b)] on Python ints that are list positions. *)
Definition abs_diff (a b : nat) : nat := Z.abs_nat (Z.of_nat a - Z.of_nat b).

(** [d.setdefault(k, v)] and [d[k]] on the offset dictionary. The
    lookup is only used right after [setdefault] on the same key, where
    the key is present ([KeyError] cannot occur). *)
Definition setdefault (k : nat * nat) (v : nat) (d : gmap (nat * nat) nat)
  : gmap (nat * nat) nat :=
  match d !! k with
  | Some _ => d
  | None => <[k := v]> d
  end.

Definition lookup_offset (d : gmap (nat * nat) nat) (k : nat * nat) : nat :=
  default 0 (d !! k).

Definition offset (p1 p2 : nat * nat) : nat * nat :=
  (abs_diff p1.1 p2.1, abs_diff p1.2 p2.2).

(** Body of the inner loop, lines 203-205; the state is
    [(attention_offsets, idxs)]. *)
Definition offsets_body (p1 p2 : nat * nat)
    (st : gmap (nat * nat) nat * list nat) : gmap (nat * nat) nat * list nat :=
  let attention_offsets := setdefault (offset p1 p2) (size st.1) st.1 in
  (attention_offsets, st.2 ++ [lookup_offset attention_offsets (offset p1 p2)]).

(** Lines 199-205. *)
Definition build_offsets (points : list (nat * nat))
  : gmap (nat * nat) nat * list nat :=
  foldl (fun st p1 => foldl (fun st p2 => offsets_body p1 p2 st) st points)
        (∅, []) points.

(** The offsets of all (point, point) pairs in the order in which the
    two loops meet them, and one step of the loops on such an offset. *)
Definition pair_offsets (points : list (nat * nat)) : list (nat * nat) :=
  flat_map (fun p1 => map (offset p1) points) points.

Definition offsets_step (st : gmap (nat * nat) nat * list nat) (o : nat * nat)
  : gmap (nat * nat) nat * list nat :=
  let attention_offsets := setdefault o (size st.1) st.1 in
  (attention_offsets, st.2 ++ [lookup_offset attention_offsets o]).

(** The distinct (|dRow|, |dCol|) pairs that occur between two cells
    of an [r0] by [r1] grid. *)
Definition achievable_offsets (r0 r1 : nat) : gset (nat * nat) :=
  list_to_set (pair_offsets (product (range r0) (range r1))).

(** What the loops maintain after having met the offsets [l]. *)
Record table_inv (l : list (nat * nat)) (st : gmap (nat * nat) nat * list nat)
  : Prop := {
  inv_dom : dom st.1 = list_to_set l;
  inv_first : forall k o, l !! k = Some o -> o ∉ take k l ->
    st.1 !! o = Some (size (list_to_set (take k l) : gset (nat * nat)));
  inv_idxs : st.2 = map (lookup_offset st.1) l;
  inv_lt : forall o v, st.1 !! o = Some v -> v < size st.1;
}.

(** The same table in the words of the specification, for a window of
    side [w]: the cells in row-major order, the offset of two cells as
    the pair of the absolute differences of their rows and of their
    columns (truncated subtraction both ways), and the offsets of all
    ordered pairs of cells, the first cell varying slowest. *)
Definition spec_cells (w : nat) : list (nat * nat) :=
  map (fun k => (k / w, k mod w)) (seq 0 (w * w)).

Definition spec_offset (p1 p2 : nat * nat) : nat * nat :=
  ((p1.1 - p2.1) + (p2.1 - p1.1), (p1.2 - p2.2) + (p2.2 - p1.2)).

Definition spec_pair_offsets (w : nat) : list (nat * nat) :=
  flat_map (fun p1 => map (spec_offset p1) (spec_cells w)) (spec_cells w).

(** The rank of the bucket of the [k]-th pair: the number of distinct
    offsets met before the first pair that has the offset of the
    [k]-th. *)
Definition spec_first_seen (l : list (nat * nat)) (o : nat * nat) : nat :=
  match list_find (fun o' => o' = o) l with
  | Some (k, _) => size (list_to_set (take k l) : gset (nat * nat))
  | None => 0
  end.

(** Line 186, [self.scale = key_dim ** -0.5]: zero cannot be raised to
    a negative power. *)
Definition scale_check (key_dim : nat) : result unit :=
  if key_dim =? 0 then Raise ZeroDivisionError else Ok tt.

Section Attention.
Context {R : Type}.
Variable zero : R.

(** The attributes of an [Attention] object that the claims are
    about. [ab] is [None] while the object has no attribute [ab]. *)
Record t : Type := Build_Attention {
  num_heads : nat;
  key_dim : nat;
  nh_kd : nat;
  d : nat;
  dh : nat;
  attn_ratio : nat;
  attention_biases : tensor R;
  attention_bias_idxs : tensor nat;
  training : bool;
  ab : option (tensor R);
}.

(** [Attention.__init__]. [resolution] is the sequence passed by the
    caller; the repository always passes an integer [attn_ratio].
    A fresh [nn.Module] is in training mode. *)
Definition __init__ (dim key_dim num_heads attn_ratio : nat)
    (resolution : list nat) : result t :=
  assert_ 184 (bool_decide (length resolution = 2));;
  scale_check key_dim;;
  r0 ← getitem resolution 0;
  r1 ← getitem resolution 1;
  let points := product (range r0) (range r1) in
  let N := length points in
  let '(attention_offsets, idxs) := build_offsets points in
  bias_idxs ← view [N; N] (Tensor.Build [length idxs] idxs);
  mret {| num_heads := num_heads;
          key_dim := key_dim;
          nh_kd := key_dim * num_heads;
          d := attn_ratio * key_dim;
          dh := attn_ratio * key_dim * num_heads;
          attn_ratio := attn_ratio;
          attention_biases :=
            Tensor.Build [num_heads; size attention_offsets]
              (replicate (num_heads * size attention_offsets) zero);
          attention_bias_idxs := bias_idxs;
          training := true;
          ab := None |}.

(** [biases[:, idxs]]: for every head, the row of [biases] read at
    the positions [idxs]; an index outside the row raises. *)
Definition index_columns (biases : tensor R) (idxs : tensor nat)
  : result (tensor R) :=
  match shape biases with
  | [h; n] =>
      if forallb (fun k => k <? n) (data idxs)
      then Ok (Tensor.Build (h :: shape idxs)
                 (flat_map (fun hh => map (fun k => nth (hh * n + k) (data biases) zero)
                                          (data idxs))
                           (seq 0 h)))
      else Raise IndexError
  | _ => Raise IndexError
  end.

(** [Attention.train], lines 211-217. *)
Definition train (mode : bool) (self : t) : result t :=
  let self := {| num_heads := num_heads self; key_dim := key_dim self;
                 nh_kd := nh_kd self; d := d self; dh := dh self;
                 attn_ratio := attn_ratio self;
                 attention_biases := attention_biases self;
                 attention_bias_idxs := attention_bias_idxs self;
                 training := mode;
                 ab := ab self |} in
  if mode && bool_decide (is_Some (ab self)) then
    mret {| num_heads := num_heads self; key_dim := key_dim self;
            nh_kd := nh_kd self; d := d self; dh := dh self;
            attn_ratio := attn_ratio self;
            attention_biases := attention_biases self;
            attention_bias_idxs := attention_bias_idxs self;
            training := training self;
            ab := None |}
  else
    v ← index_columns (attention_biases self) (attention_bias_idxs self);
    mret {| num_heads := num_heads self; key_dim := key_dim self;
            nh_kd := nh_kd self; d := d self; dh := dh self;
            attn_ratio := attn_ratio self;
            attention_biases := attention_biases self;
            attention_bias_idxs := attention_bias_idxs self;
            training := training self;
            ab := Some v |}.



(** The bias operand of line 228. *)
Definition forward_bias (self : t) : result (tensor R) :=
  if training self
  then index_columns (attention_biases self) (attention_bias_idxs self)
  else match ab self with
       | Some v => Ok v
       | None => Raise AttributeError
       end.

(** The floating-point part of [forward], for fixed weights of
    [norm], [qkv] and [proj]: [qk_scores] stands for lines 220-227 up
    to the scaled product [q @ k^T * scale] (it also yields [v]) and
    reads [num_heads], [key_dim] and [d]; [attend] stands for the
    addition of the bias, the softmax, the product with [v] and the
    projection (lines 227-231) and reads [dh]. None of these layers
    behaves differently in training and in evaluation mode. *)
Variable S V : Type.
Variable qk_scores : nat -> nat -> nat -> tensor R -> result (S * V).
Variable attend : nat -> S -> tensor R -> V -> result (tensor R).

Definition forward (self : t) (x : tensor R) : result (tensor R) :=
  '(scores, v) ← qk_scores (num_heads self) (key_dim self) (d self) x;
  bias ← forward_bias self;
  attend (dh self) scores bias v.

End Attention.

Arguments t R : clear implicits.
Arguments forward {R} zero {S V} qk_scores attend self x.

(** A one-head attention over two buckets on a 1x2 window, in
    training mode and after [train(False)], with stand-ins for the
    floating-point part, to run the cache on an example. *)
Definition demo : t nat :=
  Build_Attention 1 1 1 1 1 1
    (Tensor.Build [1; 2] [5; 6]) (Tensor.Build [2; 2] [0; 1; 1; 0]) true None.




(** The module tree: the parameter [attention_biases] and the layers
    [norm], [qkv], [proj] ([attention_bias_idxs] is a buffer). *)
Definition modules : NN.module :=
  NN.Mod ["attention_biases"]
         [("norm", NN.LayerNorm); ("qkv", NN.Linear); ("proj", NN.Linear)].

(** The widths the layers are built with, and the number [points] of
    grid points, the side of the index buffer. *)
Record arch : Type := Build_arch {
  arch_dim : nat;
  arch_num_heads : nat;
  arch_key_dim : nat;
  arch_nh_kd : nat;
  arch_d : nat;
  arch_dh : nat;
  arch_points : nat;
}.

Definition arch_init (dim key_dim num_heads attn_ratio : nat)
    (resolution : nat * nat) : arch :=
  {| arch_dim := dim;
     arch_num_heads := num_heads;
     arch_key_dim := key_dim;
     arch_nh_kd := key_dim * num_heads;
     arch_d := attn_ratio * key_dim;
     arch_dh := attn_ratio * key_dim * num_heads;
     arch_points := resolution.1 * resolution.2 |}.

(** The shape [forward] returns, lines 220-231: the layer norm and the
    fused projection need [C = dim]; [view(B, N, num_heads, -1)] and the
    split need the projected width to divide into heads of
    [key_dim + key_dim + d]; the (points, points) bias must broadcast
    against the (N, N) scores without changing their shape. *)
Definition forward_shape (self : arch) (x : list nat) : result (list nat) :=
  match x with
  | [B; N; C] =>
      x ← Shape.layer_norm (arch_dim self) x;
      qkv ← Shape.linear (arch_dim self) (arch_dh self + arch_nh_kd self * 2) x;
      qkv ← Shape.view_infer_last B N (arch_num_heads self) qkv;
      assert_split ← (if last qkv is Some per_head then
                        if per_head =? arch_key_dim self + arch_key_dim self + arch_d self
                        then Ok tt else Raise RuntimeError
                      else Raise RuntimeError);
      assert_bias ← (if (arch_points self =? N) || (arch_points self =? 1)
                     then Ok tt else Raise RuntimeError);
      x ← Shape.view [B; N; arch_dh self] [B; N; arch_num_heads self; arch_d self];
      Shape.linear (arch_dh self) (arch_dim self) x
  | _ => Raise ValueError
  end.

End Attention.

(** ** TinyViTBlock.forward (src/model.py, lines 255-288) *)

Module TinyViTBlock.

(** [a % b] and [a // b] on non-negative Python ints. *)
Definition py_mod (a b : nat) : result nat :=
  if b =? 0 then Raise ZeroDivisionError else Ok (a mod b).

Definition py_floordiv (a b : nat) : result nat :=
  if b =? 0 then Raise ZeroDivisionError else Ok (a / b).

Record t : Type := Build_Block {
  dim : nat;
  input_resolution : nat * nat;
  num_heads : nat;
  window_size : nat;
  mlp_ratio : nat;
  attn : Attention.arch;
  mlp : Mlp.t;
  local_conv : Conv2d_BN.t;
}.

(** [TinyViTBlock.__init__], lines 237-253; [mlp_ratio] is taken as an
    integer (the default is 4.0). The attention is constructed with
    [head_dim] as its [key_dim], whose line 186 raises when
    [head_dim] is 0; its resolution is a pair, so that its line 184
    passes. *)
Definition __init__ (dim : nat) (input_resolution : nat * nat)
    (num_heads window_size mlp_ratio local_conv_size : nat) : result t :=
  head_dim ← py_floordiv dim num_heads;
  Attention.scale_check head_dim;;
  let pad := local_conv_size / 2 in
  mret {| dim := dim;
          input_resolution := input_resolution;
          num_heads := num_heads;
          window_size := window_size;
          mlp_ratio := mlp_ratio;
          attn := Attention.arch_init dim head_dim num_heads 1
                    (window_size, window_size);
          mlp := Mlp.__init__ dim (dim * mlp_ratio);
          local_conv := Conv2d_BN.__init__ dim dim local_conv_size 1 pad dim |}.

(** A block of width 1 with one head, to run the window transform on
    small examples. *)
Definition demo (input_resolution : nat * nat) (window_size : nat) : t :=
  {| dim := 1;
     input_resolution := input_resolution;
     num_heads := 1;
     window_size := window_size;
     mlp_ratio := 4;
     attn := Attention.arch_init 1 1 1 1 (window_size, window_size);
     mlp := Mlp.__init__ 1 4;
     local_conv := Conv2d_BN.__init__ 1 1 3 1 1 1 |}.

(** An attention stand-in that keeps the shape and adds one to every
    entry. *)
Definition demo_attn (x : tensor nat) : result (tensor nat) :=
  Ok (Tensor.Build (shape x) (map S (data x))).

Definition modules (self : t) : NN.module :=
  NN.Mod [] [("drop_path", NN.no_parameters);
             ("attn", Attention.modules);
             ("mlp", Mlp.modules (mlp self));
             ("local_conv", Conv2d_BN.modules (local_conv self))].

Section Forward.
Context {A : Type}.
Variable zero : A.

(** [self.attn] as a function on tensors, and lines 282-286
    (residual sum, local convolution, MLP) as a function of [res] and
    [x]. *)
Variable attn_forward : tensor A -> result (tensor A).
Variable tail : tensor A -> tensor A -> result (tensor A).

(** The [else] branch, lines 264-280. In [window_size - H %
    window_size] the remainder is below [window_size], so the
    difference of the two ints is the difference on [nat]. *)
Definition general_path (self : t) (B H W C L : nat) (x : tensor A)
  : result (tensor A) :=
  let ws := window_size self in
  x ← view [B; H; W; C] x;
  hm ← py_mod H ws;
  pad_b ← py_mod (ws - hm) ws;
  wm ← py_mod W ws;
  pad_r ← py_mod (ws - wm) ws;
  x ← (if negb (pad_b =? 0) || negb (pad_r =? 0)
       then F_pad zero x [0; 0; 0; pad_r; 0; pad_b]
       else Ok x);
  let pH := H + pad_b in
  let pW := W + pad_r in
  nH ← py_floordiv pH ws;
  nW ← py_floordiv pW ws;
  x ← view [B; nH; ws; nW; ws; C] x;
  x ← transpose zero 2 3 x;
  x ← reshape [B * nH * nW; ws * ws; C] x;
  x ← attn_forward x;
  x ← view [B; nH; nW; ws; ws; C] x;
  x ← transpose zero 2 3 x;
  x ← reshape [B; pH; pW; C] x;
  x ← (if negb (pad_b =? 0) || negb (pad_r =? 0)
       then slice_hw zero H W x
       else Ok x);
  view [B; L; C] x.

(** Lines 260-280: the fast path or the general one. *)
Definition window_transform (self : t) (B H W C L : nat) (x : tensor A)
  : result (tensor A) :=
  if (H =? window_size self) && (W =? window_size self)
  then attn_forward x
  else general_path self B H W C L x.

Definition forward (self : t) (x : tensor A) : result (tensor A) :=
  match shape x with
  | [B; L; C] =>
      let '(H, W) := input_resolution self in
      assert_ 258 (L =? H * W);;
      let res := x in
      x ← window_transform self B H W C L x;
      tail res x
  | _ => Raise ValueError
  end.

End Forward.

(** The shapes of lines 260-280. *)
Definition window_transform_shape (self : t) (B H W C L : nat) (x : list nat)
  : result (list nat) :=
  let ws := window_size self in
  if (H =? ws) && (W =? ws) then Attention.forward_shape (attn self) x
  else
    x ← Shape.view [B; H; W; C] x;
    hm ← py_mod H ws;
    pad_b ← py_mod (ws - hm) ws;
    wm ← py_mod W ws;
    pad_r ← py_mod (ws - wm) ws;
    let padded := negb (pad_b =? 0) || negb (pad_r =? 0) in
    let x := if padded then [B; H + pad_b; W + pad_r; C] else x in
    let pH := H + pad_b in
    let pW := W + pad_r in
    nH ← py_floordiv pH ws;
    nW ← py_floordiv pW ws;
    x ← Shape.view [B; nH; ws; nW; ws; C] x;
    let x := permute_list (transposition 6 2 3) x in
    x ← Shape.view [B * nH * nW; ws * ws; C] x;
    x ← Attention.forward_shape (attn self) x;
    x ← Shape.view [B; nH; nW; ws; ws; C] x;
    let x := permute_list (transposition 6 2 3) x in
    x ← Shape.view [B; pH; pW; C] x;
    let x := if padded then [B; Nat.min H pH; Nat.min W pW; C] else x in
    Shape.view [B; L; C] x.

(** The shape [forward] returns, lines 255-288. *)
Definition forward_shape (self : t) (x : list nat) : result (list nat) :=
  match x with
  | [B; L; C] =>
      let '(H, W) := input_resolution self in
      assert_ 258 (L =? H * W);;
      let res := x in
      x ← window_transform_shape self B H W C L x;
      x ← Shape.add_same res x;
      x ← Shape.view [B; C; H; W] (permute_list (transposition 3 1 2) x);
      x ← Conv2d_BN.forward_shape (local_conv self) x;
      x ← Shape.view [B; C; L] x;
      let x := permute_list (transposition 3 1 2) x in
      y ← Mlp.forward_shape (mlp self) x;
      Shape.add_same x y
  | _ => Raise ValueError
  end.

End TinyViTBlock.


(** ** ConvLayer and BasicLayer (src/model.py, lines 133-156, 291-316) *)

Module Layer.

Inductive block : Type :=
| MBConv_block (blk : MBConv.t)
| TinyViT_block (blk : TinyViTBlock.t).

(** A stage: a [ConvLayer] when its blocks are [MBConv]s, a
    [BasicLayer] when they are [TinyViTBlock]s. *)
Record t : Type := Build_Layer {
  dim : nat;
  input_resolution : nat * nat;
  depth : nat;
  blocks : list block;
  downsample : option PatchMerging.t;
}.

Definition make_downsample (has_downsample : bool)
    (input_resolution : nat * nat) (dim out_dim : nat) : option PatchMerging.t :=
  if has_downsample
  then Some (PatchMerging.__init__ input_resolution dim out_dim)
  else None.

Definition ConvLayer (dim : nat) (input_resolution : nat * nat) (depth : nat)
    (has_downsample : bool) (out_dim conv_expand_ratio : nat) : t :=
  {| dim := dim;
     input_resolution := input_resolution;
     depth := depth;
     blocks := map (fun _ => MBConv_block (MBConv.__init__ dim dim conv_expand_ratio))
                   (range depth);
     downsample := make_downsample has_downsample input_resolution dim out_dim |}.

Definition BasicLayer (dim : nat) (input_resolution : nat * nat)
    (depth num_heads window_size mlp_ratio local_conv_size : nat)
    (has_downsample : bool) (out_dim : nat) : result t :=
  blocks ← mapM (fun _ => TinyViTBlock.__init__ dim input_resolution num_heads
                            window_size mlp_ratio local_conv_size)
                (range depth);
  mret {| dim := dim;
          input_resolution := input_resolution;
          depth := depth;
          blocks := map TinyViT_block blocks;
          downsample := make_downsample has_downsample input_resolution dim out_dim |}.

Definition block_modules (blk : block) : NN.module :=
  match blk with
  | MBConv_block blk => MBConv.modules blk
  | TinyViT_block blk => TinyViTBlock.modules blk
  end.

Definition modules (self : t) : NN.module :=
  NN.Mod [] (("blocks", NN.ModuleList (map block_modules (blocks self))) ::
             match downsample self with
             | Some ds => [("downsample", PatchMerging.modules ds)]
             | None => []
             end).

Definition block_forward_shape (blk : block) (x : list nat) : result (list nat) :=
  match blk with
  | MBConv_block blk => MBConv.forward_shape blk x
  | TinyViT_block blk => TinyViTBlock.forward_shape blk x
  end.

Fixpoint blocks_forward_shape (blks : list block) (x : list nat)
  : result (list nat) :=
  match blks with
  | [] => Ok x
  | blk :: blks => x ← block_forward_shape blk x; blocks_forward_shape blks x
  end.

Definition forward_shape (self : t) (x : list nat) : result (list nat) :=
  x ← blocks_forward_shape (blocks self) x;
  match downsample self with
  | Some ds => PatchMerging.forward_shape ds x
  | None => Ok x
  end.

End Layer.

(** ** TinyViT (src/model.py, lines 335-436) *)

Module TinyViT.

(** [hasattr(p, 'lr_scale') or AssertionError(p.param_name)] evaluates
    to [True] or to an exception object; the object is a value like any
    other, nothing is raised. *)
Inductive pyobj : Type :=
| PyTrue
| PyAssertionError (arg : NN.path).

Definition is_exception (o : pyobj) : bool :=
  match o with
  | PyTrue => false
  | PyAssertionError _ => true
  end.

(** The components that [set_layer_lr_decay] visits, and the name of
    each from the root. *)
Inductive component : Type :=
| Stem
| Block (li bj : nat)
| Downsample (li : nat)
| NormHead
| Head.

Definition component_path (c : component) : NN.path :=
  match c with
  | Stem => ["patch_embed"]
  | Block li bj => ["layers"; pretty li; "blocks"; pretty bj]
  | Downsample li => ["layers"; pretty li; "downsample"]
  | NormHead => ["norm_head"]
  | Head => ["head"]
  end.

Definition block_counts (layers : list Layer.t) : list nat :=
  map (fun l => length (Layer.blocks l)) layers.

(** The index into [lr_scales] that the traversal uses for a component,
    given the number of blocks of every stage. *)
Definition scale_index (counts : list nat) (c : component) : Z :=
  match c with
  | Stem => 0
  | Block li bj => Z.of_nat (sum (take li counts) + bj)
  | Downsample li => Z.of_nat (sum (take (S li) counts)) - 1
  | NormHead => -1
  | Head => -1
  end.

(** The stage whose resolution repeats its predecessor's, lines
    362-363. *)
Definition stage_exponent (i_layer : nat) : nat :=
  if i_layer =? 3 then i_layer - 1 else i_layer.

Definition stage_resolution (patches_resolution : nat * nat) (i_layer : nat)
  : nat * nat :=
  (patches_resolution.1 / 2 ^ stage_exponent i_layer,
   patches_resolution.2 / 2 ^ stage_exponent i_layer).

Section TinyViT.
(** The learning-rate scales: [rpow x n] is [x ** n]. *)
Context {R : Type}.
Variable rpow : R -> nat -> R.

(** The constructor's arguments. The two expansion ratios are taken
    as integers (the defaults are 4.0); the dropout and
    stochastic-depth rates and [use_checkpoint] affect neither shapes
    nor parameters and are left out. *)
Record config : Type := Build_config {
  cfg_img_size : nat;
  cfg_in_chans : nat;
  cfg_num_classes : nat;
  cfg_embed_dims : list nat;
  cfg_depths : list nat;
  cfg_num_heads : list nat;
  cfg_window_sizes : list nat;
  cfg_mlp_ratio : nat;
  cfg_mbconv_expand_ratio : nat;
  cfg_local_conv_size : nat;
  cfg_layer_lr_decay : R;
}.

(** The default arguments of line 336-341. *)
Definition default_config (layer_lr_decay : R) : config :=
  {| cfg_img_size := 224;
     cfg_in_chans := 3;
     cfg_num_classes := 1000;
     cfg_embed_dims := [96; 192; 384; 768];
     cfg_depths := [2; 2; 6; 2];
     cfg_num_heads := [3; 6; 12; 24];
     cfg_window_sizes := [7; 7; 14; 7];
     cfg_mlp_ratio := 4;
     cfg_mbconv_expand_ratio := 4;
     cfg_local_conv_size := 3;
     cfg_layer_lr_decay := layer_lr_decay |}.

(** The model object. [head] is [None] for [nn.Identity];
    [neck] records the input width of its first convolution;
    [lr_scale] and [param_name] hold the attributes of that name of
    the parameter objects, keyed by the parameter's name from the
    root (absent key: no such attribute). *)
Record t : Type := Build_TinyViT {
  img_size : nat;
  num_classes : nat;
  depths : list nat;
  num_layers : nat;
  mlp_ratio : nat;
  patch_embed : PatchEmbed.t;
  patches_resolution : nat * nat;
  layers : list Layer.t;
  norm_head : nat;
  head : option (nat * nat);
  neck : nat;
  lr_scale : gmap NN.path R;
  param_name : gmap NN.path NN.path;
}.

(** One iteration of the loop of lines 359-379. *)
Definition build_layer (cfg : config) (patches_resolution : nat * nat)
    (num_layers i_layer : nat) : result Layer.t :=
  dim ← getitem (cfg_embed_dims cfg) (Z.of_nat i_layer);
  let input_resolution := stage_resolution patches_resolution i_layer in
  depth ← getitem (cfg_depths cfg) (Z.of_nat i_layer);
  let has_downsample := i_layer <? num_layers - 1 in
  out_dim ← getitem (cfg_embed_dims cfg)
              (Z.min (Z.of_nat i_layer + 1)
                     (Z.of_nat (length (cfg_embed_dims cfg)) - 1));
  if i_layer =? 0 then
    mret (Layer.ConvLayer dim input_resolution depth has_downsample out_dim
            (cfg_mbconv_expand_ratio cfg))
  else
    num_heads ← getitem (cfg_num_heads cfg) (Z.of_nat i_layer);
    window_size ← getitem (cfg_window_sizes cfg) (Z.of_nat i_layer);
    Layer.BasicLayer dim input_resolution depth num_heads window_size
      (cfg_mlp_ratio cfg) (cfg_local_conv_size cfg) has_downsample out_dim.

(** Lines 342-393: everything [__init__] does before the tagging
    pass. *)
Definition build (cfg : config) : result t :=
  let num_layers := length (cfg_depths cfg) in
  embed_dim ← getitem (cfg_embed_dims cfg) 0;
  let patch_embed :=
    PatchEmbed.__init__ (cfg_in_chans cfg) embed_dim (cfg_img_size cfg) in
  let patches_resolution := PatchEmbed.patches_resolution patch_embed in
  layers ← mapM (build_layer cfg patches_resolution num_layers) (range num_layers);
  last_dim ← getitem (cfg_embed_dims cfg) (-1);
  mret {| img_size := cfg_img_size cfg;
          num_classes := cfg_num_classes cfg;
          depths := cfg_depths cfg;
          num_layers := num_layers;
          mlp_ratio := cfg_mlp_ratio cfg;
          patch_embed := patch_embed;
          patches_resolution := patches_resolution;
          layers := layers;
          norm_head := last_dim;
          head := if 0 <? cfg_num_classes cfg
                  then Some (last_dim, cfg_num_classes cfg) else None;
          neck := last_dim;
          lr_scale := ∅;
          param_name := ∅ |}.

Definition head_modules (self : t) : NN.module :=
  match head self with
  | Some _ => NN.Linear
  | None => NN.no_parameters
  end.

(** [LayerNorm2d] registers [weight] and [bias]. *)
Definition neck_modules : NN.module :=
  NN.Sequential [NN.Conv2d_no_bias; NN.leaf ["weight"; "bias"];
                 NN.Conv2d_no_bias; NN.leaf ["weight"; "bias"]].

(** The module tree of the whole model, in registration order. *)
Definition modules (self : t) : NN.module :=
  NN.Mod [] [("patch_embed", PatchEmbed.modules (patch_embed self));
             ("layers", NN.ModuleList (map Layer.modules (layers self)));
             ("norm_head", NN.LayerNorm);
             ("head", head_modules self);
             ("neck", neck_modules)].

(** [_set_lr_scale(m, scale)], line 407-408, on the [lr_scale]
    attributes. *)
Definition _set_lr_scale (prefix : NN.path) (m : NN.module) (scale : R)
    (st : gmap NN.path R) : gmap NN.path R :=
  foldl (fun st p => <[p := scale]> st) st (NN.named_parameters prefix m).

(** [lambda x: _set_lr_scale(x, lr_scales[i])]: the list is indexed
    each time the lambda is called. *)
Definition tag (lr_scales : list R) (i : Z) (prefix : NN.path) (x : NN.module)
    (st : gmap NN.path R) : result (gmap NN.path R) :=
  scale ← getitem lr_scales i;
  mret (_set_lr_scale prefix x scale st).

(** Lines 414-415 for the blocks of layer number [li], from block
    number [bj] on; [i] is the running block counter. *)
Fixpoint tag_blocks (lr_scales : list R) (li bj : nat) (blocks : list Layer.block)
    (i : nat) (st : gmap NN.path R) : result (nat * gmap NN.path R) :=
  match blocks with
  | [] => Ok (i, st)
  | block :: blocks =>
      st ← NN.apply (tag lr_scales (Z.of_nat i))
             (component_path (Block li bj))
             (Layer.block_modules block) st;
      tag_blocks lr_scales li (S bj) blocks (i + 1) st
  end.

(** Lines 413-417, from layer number [li] on. *)
Fixpoint tag_layers (lr_scales : list R) (li : nat) (layers : list Layer.t)
    (i : nat) (st : gmap NN.path R) : result (nat * gmap NN.path R) :=
  match layers with
  | [] => Ok (i, st)
  | layer :: layers =>
      '(i, st) ← tag_blocks lr_scales li 0 (Layer.blocks layer) i st;
      st ← match Layer.downsample layer with
           | Some ds =>
               NN.apply (tag lr_scales (Z.of_nat i - 1))
                 (component_path (Downsample li))
                 (PatchMerging.modules ds) st
           | None => Ok st
           end;
      tag_layers lr_scales (S li) layers i st
  end.

(** The same traversal laid out as a list of tagging steps: the
    module [op_module] named [op_prefix] receives
    [lr_scales[op_index]]. *)
Record tag_op : Type := Build_tag_op {
  op_prefix : NN.path;
  op_module : NN.module;
  op_index : Z;
}.

Definition op_parameters (op : tag_op) : list NN.path :=
  NN.named_parameters (op_prefix op) (op_module op).

Fixpoint run_ops (lr_scales : list R) (ops : list tag_op)
    (st : gmap NN.path R) : result (gmap NN.path R) :=
  match ops with
  | [] => Ok st
  | op :: ops =>
      st ← NN.apply (tag lr_scales (op_index op)) (op_prefix op) (op_module op) st;
      run_ops lr_scales ops st
  end.

Fixpoint blocks_ops (li bj : nat) (blocks : list Layer.block) (i : nat)
  : list tag_op :=
  match blocks with
  | [] => []
  | block :: blocks =>
      Build_tag_op (component_path (Block li bj)) (Layer.block_modules block)
                   (Z.of_nat i)
      :: blocks_ops li (S bj) blocks (i + 1)
  end.

Definition downsample_ops (li : nat) (layer : Layer.t) (i : nat) : list tag_op :=
  match Layer.downsample layer with
  | Some ds => [Build_tag_op (component_path (Downsample li))
                             (PatchMerging.modules ds) (Z.of_nat i - 1)]
  | None => []
  end.

Fixpoint layers_ops (li : nat) (layers : list Layer.t) (i : nat) : list tag_op :=
  match layers with
  | [] => []
  | layer :: layers =>
      let i' := i + length (Layer.blocks layer) in
      blocks_ops li 0 (Layer.blocks layer) i ++ downsample_ops li layer i' ++
      layers_ops (S li) layers i'
  end.

Definition plan (self : t) : list tag_op :=
  Build_tag_op (component_path Stem) (PatchEmbed.modules (patch_embed self)) 0
  :: layers_ops 0 (layers self) 0
  ++ [Build_tag_op (component_path NormHead) NN.LayerNorm (-1);
      Build_tag_op (component_path Head) (head_modules self) (-1)].

(** The list comprehension of line 423 for one module. *)
Definition check_param (lr : gmap NN.path R) (names : gmap NN.path NN.path)
    (p : NN.path) : result pyobj :=
  if bool_decide (is_Some (lr !! p)) then Ok PyTrue
  else match names !! p with
       | Some k => Ok (PyAssertionError k)
       | None => Raise AttributeError
       end.

Definition check_module (lr : gmap NN.path R) (names : gmap NN.path NN.path)
    (prefix : NN.path) (m : NN.module) : result (list pyobj) :=
  mapM (check_param lr names) (NN.named_parameters prefix m).

(** [set_layer_lr_decay], lines 403-423. *)
Definition set_layer_lr_decay (self : t) (layer_lr_decay : R) : result t :=
  let decay_rate := layer_lr_decay in
  let depth := sum (depths self) in
  let lr_scales := map (fun i => rpow decay_rate (depth - i - 1)) (range depth) in
  st ← NN.apply (tag lr_scales 0) (component_path Stem)
         (PatchEmbed.modules (patch_embed self)) (lr_scale self);
  '(i, st) ← tag_layers lr_scales 0 (layers self) 0 st;
  assert_ 418 (i =? depth);;
  st ← NN.apply (tag lr_scales (-1)) (component_path NormHead) NN.LayerNorm st;
  st ← NN.apply (tag lr_scales (-1)) (component_path Head) (head_modules self) st;
  let names := foldl (fun names k => <[k := k]> names) (param_name self)
                     (NN.named_parameters [] (modules self)) in
  NN.apply (fun prefix m (_ : unit) =>
              _ ← check_module st names prefix m; Ok tt)
           [] (modules self) tt;;
  mret {| img_size := img_size self;
          num_classes := num_classes self;
          depths := depths self;
          num_layers := num_layers self;
          mlp_ratio := mlp_ratio self;
          patch_embed := patch_embed self;
          patches_resolution := patches_resolution self;
          layers := layers self;
          norm_head := norm_head self;
          head := head self;
          neck := neck self;
          lr_scale := st;
          param_name := names |}.

(** [TinyViT.__init__]. *)
Definition __init__ (cfg : config) : result t :=
  self ← build cfg;
  set_layer_lr_decay self (cfg_layer_lr_decay cfg).

(** What line 423 computes and drops: for every parameter of the
    model, [True] or the exception object built for it. *)
Definition lr_scale_report (self : t) : result (list pyobj) :=
  check_module (lr_scale self) (param_name self) [] (modules self).

Fixpoint layers_forward_shape (ls : list Layer.t) (x : list nat)
  : result (list nat) :=
  match ls with
  | [] => Ok x
  | layer :: ls => x ← Layer.forward_shape layer x; layers_forward_shape ls x
  end.

(** The neck: 1x1 convolution to 256 channels, [LayerNorm2d(256)],
    3x3 convolution with padding 1, [LayerNorm2d(256)]. *)
Definition LayerNorm2d_shape (num_channels : nat) (x : list nat)
  : result (list nat) :=
  match x with
  | [B; C; H; W] => if C =? num_channels then Ok x else Raise RuntimeError
  | _ => Raise RuntimeError
  end.

Definition neck_forward_shape (self : t) (x : list nat) : result (list nat) :=
  x ← Shape.conv2d (neck self) 256 1 1 0 x;
  x ← LayerNorm2d_shape 256 x;
  x ← Shape.conv2d 256 256 3 1 1 x;
  LayerNorm2d_shape 256 x.

(** The shape returned by [forward_features] (and [forward]) on an
    input of shape [x], lines 425-433. *)
Definition forward_features_shape (self : t) (x : list nat) : result (list nat) :=
  x ← PatchEmbed.forward_shape (patch_embed self) x;
  x ← layers_forward_shape (layers self) x;
  match x with
  | [B; _; C] =>
      x ← Shape.view [B; 64; 64; C] x;
      let x := permute_list [0; 3; 1; 2] x in
      neck_forward_shape self x
  | _ => Raise ValueError
  end.

Definition forward_shape := forward_features_shape.

End TinyViT.

Arguments config R : clear implicits.
Arguments t R : clear implicits.

(** The schedule as the specification words it: stage [i] of [K] has
    the base resolution halved [i] times, except that the last stage
    repeats the resolution of stage [K - 2]. *)
Definition spec_stage_resolution (K : nat) (base : nat * nat) (i : nat)
  : nat * nat :=
  let e := if i =? K - 1 then K - 2 else i in
  (base.1 / 2 ^ e, base.2 / 2 ^ e).

(** Example configurations, with integer scales and a decay rate of 1:
    the defaults; three stages of the defaults; and a configuration for
    1024x1024 images whose last stage keeps a 64x64 grid. *)
Definition zpow (x : Z) (n : nat) : Z := (x ^ Z.of_nat n)%Z.

Definition default_config_1 : config Z := default_config 1%Z.

Definition three_stage_config : config Z :=
  {| cfg_img_size := 224;
     cfg_in_chans := 3;
     cfg_num_classes := 1000;
     cfg_embed_dims := [96; 192; 384];
     cfg_depths := [2; 2; 6];
     cfg_num_heads := [3; 6; 12];
     cfg_window_sizes := [7; 7; 14];
     cfg_mlp_ratio := 4;
     cfg_mbconv_expand_ratio := 4;
     cfg_local_conv_size := 3;
     cfg_layer_lr_decay := 1%Z |}.

Definition config_1024 : config Z :=
  {| cfg_img_size := 1024;
     cfg_in_chans := 3;
     cfg_num_classes := 1000;
     cfg_embed_dims := [64; 128; 160; 320];
     cfg_depths := [2; 2; 6; 2];
     cfg_num_heads := [2; 4; 5; 10];
     cfg_window_sizes := [7; 7; 14; 7];
     cfg_mlp_ratio := 4;
     cfg_mbconv_expand_ratio := 4;
     cfg_local_conv_size := 3;
     cfg_layer_lr_decay := 1%Z |}.

(** The same widths, depths, heads and windows at the default image
    size. *)
Definition config_224 : config Z :=
  {| cfg_img_size := 224;
     cfg_in_chans := 3;
     cfg_num_classes := 1000;
     cfg_embed_dims := [64; 128; 160; 320];
     cfg_depths := [2; 2; 6; 2];
     cfg_num_heads := [2; 4; 5; 10];
     cfg_window_sizes := [7; 7; 14; 7];
     cfg_mlp_ratio := 4;
     cfg_mbconv_expand_ratio := 4;
     cfg_local_conv_size := 3;
     cfg_layer_lr_decay := 1%Z |}.

(** The value of a computation that is known to return. *)
Definition of_Ok {A : Type} (r : result A)
  : match r with Ok _ => A | Raise _ => unit end :=
  match r with
  | Ok a => a
  | Raise _ => tt
  end.

(** The model that lines 342-393 assemble from the default arguments,
    before the tagging pass. *)
Definition default_model : t Z :=
  Eval vm_compute in of_Ok (build default_config_1).

(** The model assembled for 1024x1024 images, and a configuration with
    a single stage. *)
Definition model_1024 : t Z := of_Ok (build config_1024).

Definition single_stage_config : config Z :=
  {| cfg_img_size := 224;
     cfg_in_chans := 3;
     cfg_num_classes := 1000;
     cfg_embed_dims := [96];
     cfg_depths := [2];
     cfg_num_heads := [3];
     cfg_window_sizes := [7];
     cfg_mlp_ratio := 4;
     cfg_mbconv_expand_ratio := 4;
     cfg_local_conv_size := 3;
     cfg_layer_lr_decay := 1%Z |}.

Definition single_stage_model : t Z :=
  Eval vm_compute in of_Ok (build single_stage_config).

(** The stochastic-depth schedule, lines 355 and 365. [value k] stands
    for entry [k] of [torch.linspace(0, drop_path_rate, sum(depths))];
    [slice l a b] is [l[a:b]] for non-negative bounds, which Python
    clamps to the length of the list. *)
Definition slice {A} (l : list A) (a b : nat) : list A := drop a (take b l).

Definition dpr {A} (value : nat -> A) (depths : list nat) : list A :=
  map value (range (sum depths)).

Definition stage_drop_path {A} (dpr : list A) (depths : list nat)
    (i_layer : nat) : list A :=
  slice dpr (sum (slice depths 0 i_layer)) (sum (slice depths 0 (i_layer + 1))).

(** Lines 143 and 301: [drop_path[i]] for block [i] of a stage; the
    slice is a list, so the [isinstance] test holds. *)
Definition block_drop_path {A} (drop_path : list A) (i : nat) : result A :=
  getitem drop_path (Z.of_nat i).

End TinyViT.

(** * Properties *)

(** ** Index arithmetic of contiguous tensors *)

Module TensorFacts.

Lemma ravel_unravel s : forall k, k < numel s -> ravel s (unravel s k) = k.
Proof.
  induction s as [|d s IH]; intros k Hk; simpl in *.
  - lia.
  - assert (Hpos : 0 < numel s) by (destruct (numel s); lia).
    rewrite IH by (apply Nat.mod_upper_bound; lia).
    pose proof (Nat.div_mod_eq k (numel s)). lia.
Qed.

Lemma unravel_in_bounds s : forall k, k < numel s -> in_bounds s (unravel s k).
Proof.
  induction s as [|d s IH]; intros k Hk; simpl in *.
  - constructor.
  - assert (Hpos : 0 < numel s) by (destruct (numel s); lia).
    constructor.
    + apply Nat.Div0.div_lt_upper_bound. lia.
    + apply IH, Nat.mod_upper_bound. lia.
Qed.

Lemma ravel_lt s : forall idx, in_bounds s idx -> ravel s idx < numel s.
Proof.
  induction s as [|d s IH]; intros idx Hb; inversion Hb; subst; simpl.
  - lia.
  - specialize (IH _ H3). nia.
Qed.

Lemma unravel_ravel s : forall idx, in_bounds s idx -> unravel s (ravel s idx) = idx.
Proof.
  induction s as [|d s IH]; intros idx Hb; inversion Hb; subst; simpl.
  - reflexivity.
  - pose proof (ravel_lt _ _ H3) as Hlt.
    rewrite Nat.div_add_l by lia.
    rewrite (Nat.div_small _ _ Hlt), Nat.add_0_r.
    rewrite Nat.add_comm, Nat.Div0.mod_add, (Nat.mod_small _ _ Hlt).
    by rewrite IH.
Qed.

Lemma in_bounds_length s idx : in_bounds s idx -> length idx = length s.
Proof. apply Forall2_length. Qed.

Lemma in_bounds_nth s idx i :
  in_bounds s idx -> i < length s -> nth i idx 0 < nth i s 0.
Proof.
  intros Hb. revert i. induction Hb; intros [|i] Hi; simpl in *; try lia.
  apply IHHb. lia.
Qed.

Lemma nth_permute_list p l i :
  i < length p -> nth i (permute_list p l) 0 = nth (nth i p 0) l 0.
Proof.
  intros Hi. unfold permute_list.
  rewrite (nth_indep _ 0 ((fun j => nth j l 0) 0)) by (by rewrite length_map).
  apply (map_nth (fun j => nth j l 0)).
Qed.

Lemma permute_in_bounds p s idx :
  Forall (fun i => i < length s) p -> in_bounds s idx ->
  in_bounds (permute_list p s) (permute_list p idx).
Proof.
  intros Hp Hb. unfold in_bounds, permute_list.
  induction Hp as [|i p Hi _ IH]; simpl; constructor; auto.
  by apply in_bounds_nth.
Qed.

Lemma permute_permute q p l :
  Forall (fun i => i < length p) q ->
  permute_list q (permute_list p l) = permute_list (permute_list q p) l.
Proof.
  intros Hq. unfold permute_list. rewrite map_map.
  apply map_ext_Forall. eapply Forall_impl; [exact Hq|].
  intros i Hi. simpl. by apply (nth_permute_list p l i).
Qed.

Lemma permute_seq l : permute_list (seq 0 (length l)) l = l.
Proof.
  unfold permute_list. apply nth_ext with (d := 0) (d' := 0).
  - by rewrite length_map, length_seq.
  - intros i Hi. rewrite length_map, length_seq in Hi.
    rewrite (nth_indep _ 0 ((fun j => nth j l 0) 0))
      by (by rewrite length_map, length_seq).
    rewrite (map_nth (fun j => nth j l 0)). by rewrite seq_nth.
Qed.

Lemma numel_Permutation s s' : Permutation s s' -> numel s = numel s'.
Proof. induction 1; simpl; lia. Qed.

Lemma numel_permute p s :
  Permutation p (seq 0 (length s)) -> numel (permute_list p s) = numel s.
Proof.
  intros Hp. rewrite <- (permute_seq s) at 2.
  apply numel_Permutation. unfold permute_list. by apply Permutation_map.
Qed.

(** The exchange of two axes is a permutation and its own inverse. *)

Lemma exchange_lt n d0 d1 i : d0 < n -> d1 < n -> i < n -> exchange d0 d1 i < n.
Proof. unfold exchange. intros. repeat case_decide; lia. Qed.

Lemma exchange_exchange d0 d1 i : exchange d0 d1 (exchange d0 d1 i) = i.
Proof. unfold exchange. repeat case_decide; lia. Qed.

Lemma transposition_length n d0 d1 : length (transposition n d0 d1) = n.
Proof. unfold transposition. by rewrite length_map, length_seq. Qed.

Lemma transposition_lt n d0 d1 :
  d0 < n -> d1 < n -> Forall (fun i => i < n) (transposition n d0 d1).
Proof.
  intros H0 H1. unfold transposition. apply List.Forall_forall. intros x Hx.
  apply in_map_iff in Hx as (i & <- & Hi). apply in_seq in Hi.
  apply exchange_lt; lia.
Qed.

Lemma transposition_self_inverse n d0 d1 :
  d0 < n -> d1 < n ->
  permute_list (transposition n d0 d1) (transposition n d0 d1) = seq 0 n.
Proof.
  intros H0 H1. unfold permute_list. unfold transposition at 2.
  rewrite map_map. rewrite <- (map_id (seq 0 n)) at 2.
  apply map_ext_in. intros i Hi. apply in_seq in Hi.
  unfold transposition.
  rewrite (nth_indep _ 0 (exchange d0 d1 0))
    by (rewrite length_map, length_seq; apply exchange_lt; lia).
  rewrite (map_nth (exchange d0 d1)), seq_nth by (apply exchange_lt; lia).
  apply exchange_exchange.
Qed.

Lemma transposition_Permutation n d0 d1 :
  d0 < n -> d1 < n -> Permutation (transposition n d0 d1) (seq 0 n).
Proof.
  intros H0 H1. apply Permutation.NoDup_Permutation.
  - unfold transposition. apply List.NoDup_map_inv with (f := exchange d0 d1).
    rewrite map_map. erewrite map_ext; [rewrite map_id; apply List.seq_NoDup|].
    intros i. apply exchange_exchange.
  - apply List.seq_NoDup.
  - intros x. unfold transposition. rewrite in_map_iff.
    setoid_rewrite in_seq. split.
    + intros (i & <- & Hi). split; [lia|]. apply exchange_lt; lia.
    + intros [_ Hx]. exists (exchange d0 d1 x). split.
      * by rewrite exchange_exchange.
      * split; [lia|]. apply exchange_lt; lia.
Qed.

Section OpsFacts.
Context {A : Type}.
Variable zero : A.

Lemma map_nth_seq (l : list A) n :
  n = length l -> map (fun k => nth k l zero) (seq 0 n) = l.
Proof.
  intros ->. apply nth_ext with (d := zero) (d' := zero).
  - by rewrite length_map, length_seq.
  - intros i Hi. rewrite length_map, length_seq in Hi.
    rewrite (nth_indep _ zero ((fun k => nth k l zero) 0))
      by (by rewrite length_map, length_seq).
    rewrite (map_nth (fun k => nth k l zero)). by rewrite seq_nth.
Qed.

Lemma nth_map_seq (f : nat -> A) n k :
  k < n -> nth k (map f (seq 0 n)) zero = f k.
Proof.
  intros Hk. rewrite (nth_indep _ zero (f 0)) by (by rewrite length_map, length_seq).
  rewrite (map_nth f). by rewrite seq_nth.
Qed.

(** Transposing the same two axes twice gives the tensor back. *)
Lemma transpose_transpose d0 d1 (t : tensor A) :
  wf t -> d0 < length (shape t) -> d1 < length (shape t) ->
  transpose zero d0 d1 t ≫= transpose zero d0 d1 = Ok t.
Proof.
  intros Hwf H0 H1. destruct t as [s dat]. unfold wf in Hwf. simpl in *.
  unfold transpose at 2. simpl.
  rewrite decide_True by done.
  set (p := transposition (length s) d0 d1).
  assert (Hplen : length p = length s) by apply transposition_length.
  assert (Hplt : Forall (fun i => i < length s) p) by (by apply transposition_lt).
  assert (Hpp : permute_list p p = seq 0 (length s))
    by (by apply transposition_self_inverse).
  assert (Hperm : Permutation p (seq 0 (length s)))
    by (by apply transposition_Permutation).
  set (s' := permute_list p s).
  assert (Hs'len : length s' = length s)
    by (unfold s', permute_list; by rewrite length_map).
  assert (Hnum : numel s' = numel s) by (by apply numel_permute).
  unfold mbind, result_bind. unfold transpose. simpl.
  rewrite Hs'len, decide_True by done. fold p.
  assert (Hback : forall l, length l = length s ->
            permute_list p (permute_list p l) = l).
  { intros l Hl. rewrite permute_permute by (by rewrite Hplen).
    rewrite Hpp, <- Hl. apply permute_seq. }
  assert (Hs : permute_list p s' = s) by (by apply Hback).
  rewrite Hs, Hnum. f_equal. f_equal.
  transitivity (map (fun k => nth k dat zero) (seq 0 (numel s)));
    [|by apply map_nth_seq].
  apply map_ext_in. intros k Hk. apply in_seq in Hk.
  pose proof (unravel_in_bounds s k ltac:(lia)) as Hb.
  pose proof (permute_in_bounds p s _ Hplt Hb) as Hb'. fold s' in Hb'.
  rewrite nth_map_seq by (rewrite <- Hnum; exact (ravel_lt _ _ Hb')).
  rewrite (unravel_ravel _ _ Hb').
  rewrite Hback by (by apply in_bounds_length).
  by rewrite ravel_unravel by lia.
Qed.

Lemma transpose_ok d0 d1 (t : tensor A) :
  d0 < length (shape t) -> d1 < length (shape t) ->
  exists dat',
    transpose zero d0 d1 t =
    Ok (Tensor.Build
          (permute_list (transposition (length (shape t)) d0 d1) (shape t)) dat').
Proof.
  intros H0 H1. unfold transpose. rewrite decide_True by done. eauto.
Qed.

Lemma view_ok s (t : tensor A) :
  numel s = numel (shape t) -> view s t = Ok (Tensor.Build s (data t)).
Proof. intros H. unfold view. by rewrite decide_True. Qed.

Lemma in_bounds_mono s s' idx :
  Forall2 le s s' -> in_bounds s idx -> in_bounds s' idx.
Proof.
  intros Hle. revert idx. unfold in_bounds.
  induction Hle; intros idx Hb; inversion Hb; subst; constructor; auto; lia.
Qed.

Lemma pad_source_in_bounds s : forall amts idx,
  Forall (fun lr : nat * nat => lr.1 = 0) amts -> length amts = length s ->
  in_bounds s idx -> pad_source s amts idx = Some idx.
Proof.
  induction s as [|d s IH]; intros amts idx Hz Hlen Hb;
    inversion Hb; subst; simpl.
  - by destruct amts.
  - destruct amts as [|[lo hi] amts]; [done|].
    inversion Hz; subst. simpl in *. subst lo.
    rewrite decide_True by lia.
    rewrite IH by (auto; lia). simpl. by rewrite Nat.sub_0_r.
Qed.

(** Padding the bottom and the right of a (B, H, W, C) tensor. *)
Lemma F_pad_bottom_right B H W C pr pb (dat : list A) :
  F_pad zero (Tensor.Build [B; H; W; C] dat) [0; 0; 0; pr; 0; pb] =
  Ok (Tensor.Build [B; H + pb; W + pr; C]
        (map (fun k =>
                match pad_source [B; H; W; C] [(0, 0); (0, pb); (0, pr); (0, 0)]
                        (unravel [B; H + pb; W + pr; C] k) with
                | Some idx => nth (ravel [B; H; W; C] idx) dat zero
                | None => zero
                end)
             (seq 0 (numel [B; H + pb; W + pr; C])))).
Proof.
  unfold F_pad. simpl. unfold padded_shape. simpl.
  by rewrite !Nat.add_0_r.
Qed.

(** Cutting the padded tensor back to its first [H] rows and [W]
    columns restores the tensor that was padded. *)
Lemma slice_of_pad B H W C pr pb (dat : list A) :
  length dat = numel [B; H; W; C] ->
  F_pad zero (Tensor.Build [B; H; W; C] dat) [0; 0; 0; pr; 0; pb]
    ≫= slice_hw zero H W
  = Ok (Tensor.Build [B; H; W; C] dat).
Proof.
  intros Hlen. rewrite F_pad_bottom_right.
  unfold mbind, result_bind, slice_hw. cbn [shape data].
  rewrite !Nat.min_l by lia. f_equal. f_equal.
  transitivity (map (fun k => nth k dat zero) (seq 0 (numel [B; H; W; C])));
    [|by apply map_nth_seq].
  apply map_ext_in. intros k Hk. apply in_seq in Hk.
  pose proof (unravel_in_bounds [B; H; W; C] k ltac:(lia)) as Hb.
  assert (Hb' : in_bounds [B; H + pb; W + pr; C] (unravel [B; H; W; C] k)).
  { eapply in_bounds_mono; [|exact Hb].
    repeat constructor; lia. }
  rewrite nth_map_seq by (exact (ravel_lt _ _ Hb')).
  rewrite (unravel_ravel _ _ Hb').
  rewrite pad_source_in_bounds; [|repeat constructor|done|done].
  by rewrite ravel_unravel by lia.
Qed.

End OpsFacts.

(** [H] padded up to the next multiple of [ws]. *)
Lemma pad_to_multiple H ws :
  0 < ws -> (H + (ws - H mod ws) mod ws) / ws * ws = H + (ws - H mod ws) mod ws.
Proof.
  intros Hws.
  pose proof (Nat.mod_upper_bound H ws ltac:(lia)) as Hm.
  pose proof (Nat.div_mod_eq H ws) as Hd.
  destruct (decide (H mod ws = 0)) as [Hz|Hnz].
  - rewrite Hz, Nat.sub_0_r, Nat.Div0.mod_same, Nat.add_0_r.
    replace H with (H / ws * ws) at 1 by lia.
    rewrite Nat.div_mul by lia. lia.
  - rewrite (Nat.mod_small (ws - H mod ws)) by lia.
    replace (H + (ws - H mod ws)) with ((H / ws + 1) * ws) by lia.
    by rewrite Nat.div_mul by lia.
Qed.

End TensorFacts.

(** ** The window transform of TinyViTBlock.forward *)

Module WindowFacts.
Import TensorFacts TinyViTBlock.

Lemma py_mod_ok a b : 0 < b -> py_mod a b = Ok (a mod b).
Proof. intros Hb. unfold py_mod. destruct (Nat.eqb_spec b 0); [lia|done]. Qed.

Lemma py_floordiv_ok a b : 0 < b -> py_floordiv a b = Ok (a / b).
Proof. intros Hb. unfold py_floordiv. destruct (Nat.eqb_spec b 0); [lia|done]. Qed.

Lemma bind_ok {X Y} (x : X) (k : X -> result Y) : Ok x ≫= k = k x.
Proof. reflexivity. Qed.

Section Roundtrip.
Context {A : Type}.
Variable zero : A.

(** The padded tensor survives the partition into windows and its
    inverse: view, transpose, reshape, view, transpose, reshape. *)
Lemma partition_unpartition {Y} B pH pW C nH nW ws (dat : list A)
    (k : tensor A -> result Y) :
  pH = nH * ws -> pW = nW * ws -> length dat = numel [B; pH; pW; C] ->
  (x ← view [B; nH; ws; nW; ws; C] (Tensor.Build [B; pH; pW; C] dat);
   x ← transpose zero 2 3 x;
   x ← reshape [B * nH * nW; ws * ws; C] x;
   x ← Ok x;
   x ← view [B; nH; nW; ws; ws; C] x;
   x ← transpose zero 2 3 x;
   x ← reshape [B; pH; pW; C] x;
   k x)
  = k (Tensor.Build [B; pH; pW; C] dat).
Proof.
  intros HH HW Hlen.
  rewrite view_ok by (simpl; nia). rewrite bind_ok. cbn [data].
  pose proof (transpose_transpose zero 2 3
                (Tensor.Build [B; nH; ws; nW; ws; C] dat)) as Htt.
  destruct (transpose_ok zero 2 3 (Tensor.Build [B; nH; ws; nW; ws; C] dat))
    as [daty Hy]; [simpl; lia ..|].
  change (permute_list _ _) with [B; nH; nW; ws; ws; C] in Hy.
  rewrite Hy in Htt |- *. set (y := Tensor.Build [B; nH; nW; ws; ws; C] daty) in *.
  assert (Hsy : shape y = [B; nH; nW; ws; ws; C]) by done.
  rewrite bind_ok in Htt. rewrite bind_ok.
  unfold reshape.
  rewrite view_ok by (rewrite Hsy; simpl; nia). rewrite !bind_ok.
  rewrite view_ok by (simpl; nia). rewrite bind_ok. cbn [data shape].
  change (Tensor.Build [B; nH; nW; ws; ws; C] (data y)) with y.
  rewrite Htt; [|unfold wf; simpl in *; nia|simpl; lia|simpl; lia].
  rewrite bind_ok. rewrite view_ok by (simpl; nia). by rewrite bind_ok.
Qed.

(** With a single window per image the partition moves nothing:
    exchanging a unit axis with its neighbour keeps the row-major
    order. *)
Lemma transpose_single_window B ws C (dat : list A) :
  length dat = numel [B; 1; ws; 1; ws; C] ->
  transpose zero 2 3 (Tensor.Build [B; 1; ws; 1; ws; C] dat) =
  Ok (Tensor.Build [B; 1; 1; ws; ws; C] dat).
Proof.
  intros Hlen. unfold transpose. cbn [shape data length].
  rewrite decide_True by lia.
  change (permute_list (transposition 6 2 3) [B; 1; ws; 1; ws; C])
    with [B; 1; 1; ws; ws; C].
  f_equal. f_equal.
  transitivity (map (fun k => nth k dat zero) (seq 0 (numel [B; 1; 1; ws; ws; C])));
    [|apply map_nth_seq; simpl in *; lia].
  apply map_ext_in. intros k Hk. apply in_seq in Hk. f_equal.
  pose proof (unravel_in_bounds [B; 1; 1; ws; ws; C] k ltac:(lia)) as Hb.
  rewrite <- (ravel_unravel [B; 1; 1; ws; ws; C] k) at 2 by lia.
  revert Hb. generalize (unravel [B; 1; 1; ws; ws; C] k). intros idx Hb.
  unfold in_bounds in Hb.
  repeat match goal with
         | H : Forall2 _ _ (_ :: _) |- _ => inversion H; clear H; subst
         | H : Forall2 _ _ [] |- _ => inversion H; clear H; subst
         end.
  cbn [permute_list transposition map seq nth exchange ravel numel foldr].
  repeat match goal with
         | H : ?i < 1 |- _ => assert (i = 0) by lia; subst i; clear H
         end.
  simpl. lia.
Qed.

Lemma untranspose_single_window B ws C (dat : list A) :
  length dat = numel [B; 1; ws; 1; ws; C] ->
  transpose zero 2 3 (Tensor.Build [B; 1; 1; ws; ws; C] dat) =
  Ok (Tensor.Build [B; 1; ws; 1; ws; C] dat).
Proof.
  intros Hlen.
  pose proof (transpose_transpose zero 2 3
                (Tensor.Build [B; 1; ws; 1; ws; C] dat)) as Htt.
  rewrite transpose_single_window in Htt by done.
  apply Htt; [done|simpl; lia|simpl; lia].
Qed.

End Roundtrip.

End WindowFacts.

(** C3. For every H, W, positive window size and every payload of shape
    (B, H*W, C), the general path of [TinyViTBlock.forward] (pad, window
    partition, unpartition, crop) with the attention step replaced by the
    identity returns its input unchanged, also when padding is needed. *)
Theorem partition_unpartition_identity {A : Type} (zero : A)
    (self : TinyViTBlock.t) (B H W C : nat) (x : tensor A) :
  0 < TinyViTBlock.window_size self ->
  shape x = [B; H * W; C] ->
  wf x ->
  TinyViTBlock.general_path zero (fun t => Ok t) self B H W C (H * W) x = Ok x.
Proof.
  intros Hws Hs Hwf. destruct x as [s dat]. unfold wf in Hwf. simpl in *. subst s.
  unfold TinyViTBlock.general_path.
  set (ws := TinyViTBlock.window_size self) in *.
  rewrite TensorFacts.view_ok by (simpl; lia). rewrite WindowFacts.bind_ok.
  repeat first [rewrite (WindowFacts.py_mod_ok _ _ Hws) | rewrite WindowFacts.bind_ok].
  cbn [data].
  set (pad_b := (ws - H mod ws) mod ws).
  set (pad_r := (ws - W mod ws) mod ws).
  pose proof (TensorFacts.pad_to_multiple H ws Hws) as HpH. fold pad_b in HpH.
  pose proof (TensorFacts.pad_to_multiple W ws Hws) as HpW. fold pad_r in HpW.
  destruct (negb (pad_b =? 0) || negb (pad_r =? 0)) eqn:Hpad.
  - pose proof (TensorFacts.slice_of_pad zero B H W C pad_r pad_b dat
                  ltac:(simpl in *; lia)) as Hsl.
    rewrite TensorFacts.F_pad_bottom_right in Hsl |- *.
    rewrite WindowFacts.bind_ok in Hsl |- *.
    match goal with
    | |- context [Tensor.Build [B; H + pad_b; W + pad_r; C] ?d] => set (dpad := d) in *
    end.
    assert (Hlen : length dpad = numel [B; H + pad_b; W + pad_r; C])
      by (unfold dpad; by rewrite length_map, length_seq).
    repeat first [rewrite (WindowFacts.py_floordiv_ok _ _ Hws) | rewrite WindowFacts.bind_ok].
    rewrite (WindowFacts.partition_unpartition zero B (H + pad_b) (W + pad_r) C
               ((H + pad_b) / ws) ((W + pad_r) / ws) ws dpad) by (done || lia).
    rewrite Hsl, WindowFacts.bind_ok. apply TensorFacts.view_ok. simpl. lia.
  - apply orb_false_elim in Hpad as [Hb Hr].
    apply negb_false_iff, Nat.eqb_eq in Hb, Hr.
    rewrite Hb, Hr, !Nat.add_0_r in *.
    repeat first [rewrite (WindowFacts.py_floordiv_ok _ _ Hws) | rewrite WindowFacts.bind_ok].
    rewrite (WindowFacts.partition_unpartition zero B H W C
               (H / ws) (W / ws) ws dat) by (done || simpl in *; lia).
    rewrite WindowFacts.bind_ok. apply TensorFacts.view_ok. simpl. lia.
Qed.

Lemma partition_unpartition_identity_witness :
  TinyViTBlock.general_path 0 (fun t => Ok t)
    (TinyViTBlock.demo (13, 13) 7) 1 13 13 1 (13 * 13)
    (Tensor.Build [1; 13 * 13; 1] (seq 1 169))
  = Ok (Tensor.Build [1; 13 * 13; 1] (seq 1 169)).
Proof.
  apply (partition_unpartition_identity 0 (TinyViTBlock.demo (13, 13) 7)
           1 13 13 1 (Tensor.Build [1; 13 * 13; 1] (seq 1 169))).
  - simpl. lia.
  - reflexivity.
  - reflexivity.
Defined.

(** ** The relative-offset table of Attention.__init__ *)

Module AttentionFacts.
Import Attention TensorFacts.

Lemma inner_loop_fold p1 ys : forall st,
  foldl (fun st p2 => offsets_body p1 p2 st) st ys =
  foldl offsets_step st (map (offset p1) ys).
Proof. induction ys as [|p2 ys IH]; intros st; simpl; [done|]. by rewrite IH. Qed.

Lemma outer_loop_fold ys xs : forall st,
  foldl (fun st p1 => foldl (fun st p2 => offsets_body p1 p2 st) st ys) st xs =
  foldl offsets_step st (flat_map (fun p1 => map (offset p1) ys) xs).
Proof.
  induction xs as [|p1 xs IH]; intros st; simpl; [done|].
  by rewrite foldl_app, IH, inner_loop_fold.
Qed.

Lemma build_offsets_fold points :
  build_offsets points = foldl offsets_step (∅, []) (pair_offsets points).
Proof. apply outer_loop_fold. Qed.

Lemma table_inv_nil : table_inv [] (∅, []).
Proof.
  split; simpl.
  - by rewrite dom_empty_L.
  - intros k o Hk. by rewrite lookup_nil in Hk.
  - done.
  - intros o v Hv. by rewrite lookup_empty in Hv.
Qed.

Lemma table_inv_step l st o :
  table_inv l st -> table_inv (l ++ [o]) (offsets_step st o).
Proof.
  intros [Hdom Hfirst Hidxs Hlt]. destruct st as [d idxs]. simpl in *.
  unfold offsets_step, setdefault. simpl.
  destruct (d !! o) as [v|] eqn:Hdo.
  - assert (Hin : o ∈ l).
    { apply (elem_of_list_to_set (C := gset (nat * nat))). rewrite <- Hdom.
      apply elem_of_dom. eauto. }
    split; simpl.
    + rewrite Hdom, list_to_set_app_L. simpl.
      apply (elem_of_list_to_set (C := gset (nat * nat))) in Hin.
      apply set_eq. intros x. rewrite !elem_of_union, elem_of_singleton, elem_of_empty.
      split; [auto|]. intros [?|[->|[]]]; done.
    + intros k o' Hk Hnot. apply lookup_snoc_Some in Hk as [[Hklt Hk]|[Hkeq <-]].
      * rewrite take_app_le in Hnot |- * by lia. by apply Hfirst.
      * rewrite Hkeq, take_app_length in Hnot. done.
    + rewrite map_app. simpl. by rewrite Hidxs.
    + done.
  - assert (Hnin : o ∉ l).
    { intros Hin. apply (elem_of_list_to_set (C := gset (nat * nat))) in Hin.
      rewrite <- Hdom in Hin. apply elem_of_dom in Hin as [? ?]. congruence. }
    split; simpl.
    + rewrite dom_insert_L, Hdom, list_to_set_app_L. simpl.
      by rewrite (right_id_L ∅ (∪)), (comm_L (∪)).
    + intros k o' Hk Hnot. apply lookup_snoc_Some in Hk as [[Hklt Hk]|[Hkeq <-]].
      * rewrite take_app_le in Hnot |- * by lia.
        rewrite lookup_insert_ne; [by apply Hfirst|].
        intros ->. apply Hnin. by eapply list_elem_of_lookup_2.
      * rewrite Hkeq, take_app_length. rewrite lookup_insert_eq.
        by rewrite <- Hdom, size_dom.
    + rewrite map_app. simpl.
      replace (lookup_offset (<[o:=size d]> d) o) with (size d)
        by (unfold lookup_offset; by rewrite lookup_insert_eq).
      f_equal.
      rewrite Hidxs. apply map_ext_in. intros o' Ho'. unfold lookup_offset.
      rewrite lookup_insert_ne; [done|].
      intros ->. apply Hnin. by apply list_elem_of_In.
    + intros o' v. rewrite map_size_insert_None by done.
      destruct (decide (o = o')) as [<-|Hne].
      * rewrite lookup_insert_eq. intros [= <-]. lia.
      * rewrite lookup_insert_ne by done. intros Hv. apply Hlt in Hv. lia.
Qed.

Lemma table_inv_run l : table_inv l (foldl offsets_step (∅, []) l).
Proof.
  induction l as [|o l IH] using rev_ind.
  - apply table_inv_nil.
  - rewrite foldl_app. simpl. by apply table_inv_step.
Qed.

Lemma build_offsets_inv points :
  table_inv (pair_offsets points) (build_offsets points).
Proof. rewrite build_offsets_fold. apply table_inv_run. Qed.

(** Two offsets share a bucket only if they are equal. *)
Lemma first_occurrence (l : list (nat * nat)) q :
  q ∈ l -> exists k, l !! k = Some q /\ q ∉ take k l.
Proof.
  induction l as [|y ys IH]; intros Hq.
  - by apply elem_of_nil in Hq.
  - destruct (decide (q = y)) as [->|Hqy].
    + exists 0. split; [done|]. simpl. apply not_elem_of_nil.
    + apply elem_of_cons in Hq as [?|Hq]; [done|].
      destruct (IH Hq) as (k & Hk & Hnk). exists (S k). split; [done|].
      simpl. by rewrite not_elem_of_cons.
Qed.

Lemma size_seen_lt (l : list (nat * nat)) k1 k2 q :
  k1 < k2 -> l !! k1 = Some q -> q ∉ take k1 l ->
  size (list_to_set (take k1 l) : gset (nat * nat)) <
  size (list_to_set (take k2 l) : gset (nat * nat)).
Proof.
  intros Hlt Hq Hn. apply subset_size. split.
  - intros z. rewrite !elem_of_list_to_set. intros Hz.
    apply elem_of_take in Hz as (i & Hi & Hik). apply elem_of_take.
    exists i. split; [done|lia].
  - intros Hsub. apply Hn.
    apply (elem_of_list_to_set (C := gset (nat * nat))). apply Hsub.
    apply elem_of_list_to_set, elem_of_take. eauto.
Qed.

Lemma table_inv_inj l st o o' v :
  table_inv l st -> st.1 !! o = Some v -> st.1 !! o' = Some v -> o = o'.
Proof.
  intros [Hdom Hfirst _ _] Ho Ho'.
  assert (Hex : forall q, is_Some (st.1 !! q) ->
            exists k, l !! k = Some q /\ q ∉ take k l).
  { intros q Hq. apply first_occurrence.
    apply (elem_of_list_to_set (C := gset (nat * nat))). rewrite <- Hdom.
    by apply elem_of_dom. }
  destruct (Hex o ltac:(eauto)) as (k & Hk & Hnk).
  destruct (Hex o' ltac:(eauto)) as (k' & Hk' & Hnk').
  pose proof (Hfirst _ _ Hk Hnk) as Hv. pose proof (Hfirst _ _ Hk' Hnk') as Hv'.
  rewrite Ho in Hv. rewrite Ho' in Hv'. injection Hv as Hv. injection Hv' as Hv'.
  destruct (Nat.lt_total k k') as [Hlt|[Heq|Hgt]].
  - pose proof (size_seen_lt l k k' o Hlt Hk Hnk). lia.
  - subst k'. congruence.
  - pose proof (size_seen_lt l k' k o' Hgt Hk' Hnk'). lia.
Qed.

(** *** The points of the grid and their pairwise offsets *)

Lemma in_product {X Y} (xs : list X) (ys : list Y) x y :
  In (x, y) (product xs ys) <-> In x xs /\ In y ys.
Proof.
  unfold product. rewrite in_flat_map. setoid_rewrite in_map_iff. split.
  - intros (x' & Hx' & y' & [= -> ->] & Hy'). done.
  - intros [Hx Hy]. eauto.
Qed.

Lemma length_product {X Y} (xs : list X) (ys : list Y) :
  length (product xs ys) = length xs * length ys.
Proof.
  unfold product. induction xs as [|x xs IH]; simpl; [done|].
  by rewrite length_app, length_map, IH.
Qed.

Lemma NoDup_product {X Y} (xs : list X) (ys : list Y) :
  NoDup xs -> NoDup ys -> NoDup (product xs ys).
Proof.
  intros Hxs Hys. unfold product. induction Hxs as [|x xs Hx Hxs IH]; simpl.
  - constructor.
  - apply NoDup_app. split; [|split; [|done]].
    + apply NoDup_ListNoDup, List.NoDup_map_inv with (f := snd).
      rewrite map_map. simpl. rewrite map_id. by apply NoDup_ListNoDup.
    + intros [x' y'] Hin Hin'. apply list_elem_of_In in Hin, Hin'.
      apply in_map_iff in Hin as (y'' & [= <- <-] & _).
      apply (in_product xs ys) in Hin' as [Hin' _].
      apply Hx. by apply list_elem_of_In.
Qed.

Lemma nth_flat_map_rows {X Y} (f : X -> list Y) m xs dx dy : forall i j,
  (forall x, In x xs -> length (f x) = m) -> i < length xs -> j < m ->
  nth (i * m + j) (flat_map f xs) dy = nth j (f (nth i xs dx)) dy.
Proof.
  induction xs as [|x xs IH]; intros i j Hlen Hi Hj; simpl in *; [lia|].
  destruct i as [|i]; simpl.
  - apply app_nth1. rewrite Hlen; auto.
  - rewrite <- (Hlen x) at 1 by auto. rewrite <- Nat.add_assoc, app_nth2_plus.
    apply IH; auto. lia.
Qed.

Lemma length_flat_map_rows {X Y} (f : X -> list Y) m xs :
  (forall x, In x xs -> length (f x) = m) ->
  length (flat_map f xs) = length xs * m.
Proof.
  induction xs as [|x xs IH]; intros Hlen; simpl in *; [done|].
  rewrite length_app, Hlen, IH; auto.
Qed.

Lemma length_pair_offsets points :
  length (pair_offsets points) = length points * length points.
Proof.
  unfold pair_offsets. apply length_flat_map_rows.
  intros x _. by rewrite length_map.
Qed.

Lemma nth_pair_offsets points i j d d' :
  i < length points -> j < length points ->
  nth (i * length points + j) (pair_offsets points) d' =
  offset (nth i points d) (nth j points d).
Proof.
  intros Hi Hj. unfold pair_offsets.
  rewrite (nth_flat_map_rows _ (length points) _ d) by
    (try (intros; by rewrite length_map); lia).
  rewrite (nth_indep _ d' (offset (nth i points d) d)) by (by rewrite length_map).
  apply (map_nth (offset (nth i points d))).
Qed.

Lemma abs_diff_comm a b : abs_diff a b = abs_diff b a.
Proof. unfold abs_diff. lia. Qed.

Lemma abs_diff_diag a : abs_diff a a = 0.
Proof. unfold abs_diff. lia. Qed.

Lemma abs_diff_0_l a : abs_diff 0 a = a.
Proof. unfold abs_diff. lia. Qed.

Lemma abs_diff_lt a b n : a < n -> b < n -> abs_diff a b < n.
Proof. unfold abs_diff. lia. Qed.

Lemma offset_comm p1 p2 : offset p1 p2 = offset p2 p1.
Proof. unfold offset. by rewrite (abs_diff_comm p1.1), (abs_diff_comm p1.2). Qed.

Lemma offset_diag p : offset p p = (0, 0).
Proof. unfold offset. by rewrite !abs_diff_diag. Qed.

(** The offsets that occur in an [r0] by [r1] grid are exactly the
    pairs below [(r0, r1)]: there are [r0 * r1] of them. *)
Lemma achievable_offsets_grid r0 r1 :
  achievable_offsets r0 r1 = list_to_set (product (range r0) (range r1)).
Proof.
  unfold achievable_offsets, pair_offsets, range. apply set_eq. intros [a b].
  rewrite !elem_of_list_to_set, !list_elem_of_In.
  rewrite in_flat_map, in_product, !in_seq. setoid_rewrite in_map_iff. split.
  - intros ([x1 y1] & H1 & [x2 y2] & Ho & H2).
    apply in_product in H1 as [Hx1 Hy1]. apply in_product in H2 as [Hx2 Hy2].
    apply in_seq in Hx1, Hy1, Hx2, Hy2.
    unfold offset in Ho. simpl in Ho. injection Ho as <- <-.
    split; (split; [lia|apply abs_diff_lt; lia]).
  - intros [Ha Hb]. exists (0, 0). split.
    + apply in_product. rewrite !in_seq. lia.
    + exists (a, b). split.
      * unfold offset. simpl. by rewrite !abs_diff_0_l.
      * apply in_product. rewrite !in_seq. lia.
Qed.

Lemma size_achievable_offsets r0 r1 : size (achievable_offsets r0 r1) = r0 * r1.
Proof.
  rewrite achievable_offsets_grid, size_list_to_set.
  - unfold range. by rewrite length_product, !length_seq.
  - apply NoDup_product; apply NoDup_seq.
Qed.

Lemma size_build_offsets r0 r1 :
  size (build_offsets (product (range r0) (range r1))).1 = r0 * r1.
Proof.
  rewrite <- size_dom, (inv_dom _ _ (build_offsets_inv _)).
  apply size_achievable_offsets.
Qed.

Lemma length_build_offsets_idxs points :
  length (build_offsets points).2 = length points * length points.
Proof.
  rewrite (inv_idxs _ _ (build_offsets_inv points)), length_map.
  apply length_pair_offsets.
Qed.

Lemma nth_build_offsets_idxs points i j d :
  i < length points -> j < length points ->
  nth (i * length points + j) (build_offsets points).2 0 =
  lookup_offset (build_offsets points).1 (offset (nth i points d) (nth j points d)).
Proof.
  intros Hi Hj. rewrite (inv_idxs _ _ (build_offsets_inv points)).
  rewrite (nth_indep _ 0 (lookup_offset (build_offsets points).1 (0, 0)))
    by (rewrite length_map, length_pair_offsets; nia).
  rewrite (map_nth (lookup_offset (build_offsets points).1)).
  by rewrite (nth_pair_offsets points i j d).
Qed.

Lemma lookup_origin points :
  points <> [] -> (build_offsets points).1 !! (0, 0) = Some 0.
Proof.
  intros Hne. destruct points as [|p0 ps]; [done|].
  pose proof (inv_first _ _ (build_offsets_inv (p0 :: ps)) 0 (0, 0)) as Hf.
  simpl in Hf. rewrite offset_diag in Hf.
  rewrite Hf; [done|done|apply not_elem_of_nil].
Qed.

Lemma build_offsets_idxs_lt points :
  Forall (fun v => v < size (build_offsets points).1) (build_offsets points).2.
Proof.
  pose proof (build_offsets_inv points) as [Hdom _ Hidxs Hlt].
  rewrite Hidxs. apply List.Forall_forall. intros v Hv.
  apply in_map_iff in Hv as (o & <- & Ho).
  assert (Hin : o ∈ dom (build_offsets points).1).
  { rewrite Hdom. apply elem_of_list_to_set. by apply list_elem_of_In. }
  apply elem_of_dom in Hin as [v Hv]. unfold lookup_offset. rewrite Hv. simpl.
  by eapply Hlt.
Qed.

(** The grid points in row-major order. *)
Lemma nth_product_range r0 r1 a b :
  a < r0 -> b < r1 ->
  nth (a * r1 + b) (product (range r0) (range r1)) (0, 0) = (a, b).
Proof.
  intros Ha Hb. unfold product, range.
  rewrite (nth_flat_map_rows _ r1 _ 0);
    [|intros; by rewrite length_map, length_seq|by rewrite length_seq|done].
  rewrite seq_nth by done. cbn beta.
  rewrite (nth_indep _ (0, 0) ((fun y => (0 + a, y)) 0))
    by (by rewrite length_map, length_seq).
  rewrite (map_nth (fun y => (0 + a, y))). by rewrite seq_nth.
Qed.

Lemma nth_product_range_flat r0 r1 i :
  i < r0 * r1 ->
  nth i (product (range r0) (range r1)) (0, 0) = (i / r1, i mod r1).
Proof.
  intros Hi. assert (r1 <> 0) by lia.
  rewrite (Nat.div_mod_eq i r1) at 1. rewrite (Nat.mul_comm r1).
  apply nth_product_range.
  - apply Nat.Div0.div_lt_upper_bound. lia.
  - by apply Nat.mod_upper_bound.
Qed.

(** The cells, the offset and the list of offsets in the words of the
    specification are those of the two loops of lines 197-205. *)
Lemma spec_cells_product w : spec_cells w = product (range w) (range w).
Proof.
  apply (nth_ext _ _ (0, 0) (0, 0)).
  - unfold spec_cells, range. by rewrite length_map, length_product, !length_seq.
  - unfold spec_cells. rewrite length_map, length_seq. intros k Hk.
    rewrite nth_product_range_flat by done.
    rewrite (nth_indep _ (0, 0) ((fun k => (k / w, k mod w)) 0))
      by (by rewrite length_map, length_seq).
    rewrite (map_nth (fun k => (k / w, k mod w))). by rewrite seq_nth.
Qed.

Lemma spec_offset_offset p1 p2 : spec_offset p1 p2 = offset p1 p2.
Proof.
  unfold spec_offset, offset, abs_diff. f_equal; lia.
Qed.

Lemma spec_pair_offsets_loop w :
  spec_pair_offsets w = pair_offsets (product (range w) (range w)).
Proof.
  unfold spec_pair_offsets, pair_offsets. rewrite spec_cells_product.
  apply flat_map_ext. intros p1. apply map_ext. intros p2.
  apply spec_offset_offset.
Qed.

Lemma size_spec_pair_offsets w :
  size (list_to_set (spec_pair_offsets w) : gset (nat * nat)) = w * w.
Proof.
  rewrite spec_pair_offsets_loop. apply (size_achievable_offsets w w).
Qed.

(** The bucket of an offset that occurs is the number of distinct
    offsets met before its first occurrence. *)
Lemma lookup_first_seen l st o :
  table_inv l st -> o ∈ l -> lookup_offset st.1 o = spec_first_seen l o.
Proof.
  intros [_ Hfirst _ _] Hin. unfold spec_first_seen, lookup_offset.
  destruct (list_find_elem_of (fun o' => o' = o) l o Hin eq_refl) as [[k o'] Hk].
  rewrite Hk. apply list_find_Some in Hk as (Hk & -> & Hmin).
  rewrite (Hfirst k o Hk); [done|].
  intros Htake. apply elem_of_take in Htake as (j & Hj & Hjk).
  by apply (Hmin j o).
Qed.

Lemma build_offsets_first_seen points :
  (build_offsets points).2 =
  map (spec_first_seen (pair_offsets points)) (pair_offsets points).
Proof.
  pose proof (build_offsets_inv points) as Hinv.
  rewrite (inv_idxs _ _ Hinv). apply map_ext_in. intros o Ho.
  apply (lookup_first_seen _ _ _ Hinv). by apply list_elem_of_In.
Qed.

Section Init.
Context {R : Type}.
Variable zero : R.

(** With a 2-tuple resolution and a non-zero [key_dim] the constructor
    succeeds. *)
Lemma init_ok dim kd nh ar r0 r1 :
  1 <= kd ->
  let points := product (range r0) (range r1) in
  __init__ zero dim kd nh ar [r0; r1] =
  Ok (Build_Attention nh kd (kd * nh) (ar * kd) (ar * kd * nh) ar
        (Tensor.Build [nh; size (build_offsets points).1]
           (replicate (nh * size (build_offsets points).1) zero))
        (Tensor.Build [r0 * r1; r0 * r1] (build_offsets points).2)
        true None).
Proof.
  intros Hkd points. unfold __init__, scale_check.
  destruct (Nat.eqb_spec kd 0) as [?|_]; [lia|].
  simpl. fold points.
  pose proof (length_build_offsets_idxs points) as Hlen.
  destruct (build_offsets points) as [d idxs] eqn:Hbo. simpl in *.
  assert (HN : length points = r0 * r1)
    by (unfold points, range; by rewrite length_product, !length_seq).
  rewrite HN in *.
  rewrite view_ok by (simpl; lia). done.
Qed.

(** Line 184 fires on a resolution that is not a pair, before anything
    else; on a pair, line 186 raises when [key_dim] is 0. *)
Lemma init_not_pair dim kd nh ar resolution :
  length resolution <> 2 ->
  __init__ zero dim kd nh ar resolution = Raise (AssertionError 184).
Proof.
  intros Hlen. unfold __init__. by rewrite bool_decide_eq_false_2.
Qed.

Lemma init_zero_key_dim dim nh ar resolution :
  length resolution = 2 ->
  __init__ zero dim 0 nh ar resolution = Raise ZeroDivisionError.
Proof.
  intros Hlen. unfold __init__. by rewrite bool_decide_eq_true_2.
Qed.

End Init.

End AttentionFacts.

(** C4. For every window size w (and a non-zero [key_dim], which line
    186 needs), [Attention.__init__] with resolution (w, w) returns a
    table with as many buckets as there are distinct (|dRow|, |dCol|)
    pairs between two cells of a w-by-w grid, that is w*w (49 for
    w = 7). The offsets are those of the specification: the cells in
    row-major order, all ordered pairs of them, the absolute differences
    of rows and of columns. The index of the k-th pair is the number of
    distinct offsets met before the offset of the pair is first seen, so
    that two pairs share a bucket exactly when their offsets are equal;
    and the table is a function of w alone: a construction with the same
    w and any other widths returns the same index buffer and the same
    number of buckets. *)
Theorem offset_table_first_seen {R : Type} (zero : R) (dim kd nh ar w : nat) :
  1 <= kd ->
  let offs := Attention.spec_pair_offsets w in
  let buckets : gset (nat * nat) := list_to_set offs in
  exists a,
    Attention.__init__ zero dim kd nh ar [w; w] = Ok a /\
    shape (Attention.attention_biases a) = [nh; size buckets] /\
    size buckets = w * w /\
    shape (Attention.attention_bias_idxs a) = [w * w; w * w] /\
    length offs = w * w * (w * w) /\
    data (Attention.attention_bias_idxs a) =
      map (Attention.spec_first_seen offs) offs /\
    (forall k k' o o', offs !! k = Some o -> offs !! k' = Some o' ->
       (data (Attention.attention_bias_idxs a) !! k =
        data (Attention.attention_bias_idxs a) !! k' <-> o = o')) /\
    (forall k o, offs !! k = Some o -> o ∉ take k offs ->
       data (Attention.attention_bias_idxs a) !! k =
       Some (size (list_to_set (take k offs) : gset (nat * nat)))) /\
    (forall dim' kd' nh' ar' a',
       Attention.__init__ zero dim' kd' nh' ar' [w; w] = Ok a' ->
       Attention.attention_bias_idxs a' = Attention.attention_bias_idxs a /\
       shape (Attention.attention_biases a') = [nh'; w * w]).
Proof.
  intros Hkd offs buckets. eexists. split; [by apply AttentionFacts.init_ok|].
  set (points := product (range w) (range w)) in *.
  assert (Hoffs : offs = Attention.pair_offsets points)
    by apply AttentionFacts.spec_pair_offsets_loop.
  assert (Hsize : size buckets = w * w)
    by apply AttentionFacts.size_spec_pair_offsets.
  pose proof (AttentionFacts.build_offsets_inv points) as Hinv.
  pose proof Hinv as [Hdom Hfirst Hidxs Hlt].
  rewrite <- Hoffs in Hdom, Hfirst, Hidxs.
  assert (Hlook : forall k o, offs !! k = Some o ->
            exists v, (Attention.build_offsets points).1 !! o = Some v /\
                      (Attention.build_offsets points).2 !! k = Some v).
  { intros k o Hk.
    assert (Hin : o ∈ dom (Attention.build_offsets points).1).
    { rewrite Hdom. apply elem_of_list_to_set. by eapply list_elem_of_lookup_2. }
    apply elem_of_dom in Hin as [v Hv]. exists v. split; [done|].
    rewrite Hidxs. change (map ?f ?l) with (f <$> l).
    rewrite list_lookup_fmap, Hk. simpl.
    unfold Attention.lookup_offset. by rewrite Hv. }
  assert (Hbuckets : size (Attention.build_offsets points).1 = size buckets).
  { unfold buckets. by rewrite <- size_dom, Hdom. }
  cbn [Attention.attention_biases Attention.attention_bias_idxs shape data].
  split; [|split; [|split; [|split; [|split; [|split; [|split]]]]]].
  - by rewrite Hbuckets.
  - done.
  - done.
  - pose proof (AttentionFacts.length_build_offsets_idxs points) as Hlen.
    rewrite Hidxs, length_map in Hlen. rewrite Hlen. unfold points, range.
    by rewrite AttentionFacts.length_product, !length_seq.
  - rewrite Hoffs. apply AttentionFacts.build_offsets_first_seen.
  - intros k k' o o' Hk Hk'.
    destruct (Hlook _ _ Hk) as (v & Hv & Hkv).
    destruct (Hlook _ _ Hk') as (v' & Hv' & Hkv'). split.
    + rewrite Hkv, Hkv'. intros [= ->].
      by eapply AttentionFacts.table_inv_inj.
    + intros ->. congruence.
  - intros k o Hk Hnot. destruct (Hlook _ _ Hk) as (v & Hv & Hkv).
    rewrite Hkv, <- Hv. by apply Hfirst.
  - intros dim' kd' nh' ar' a' Ha'. destruct kd' as [|kd'].
    + by rewrite AttentionFacts.init_zero_key_dim in Ha'.
    + rewrite AttentionFacts.init_ok in Ha' by lia. injection Ha' as <-.
      cbn [Attention.attention_biases Attention.attention_bias_idxs shape].
      fold points. split; [done|]. by rewrite Hbuckets, Hsize.
Qed.

Lemma offset_table_first_seen_witness :
  1 <= 32 /\
  let offs := Attention.spec_pair_offsets 7 in
  let buckets : gset (nat * nat) := list_to_set offs in
  exists a,
    Attention.__init__ 0%Z 64 32 2 1 [7; 7] = Ok a /\
    shape (Attention.attention_biases a) = [2; size buckets] /\
    size buckets = 7 * 7 /\
    shape (Attention.attention_bias_idxs a) = [7 * 7; 7 * 7] /\
    length offs = 7 * 7 * (7 * 7) /\
    data (Attention.attention_bias_idxs a) =
      map (Attention.spec_first_seen offs) offs /\
    (forall k k' o o', offs !! k = Some o -> offs !! k' = Some o' ->
       (data (Attention.attention_bias_idxs a) !! k =
        data (Attention.attention_bias_idxs a) !! k' <-> o = o')) /\
    (forall k o, offs !! k = Some o -> o ∉ take k offs ->
       data (Attention.attention_bias_idxs a) !! k =
       Some (size (list_to_set (take k offs) : gset (nat * nat)))) /\
    (forall dim' kd' nh' ar' a',
       Attention.__init__ 0%Z dim' kd' nh' ar' [7; 7] = Ok a' ->
       Attention.attention_bias_idxs a' = Attention.attention_bias_idxs a /\
       shape (Attention.attention_biases a') = [nh'; 7 * 7]).
Proof.
  split; [lia|]. apply (offset_table_first_seen 0%Z 64 32 2 1 7). lia.
Defined.

(** C10. For every window size w (and a non-zero [key_dim], without
    which line 186 raises and there is no buffer) the N x N index buffer
    (N = w*w) built by [Attention.__init__] is symmetric and its
    diagonal is bucket 0; hence, for any values of the bias parameter,
    the expanded per-head bias matrix is symmetric with a constant
    diagonal. *)
Theorem bias_index_symmetric {R : Type} (zero : R) (dim kd nh ar w : nat) :
  1 <= kd ->
  exists a,
    Attention.__init__ zero dim kd nh ar [w; w] = Ok a /\
    let N := w * w in
    let idxs := Attention.attention_bias_idxs a in
    shape idxs = [N; N] /\
    (forall i j, i < N -> j < N -> item 0 idxs [i; j] = item 0 idxs [j; i]) /\
    (forall i, i < N -> item 0 idxs [i; i] = 0) /\
    (forall biases : tensor R,
       shape biases = shape (Attention.attention_biases a) -> wf biases ->
       exists m,
         Attention.index_columns zero biases idxs = Ok m /\
         shape m = [nh; N; N] /\
         forall h i j, h < nh -> i < N -> j < N ->
           item zero m [h; i; j] = item zero m [h; j; i] /\
           item zero m [h; i; i] = item zero biases [h; 0]).
Proof.
  intros Hkd. eexists. split; [by apply AttentionFacts.init_ok|].
  set (points := product (range w) (range w)) in *.
  assert (HN : length points = w * w).
  { unfold points, range. by rewrite AttentionFacts.length_product, !length_seq. }
  cbn [Attention.attention_biases Attention.attention_bias_idxs shape data].
  set (idata := (Attention.build_offsets points).2).
  assert (Hnth : forall i j, i < w * w -> j < w * w ->
            nth (i * (w * w) + j) idata 0 =
            Attention.lookup_offset (Attention.build_offsets points).1
              (Attention.offset (nth i points (0, 0)) (nth j points (0, 0)))).
  { intros i j Hi Hj. rewrite <- HN at 1.
    apply AttentionFacts.nth_build_offsets_idxs; lia. }
  assert (Hsym : forall i j, i < w * w -> j < w * w ->
            nth (i * (w * w) + j) idata 0 = nth (j * (w * w) + i) idata 0).
  { intros i j Hi Hj. rewrite !Hnth by done.
    by rewrite AttentionFacts.offset_comm. }
  assert (Hdiag : forall i, i < w * w -> nth (i * (w * w) + i) idata 0 = 0).
  { intros i Hi. rewrite Hnth by done. rewrite AttentionFacts.offset_diag.
    unfold Attention.lookup_offset. rewrite AttentionFacts.lookup_origin; [done|].
    intros Hnil. rewrite Hnil in HN. simpl in HN. lia. }
  assert (Hitem : forall i j, item 0 (Tensor.Build [w * w; w * w] idata) [i; j] =
                              nth (i * (w * w) + j) idata 0).
  { intros i j. unfold item. simpl. f_equal. lia. }
  split; [done|]. split; [|split].
  - intros i j Hi Hj. rewrite !Hitem. by apply Hsym.
  - intros i Hi. rewrite Hitem. by apply Hdiag.
  - intros [bs bdata] Hbs Hwf. simpl in Hbs. subst bs.
    unfold wf in Hwf. simpl in Hwf.
    set (n := size (Attention.build_offsets points).1) in *.
    unfold Attention.index_columns. cbn [shape data].
    assert (Hall : forallb (fun k => k <? n) idata = true).
    { apply forallb_forall. intros v Hv. apply Nat.ltb_lt.
      pose proof (AttentionFacts.build_offsets_idxs_lt points) as Hlt.
      rewrite List.Forall_forall in Hlt. by apply Hlt. }
    rewrite Hall. eexists. split; [done|]. split; [done|].
    intros h i j Hh Hi Hj.
    assert (Hlen : length idata = w * w * (w * w)).
    { unfold idata. rewrite AttentionFacts.length_build_offsets_idxs. by rewrite HN. }
    assert (Hm : forall i j, i < w * w -> j < w * w ->
              item zero
                (Tensor.Build [nh; w * w; w * w]
                   (flat_map (fun hh => map (fun k => nth (hh * n + k) bdata zero) idata)
                             (seq 0 nh))) [h; i; j]
              = nth (h * n + nth (i * (w * w) + j) idata 0) bdata zero).
    { intros i' j' Hi' Hj'. unfold item. cbn [shape data ravel numel foldr].
      replace (h * (w * w * (w * w * 1)) + (i' * (w * w * 1) + (j' * 1 + 0)))
        with (h * (w * w * (w * w)) + (i' * (w * w) + j')) by lia.
      rewrite (AttentionFacts.nth_flat_map_rows _ (w * w * (w * w)) _ 0);
        [|intros; by rewrite length_map|by rewrite length_seq|nia].
      rewrite seq_nth by done. simpl.
      rewrite (nth_indep _ zero ((fun k => nth (h * n + k) bdata zero) 0))
        by (rewrite length_map; nia).
      by rewrite (map_nth (fun k => nth (h * n + k) bdata zero)). }
    rewrite !Hm by done. split.
    + by rewrite Hsym.
    + rewrite Hdiag by done. unfold item. simpl. f_equal. lia.
Qed.

Lemma bias_index_symmetric_witness :
  1 <= 32 /\
  exists a,
    Attention.__init__ 0%Z 64 32 2 1 [7; 7] = Ok a /\
    let N := 7 * 7 in
    let idxs := Attention.attention_bias_idxs a in
    shape idxs = [N; N] /\
    (forall i j, i < N -> j < N -> item 0 idxs [i; j] = item 0 idxs [j; i]) /\
    (forall i, i < N -> item 0 idxs [i; i] = 0) /\
    (forall biases : tensor Z,
       shape biases = shape (Attention.attention_biases a) -> wf biases ->
       exists m,
         Attention.index_columns 0%Z biases idxs = Ok m /\
         shape m = [2; N; N] /\
         forall h i j, h < 2 -> i < N -> j < N ->
           item 0%Z m [h; i; j] = item 0%Z m [h; j; i] /\
           item 0%Z m [h; i; i] = item 0%Z biases [h; 0]).
Proof.
  split; [lia|]. apply (bias_index_symmetric 0%Z 64 32 2 1 7). lia.
Defined.

(** ** The bias cache of Attention.train *)

Module CacheFacts.
Import Attention.

Section Cache.
Context {R : Type}.
Variable zero : R.





End Cache.

End CacheFacts.




(** C6. When H and W both equal the (positive) window size, the general
    pad / partition / attend / unpartition / crop path, forced to run,
    returns exactly what the fast path returns (attention applied to the
    flat token grid), for any attention function that keeps the shape of
    its input. *)
Theorem fast_path_equals_general_path {A : Type} (zero : A)
    (attn : tensor A -> result (tensor A))
    (self : TinyViTBlock.t) (B C : nat) (x : tensor A) :
  let ws := TinyViTBlock.window_size self in
  0 < ws ->
  shape x = [B; ws * ws; C] ->
  wf x ->
  (forall t y, wf t -> attn t = Ok y -> shape y = shape t /\ wf y) ->
  TinyViTBlock.window_transform zero attn self B ws ws C (ws * ws) x = attn x /\
  TinyViTBlock.general_path zero attn self B ws ws C (ws * ws) x = attn x.
Proof.
  intros ws Hws Hs Hwf Hattn. split.
  - unfold TinyViTBlock.window_transform. fold ws. by rewrite Nat.eqb_refl.
  - destruct x as [s dat]. unfold wf in Hwf. simpl in *. subst s.
    unfold TinyViTBlock.general_path. fold ws.
    rewrite TensorFacts.view_ok by (simpl; lia). rewrite WindowFacts.bind_ok.
    repeat first [rewrite (WindowFacts.py_mod_ok _ _ Hws) | rewrite WindowFacts.bind_ok].
    assert (Hpad : (ws - ws mod ws) mod ws = 0).
    { by rewrite Nat.Div0.mod_same, Nat.sub_0_r, Nat.Div0.mod_same. }
    rewrite Hpad. cbn [Nat.eqb negb orb data]. rewrite WindowFacts.bind_ok.
    rewrite !Nat.add_0_r.
    repeat first [rewrite (WindowFacts.py_floordiv_ok _ _ Hws) | rewrite WindowFacts.bind_ok].
    rewrite Nat.div_same by lia.
    rewrite TensorFacts.view_ok by (simpl; lia). rewrite WindowFacts.bind_ok.
    cbn [data].
    rewrite WindowFacts.transpose_single_window by (simpl in *; lia).
    rewrite WindowFacts.bind_ok. unfold reshape.
    rewrite TensorFacts.view_ok by (simpl; lia). rewrite WindowFacts.bind_ok.
    cbn [data]. rewrite !Nat.mul_1_r.
    specialize (Hattn (Tensor.Build [B; ws * ws; C] dat)).
    destruct (attn (Tensor.Build [B; ws * ws; C] dat)) as [[sy daty]|e]; [|done].
    destruct (Hattn _ ltac:(done) eq_refl) as [Hsy Hwfy].
    unfold wf in Hwfy. simpl in Hsy, Hwfy. subst sy.
    rewrite WindowFacts.bind_ok.
    rewrite TensorFacts.view_ok by (simpl; lia). rewrite WindowFacts.bind_ok.
    cbn [data].
    rewrite WindowFacts.untranspose_single_window by (simpl in *; lia).
    rewrite WindowFacts.bind_ok.
    rewrite TensorFacts.view_ok by (simpl; lia). rewrite WindowFacts.bind_ok.
    cbn [data]. apply TensorFacts.view_ok. simpl. lia.
Qed.

Lemma fast_path_equals_general_path_witness :
  TinyViTBlock.window_transform 0 TinyViTBlock.demo_attn (TinyViTBlock.demo (2, 2) 2)
    1 2 2 1 (2 * 2) (Tensor.Build [1; 2 * 2; 1] [1; 2; 3; 4])
  = TinyViTBlock.demo_attn (Tensor.Build [1; 2 * 2; 1] [1; 2; 3; 4]) /\
  TinyViTBlock.general_path 0 TinyViTBlock.demo_attn (TinyViTBlock.demo (2, 2) 2)
    1 2 2 1 (2 * 2) (Tensor.Build [1; 2 * 2; 1] [1; 2; 3; 4])
  = TinyViTBlock.demo_attn (Tensor.Build [1; 2 * 2; 1] [1; 2; 3; 4]).
Proof.
  apply (fast_path_equals_general_path 0 TinyViTBlock.demo_attn
           (TinyViTBlock.demo (2, 2) 2) 1 1 (Tensor.Build [1; 2 * 2; 1] [1; 2; 3; 4])).
  - simpl. lia.
  - reflexivity.
  - reflexivity.
  - intros t y Hwf [= <-]. split; [reflexivity|].
    unfold wf in *. simpl. by rewrite length_map.
Defined.

(** C9. [Attention.__init__] raises the assertion error of line 184 for
    every resolution that is not a 2-tuple; for a 2-tuple that assertion
    does not fire: the constructor returns when [key_dim] is not 0, and
    raises the [ZeroDivisionError] of line 186 when it is;
    [TinyViTBlock.forward] raises the assertion error of line 258 for
    every (B, L, C) input whose L differs from H*W of the block's
    resolution, and when L = H*W it goes on to the window transform and
    the rest of the block. *)
Theorem shape_preconditions {R A : Type} (zero : R) (zeroA : A)
    (attn : tensor A -> result (tensor A))
    (tail : tensor A -> tensor A -> result (tensor A)) :
  (forall dim kd nh ar resolution, length resolution <> 2 ->
     Attention.__init__ zero dim kd nh ar resolution = Raise (AssertionError 184)) /\
  (forall dim kd nh ar resolution, length resolution = 2 ->
     Attention.__init__ zero dim kd nh ar resolution <> Raise (AssertionError 184) /\
     (kd <> 0 -> exists a, Attention.__init__ zero dim kd nh ar resolution = Ok a) /\
     (kd = 0 ->
      Attention.__init__ zero dim kd nh ar resolution = Raise ZeroDivisionError)) /\
  (forall self x B L C, shape x = [B; L; C] ->
     L <> (TinyViTBlock.input_resolution self).1 * (TinyViTBlock.input_resolution self).2 ->
     TinyViTBlock.forward zeroA attn tail self x = Raise (AssertionError 258)) /\
  (forall self x B L C, shape x = [B; L; C] ->
     L = (TinyViTBlock.input_resolution self).1 * (TinyViTBlock.input_resolution self).2 ->
     TinyViTBlock.forward zeroA attn tail self x =
     TinyViTBlock.window_transform zeroA attn self B
       (TinyViTBlock.input_resolution self).1 (TinyViTBlock.input_resolution self).2
       C L x ≫= tail x).
Proof.
  split; [|split; [|split]].
  - intros dim kd nh ar resolution Hlen. by apply AttentionFacts.init_not_pair.
  - intros dim kd nh ar resolution Hlen.
    assert (Hok : kd <> 0 ->
              exists a, Attention.__init__ zero dim kd nh ar resolution = Ok a).
    { intros Hkd. destruct resolution as [|r0 [|r1 [|? ?]]]; try done.
      eexists. apply AttentionFacts.init_ok. lia. }
    assert (Hzero : kd = 0 ->
              Attention.__init__ zero dim kd nh ar resolution = Raise ZeroDivisionError).
    { intros ->. by apply AttentionFacts.init_zero_key_dim. }
    split; [|done]. destruct kd as [|kd].
    + by rewrite Hzero.
    + destruct Hok as [a ->]; done.
  - intros self x B L C Hs HL. unfold TinyViTBlock.forward. rewrite Hs.
    destruct (TinyViTBlock.input_resolution self) as [H W]. simpl in *.
    by destruct (Nat.eqb_spec L (H * W)).
  - intros self x B L C Hs HL. unfold TinyViTBlock.forward. rewrite Hs.
    destruct (TinyViTBlock.input_resolution self) as [H W]. simpl in *.
    by destruct (Nat.eqb_spec L (H * W)).
Qed.

(** ** Stage assembly: TinyViT.__init__ *)

Module BuildFacts.
Import TinyViT.

Lemma mapM_Ok_lookup {X Y} (f : X -> result Y) (l : list X) : forall ks,
  mapM f l = Ok ks ->
  forall i k, ks !! i = Some k -> exists x, l !! i = Some x /\ f x = Ok k.
Proof.
  induction l as [|x l IH]; intros ks Hm i k Hk; simpl in Hm.
  - injection Hm as <-. by rewrite lookup_nil in Hk.
  - destruct (f x) as [y|e] eqn:Hfx; [|done]. simpl in Hm.
    destruct (mapM f l) as [ks'|e] eqn:Hl; [|done]. simpl in Hm.
    injection Hm as <-. destruct i as [|i]; simpl in *.
    + injection Hk as <-. eauto.
    + by apply (IH ks').
Qed.

Lemma mapM_Ok_length {X Y} (f : X -> result Y) (l : list X) : forall ks,
  mapM f l = Ok ks -> length ks = length l.
Proof.
  induction l as [|x l IH]; intros ks Hm; simpl in Hm.
  - by injection Hm as <-.
  - destruct (f x) as [y|e]; [|done]. simpl in Hm.
    destruct (mapM f l) as [ks'|e]; [|done]. simpl in Hm.
    injection Hm as <-. simpl. by rewrite (IH ks').
Qed.

Section Build.
Context {R : Type}.

Lemma build_layer_resolution (cfg : config R) pr K i layer :
  build_layer cfg pr K i = Ok layer ->
  Layer.input_resolution layer = stage_resolution pr i.
Proof.
  unfold build_layer. intros Hb.
  destruct (getitem (cfg_embed_dims cfg) (Z.of_nat i)) as [dim|]; [|done].
  destruct (getitem (cfg_depths cfg) (Z.of_nat i)) as [depth|]; [|done].
  simpl in Hb.
  destruct (getitem (cfg_embed_dims cfg) _) as [out_dim|]; [|done].
  simpl in Hb. destruct (i =? 0).
  - by injection Hb as <-.
  - destruct (getitem (cfg_num_heads cfg) _) as [nh|]; [|done].
    destruct (getitem (cfg_window_sizes cfg) _) as [ws|]; [|done].
    simpl in Hb. unfold Layer.BasicLayer in Hb.
    destruct (mapM _ _) as [blocks|]; [|done]. simpl in Hb.
    by injection Hb as <-.
Qed.

Lemma build_layers (cfg : config R) self :
  build cfg = Ok self ->
  num_layers self = length (cfg_depths cfg) /\
  patches_resolution self = (cfg_img_size cfg / 4, cfg_img_size cfg / 4) /\
  length (layers self) = num_layers self /\
  forall i layer, layers self !! i = Some layer ->
    build_layer cfg (patches_resolution self) (num_layers self) i = Ok layer.
Proof.
  unfold build. intros Hb.
  destruct (getitem (cfg_embed_dims cfg) 0) as [e0|]; [|done]. simpl in Hb.
  unfold range in Hb.
  destruct (mapM _ _) as [ls|] eqn:Hls; [|done]. simpl in Hb.
  destruct (getitem (cfg_embed_dims cfg) (-1)) as [e1|]; [|done]. simpl in Hb.
  injection Hb as <-. cbn [num_layers patches_resolution layers].
  split; [done|]. split; [done|]. split.
  - apply mapM_Ok_length in Hls. by rewrite Hls, length_seq.
  - intros i layer Hi.
    destruct (mapM_Ok_lookup _ _ _ Hls _ _ Hi) as (j & Hj & Hl).
    apply lookup_seq in Hj as [-> _]. done.
Qed.

Lemma getitem_Ok_lookup {X} (l : list X) i x :
  getitem l (Z.of_nat i) = Ok x -> l !! i = Some x.
Proof.
  unfold getitem. destruct (Z.ltb_spec (Z.of_nat i) 0); [lia|].
  destruct (_ && _); [|done]. rewrite Nat2Z.id.
  destruct (l !! i); [|done]. by intros [= ->].
Qed.

Lemma build_layer_blocks (cfg : config R) pr K i layer :
  build_layer cfg pr K i = Ok layer ->
  cfg_depths cfg !! i = Some (length (Layer.blocks layer)).
Proof.
  unfold build_layer. intros Hb.
  destruct (getitem (cfg_embed_dims cfg) (Z.of_nat i)) as [dim|]; [|done].
  destruct (getitem (cfg_depths cfg) (Z.of_nat i)) as [depth|] eqn:Hd; [|done].
  apply getitem_Ok_lookup in Hd. rewrite Hd. f_equal.
  simpl in Hb.
  destruct (getitem (cfg_embed_dims cfg) _) as [out_dim|]; [|done].
  simpl in Hb. destruct (i =? 0).
  - injection Hb as <-. simpl. unfold range. by rewrite length_map, length_seq.
  - destruct (getitem (cfg_num_heads cfg) _) as [nh|]; [|done].
    destruct (getitem (cfg_window_sizes cfg) _) as [ws|]; [|done].
    simpl in Hb. unfold Layer.BasicLayer in Hb.
    destruct (mapM _ _) as [blocks|] eqn:Hm; [|done]. simpl in Hb.
    injection Hb as <-. simpl. apply mapM_Ok_length in Hm.
    unfold range in Hm. by rewrite length_map, Hm, length_seq.
Qed.

(** Every constructed model has [depths[i]] blocks in stage [i]. *)
Lemma build_block_counts (cfg : config R) self :
  build cfg = Ok self ->
  map (fun l => length (Layer.blocks l)) (layers self) = depths self.
Proof.
  intros Hb. destruct (build_layers cfg self Hb) as (HK & _ & Hlen & Hl).
  assert (Hd : depths self = cfg_depths cfg).
  { unfold build in Hb.
    destruct (getitem (cfg_embed_dims cfg) 0); [|done]. simpl in Hb.
    destruct (mapM _ _); [|done]. simpl in Hb.
    destruct (getitem (cfg_embed_dims cfg) (-1)); [|done]. simpl in Hb.
    by injection Hb as <-. }
  rewrite Hd. apply list_eq. intros i.
  change (map ?f ?x) with (f <$> x). rewrite list_lookup_fmap.
  destruct (layers self !! i) as [l|] eqn:Hi; simpl.
  - symmetry. eapply build_layer_blocks. by apply Hl.
  - symmetry. apply lookup_ge_None. apply lookup_ge_None in Hi. lia.
Qed.

End Build.

End BuildFacts.

(** C8, as the code has it. In every model that [TinyViT.__init__]
    assembles, the declared input resolution of stage i is the stem's
    base resolution (image size // 4) floor-divided by 2^i, except for
    the stage with index 3, which repeats the resolution of stage 2; with
    four stages this is the last stage, and for image size 224 the four
    resolutions are 56x56, 28x28, 14x14, 14x14. *)
Theorem stage_resolution_schedule {R : Type} (cfg : TinyViT.config R)
    (self : TinyViT.t R) :
  TinyViT.build cfg = Ok self ->
  let base := (TinyViT.cfg_img_size cfg / 4, TinyViT.cfg_img_size cfg / 4) in
  (forall i layer, TinyViT.layers self !! i = Some layer ->
     Layer.input_resolution layer =
       if decide (i = 3) then (base.1 / 2 ^ 2, base.2 / 2 ^ 2)
       else (base.1 / 2 ^ i, base.2 / 2 ^ i)) /\
  (TinyViT.num_layers self = 4 ->
     forall l2 l3, TinyViT.layers self !! 2 = Some l2 ->
       TinyViT.layers self !! 3 = Some l3 ->
       Layer.input_resolution l3 = Layer.input_resolution l2) /\
  (TinyViT.cfg_img_size cfg = 224 -> TinyViT.num_layers self = 4 ->
     map Layer.input_resolution (TinyViT.layers self) =
     [(56, 56); (28, 28); (14, 14); (14, 14)]).
Proof.
  intros Hb base.
  destruct (BuildFacts.build_layers cfg self Hb) as (HK & Hpr & Hlen & Hl).
  assert (Hres : forall i layer, TinyViT.layers self !! i = Some layer ->
            Layer.input_resolution layer =
              if decide (i = 3) then (base.1 / 2 ^ 2, base.2 / 2 ^ 2)
              else (base.1 / 2 ^ i, base.2 / 2 ^ i)).
  { intros i layer Hi. apply Hl, BuildFacts.build_layer_resolution in Hi.
    rewrite Hi, Hpr. unfold TinyViT.stage_resolution, TinyViT.stage_exponent.
    destruct (Nat.eqb_spec i 3) as [->|Hne].
    - by rewrite decide_True.
    - by rewrite decide_False. }
  split; [exact Hres|]. split.
  - intros _ l2 l3 H2 H3. rewrite (Hres _ _ H2), (Hres _ _ H3). done.
  - intros Himg H4. rewrite H4 in Hlen.
    destruct (TinyViT.layers self) as [|l0 [|l1 [|l2 [|l3 [|? ?]]]]] eqn:Hls;
      try done.
    simpl.
    rewrite (Hres 0 l0 eq_refl), (Hres 1 l1 eq_refl), (Hres 2 l2 eq_refl),
      (Hres 3 l3 eq_refl).
    unfold base. rewrite Himg. reflexivity.
Qed.

Lemma stage_resolution_schedule_witness :
  exists self,
    TinyViT.build TinyViT.default_config_1 = Ok self /\
    map Layer.input_resolution (TinyViT.layers self) =
    [(56, 56); (28, 28); (14, 14); (14, 14)].
Proof.
  eexists. split.
  - vm_compute. reflexivity.
  - refine (proj2 (proj2 (stage_resolution_schedule TinyViT.default_config_1 _ _)) _ _).
    + vm_compute. reflexivity.
    + reflexivity.
    + reflexivity.
Defined.

(** C8 as stated fails: with three stages the last stage (index 2) does
    not repeat the resolution of stage 1. *)
Lemma stage_resolution_last_stage_counterexample :
  ~ (forall (cfg : TinyViT.config Z) (self : TinyViT.t Z),
       TinyViT.build cfg = Ok self ->
       forall i layer, TinyViT.layers self !! i = Some layer ->
         Layer.input_resolution layer =
         TinyViT.spec_stage_resolution (TinyViT.num_layers self)
           (TinyViT.patches_resolution self) i).
Proof.
  intros Hclaim.
  assert (Hb : exists self,
             TinyViT.build TinyViT.three_stage_config = Ok self /\
             TinyViT.num_layers self = 3 /\
             TinyViT.patches_resolution self = (56, 56) /\
             exists layer, TinyViT.layers self !! 2 = Some layer /\
                           Layer.input_resolution layer = (14, 14)).
  { eexists. split; [vm_compute; reflexivity|].
    split; [reflexivity|]. split; [reflexivity|].
    eexists. split; reflexivity. }
  destruct Hb as (self & Hb & HK & Hpr & layer & Hl & Hres).
  specialize (Hclaim _ _ Hb _ _ Hl). rewrite Hres, HK, Hpr in Hclaim.
  vm_compute in Hclaim. discriminate.
Qed.

(** ** Shapes through forward_features *)

Module ShapeFacts.

Ltac bind_inv_as H x E :=
  match type of H with
  | (?m ≫= _) = Ok _ =>
      destruct m as [x|] eqn:E; [cbn [mbind result_bind] in H|discriminate H]
  end.

Lemma conv2d_batch a b ks st pad x y :
  Shape.conv2d a b ks st pad x = Ok y ->
  length x = 4 /\ length y = 4 /\ hd 0 y = hd 0 x.
Proof.
  unfold Shape.conv2d. intros H.
  destruct x as [|B [|C [|H0 [|W [|? ?]]]]]; try discriminate H.
  destruct (_ && _); [|discriminate H]. by injection H as <-.
Qed.

Lemma batch_norm2d_Ok tr s y : Shape.batch_norm2d tr s = Ok y -> y = s.
Proof.
  unfold Shape.batch_norm2d. intros H.
  destruct s as [|B [|C [|H0 [|W [|? ?]]]]]; try discriminate H.
  destruct (_ && _); [discriminate H|]. by injection H.
Qed.

(** What a convolution with batch normalisation returns is what its
    convolution returns. *)
Lemma Conv2d_BN_conv self x y :
  Conv2d_BN.forward_shape self x = Ok y ->
  Shape.conv2d (Conv2d_BN.a self) (Conv2d_BN.b self) (Conv2d_BN.ks self)
    (Conv2d_BN.stride self) (Conv2d_BN.pad self) x = Ok y.
Proof.
  unfold Conv2d_BN.forward_shape. intros H. bind_inv_as H x0 E.
  by apply batch_norm2d_Ok in H as ->.
Qed.

Lemma Conv2d_BN_batch self x y :
  Conv2d_BN.forward_shape self x = Ok y ->
  length x = 4 /\ length y = 4 /\ hd 0 y = hd 0 x.
Proof. intros H. by apply Conv2d_BN_conv, conv2d_batch in H. Qed.

Lemma numel_of_nat s : Shape.numel s = N.of_nat (Tensor.numel s).
Proof.
  induction s as [|d s IH]; [done|].
  change (Shape.numel (d :: s)) with (N.of_nat d * Shape.numel s)%N.
  change (Tensor.numel (d :: s)) with (d * Tensor.numel s).
  rewrite IH. lia.
Qed.

Lemma view_inv s' s y :
  Shape.view s' s = Ok y -> y = s' /\ Tensor.numel s' = Tensor.numel s.
Proof.
  unfold Shape.view. rewrite !numel_of_nat.
  destruct (N.eqb_spec (N.of_nat (Tensor.numel s')) (N.of_nat (Tensor.numel s)));
    [|done].
  intros [= <-]. split; [done|lia].
Qed.

(** A convolution raises on an input with another number of
    channels. *)
Lemma conv2d_channels a b ks st pad B C H W y :
  Shape.conv2d a b ks st pad [B; C; H; W] = Ok y -> C = a.
Proof.
  unfold Shape.conv2d. destruct (Nat.eqb_spec C a); [done|]. by cbn.
Qed.

Lemma conv2d_inv a b ks st pad B C H W y :
  Shape.conv2d a b ks st pad [B; C; H; W] = Ok y ->
  C = a /\
  y = [B; b; (H + 2 * pad - ks) / st + 1; (W + 2 * pad - ks) / st + 1].
Proof.
  intros Hy. pose proof (conv2d_channels _ _ _ _ _ _ _ _ _ _ Hy) as ->.
  split; [done|]. unfold Shape.conv2d in Hy.
  destruct (_ && _); [|discriminate Hy]. by injection Hy as <-.
Qed.

Lemma PatchEmbed_batch self x y :
  PatchEmbed.forward_shape self x = Ok y -> hd 0 y = hd 0 x.
Proof.
  unfold PatchEmbed.forward_shape. intros H. bind_inv_as H x0 E.
  apply Conv2d_BN_batch in E as (_ & _ & E), H as (_ & _ & H). congruence.
Qed.

Lemma add_same_Ok s1 s2 y : Shape.add_same s1 s2 = Ok y -> y = s1 /\ s1 = s2.
Proof. unfold Shape.add_same. case_decide; [|done]. by intros [= <-]. Qed.

Lemma view_Ok s' s y : Shape.view s' s = Ok y -> y = s'.
Proof. unfold Shape.view. destruct (_ =? _)%N; [|done]. by intros [= <-]. Qed.

Lemma iadd_Ok x other y : Shape.iadd x other = Ok y -> y = x.
Proof. unfold Shape.iadd. destruct (_ && _); [|done]. by intros [= <-]. Qed.

(** An [MBConv] block keeps the number of axes and the batch size;
    the in-place addition of the shortcut cannot change the shape of
    what the convolutions return. *)
Lemma MBConv_batch self x y :
  MBConv.forward_shape self x = Ok y ->
  length x = 4 /\ length y = 4 /\ hd 0 y = hd 0 x.
Proof.
  unfold MBConv.forward_shape. intros H.
  bind_inv_as H x0 E0. bind_inv_as H x1 E1. bind_inv_as H x2 E2.
  apply iadd_Ok in H as ->.
  apply Conv2d_BN_batch in E0 as (? & _ & ?), E1 as (_ & _ & ?),
    E2 as (_ & ? & ?).
  repeat split; congruence.
Qed.

Lemma TinyViTBlock_same self x y : TinyViTBlock.forward_shape self x = Ok y -> y = x.
Proof.
  unfold TinyViTBlock.forward_shape. intros H.
  destruct x as [|B [|L [|C [|? ?]]]]; try discriminate H.
  destruct (TinyViTBlock.input_resolution self) as [Hh Ww].
  bind_inv_as H u E. bind_inv_as H x0 E0. bind_inv_as H x1 E1.
  bind_inv_as H x2 E2. bind_inv_as H x3 E3. bind_inv_as H x4 E4.
  bind_inv_as H x5 E5.
  apply add_same_Ok in H as [-> _]. apply view_Ok in E4 as ->. reflexivity.
Qed.

(** The blocks of a stage keep the number of axes and the batch
    size; those of an attention stage keep the shape. *)
Lemma blocks_batch blks : forall x y,
  Layer.blocks_forward_shape blks x = Ok y ->
  length y = length x /\ hd 0 y = hd 0 x.
Proof.
  induction blks as [|blk blks IH]; intros x y H; simpl in H.
  - by injection H as <-.
  - bind_inv_as H x0 E. apply IH in H as [-> ->].
    destruct blk; simpl in E.
    + apply MBConv_batch in E as (? & ? & ?). split; congruence.
    + by apply TinyViTBlock_same in E as ->.
Qed.

Lemma TinyViT_blocks_same blocks : forall x y,
  Layer.blocks_forward_shape (map Layer.TinyViT_block blocks) x = Ok y -> y = x.
Proof.
  induction blocks as [|blk blocks IH]; intros x y H; simpl in H.
  - by injection H.
  - bind_inv_as H x0 E. apply IH in H as ->. by apply TinyViTBlock_same in E.
Qed.

Lemma PatchMerging_batch self x y :
  PatchMerging.forward_shape self x = Ok y -> hd 0 y = hd 0 x.
Proof.
  unfold PatchMerging.forward_shape. intros H.
  bind_inv_as H x0 E0. bind_inv_as H x1 E1. bind_inv_as H x2 E2.
  bind_inv_as H x3 E3.
  assert (Hl : hd 0 x0 = hd 0 x).
  { destruct (length x =? 3); [|by injection E0 as <-].
    destruct (PatchMerging.input_resolution self) as [Hh Ww].
    bind_inv_as E0 xv Ev.
    injection E0 as <-. unfold Shape.view_infer_last in Ev.
    destruct (_ || _); [done|]. by injection Ev as <-. }
  apply Conv2d_BN_batch in E1 as (_ & _ & E1), E2 as (_ & _ & E2),
    E3 as (_ & Hlen & E3).
  unfold PatchMerging.flatten_transpose in H.
  destruct x3 as [|B [|C [|H0 [|W [|? ?]]]]]; try discriminate H.
  injection H as <-. simpl in *. congruence.
Qed.

Lemma Layer_batch self x y :
  Layer.forward_shape self x = Ok y -> hd 0 y = hd 0 x.
Proof.
  unfold Layer.forward_shape. intros H. bind_inv_as H x0 E.
  apply blocks_batch in E as [_ E].
  destruct (Layer.downsample self).
  - apply PatchMerging_batch in H. congruence.
  - by injection H as <-.
Qed.

Section Model.
Context {R : Type}.

Lemma layers_batch (ls : list Layer.t) : forall x y,
  TinyViT.layers_forward_shape ls x = Ok y -> hd 0 y = hd 0 x.
Proof.
  induction ls as [|layer ls IH]; intros x y H; simpl in H.
  - by injection H as <-.
  - bind_inv_as H x0 E. apply IH in H. apply Layer_batch in E. congruence.
Qed.

Lemma neck_shape (self : TinyViT.t R) B C y :
  TinyViT.neck_forward_shape self [B; C; 64; 64] = Ok y -> y = [B; 256; 64; 64].
Proof.
  unfold TinyViT.neck_forward_shape, Shape.conv2d. intros H.
  destruct (C =? TinyViT.neck self); cbn in H; [|discriminate H].
  by injection H as <-.
Qed.

Lemma forward_features_shape_Ok (self : TinyViT.t R) x y :
  TinyViT.forward_features_shape self x = Ok y -> y = [hd 0 x; 256; 64; 64].
Proof.
  unfold TinyViT.forward_features_shape. intros H.
  bind_inv_as H x0 E. bind_inv_as H x1 E0.
  apply PatchEmbed_batch in E. apply layers_batch in E0.
  destruct x1 as [|B [|L [|C [|? ?]]]]; try discriminate H.
  bind_inv_as H x2 E1. apply view_Ok in E1 as ->.
  apply neck_shape in H. simpl in *. congruence.
Qed.

(** Lines 429-431: the last stage must hand over a token grid of
    64 * 64 tokens of the width of the neck. *)
Lemma forward_features_tokens (self : TinyViT.t R) x y :
  TinyViT.forward_features_shape self x = Ok y ->
  exists x0 B L C,
    PatchEmbed.forward_shape (TinyViT.patch_embed self) x = Ok x0 /\
    TinyViT.layers_forward_shape (TinyViT.layers self) x0 = Ok [B; L; C] /\
    C = TinyViT.neck self /\
    (1 <= B -> 1 <= C -> L = 4096).
Proof.
  unfold TinyViT.forward_features_shape. intros Hy.
  bind_inv_as Hy x0 Hx0. bind_inv_as Hy x1 Hx1.
  destruct x1 as [|B [|L [|C [|? ?]]]]; try discriminate Hy.
  bind_inv_as Hy x2 Hx2.
  apply view_inv in Hx2 as [-> Hnumel].
  change (permute_list [0; 3; 1; 2] [B; 64; 64; C]) with [B; C; 64; 64] in Hy.
  unfold TinyViT.neck_forward_shape in Hy. bind_inv_as Hy x3 Hx3.
  apply conv2d_channels in Hx3.
  exists x0, B, L, C. do 3 (split; [done|]). intros HB HC.
  cbn [Tensor.numel foldr] in Hnumel.
  apply (Nat.mul_cancel_l _ _ (B * C)); nia.
Qed.

End Model.

End ShapeFacts.

(** C2, as the code has it. Whenever the forward pass returns, its
    output has shape (B, 256, 64, 64), B being the batch size of the
    input, whatever the stage widths; and it returns only when the last
    stage hands over a token grid of exactly 64 * 64 = 4096 tokens of
    the width the neck was built for, since line 430 is written for that
    grid alone. It does return on a (2, 3, 1024, 1024) batch for the
    model built for image size 1024 with widths 64, 128, 160, 320; with
    the same widths at image size 224 the last stage hands over
    14 * 14 = 196 tokens and the [view] of line 430 raises. *)
Theorem forward_output_shape :
  (forall (R : Type) (self : TinyViT.t R) (x y : list nat),
     TinyViT.forward_shape self x = Ok y ->
     y = [hd 0 x; 256; 64; 64] /\
     exists x0 B L C,
       PatchEmbed.forward_shape (TinyViT.patch_embed self) x = Ok x0 /\
       TinyViT.layers_forward_shape (TinyViT.layers self) x0 = Ok [B; L; C] /\
       C = TinyViT.neck self /\
       (1 <= B -> 1 <= C -> L = 4096)) /\
  (self ← TinyViT.__init__ TinyViT.zpow TinyViT.config_1024;
   TinyViT.forward_shape self [2; 3; 1024; 1024]) = Ok [2; 256; 64; 64] /\
  (self ← TinyViT.__init__ TinyViT.zpow TinyViT.config_224;
   x0 ← PatchEmbed.forward_shape (TinyViT.patch_embed self) [2; 3; 224; 224];
   TinyViT.layers_forward_shape (TinyViT.layers self) x0) = Ok [2; 196; 320] /\
  (self ← TinyViT.__init__ TinyViT.zpow TinyViT.config_224;
   TinyViT.forward_shape self [2; 3; 224; 224]) = Raise RuntimeError.
Proof.
  split; [|split; [|split]].
  - intros R self x y Hy. split.
    + exact (ShapeFacts.forward_features_shape_Ok self x y Hy).
    + exact (ShapeFacts.forward_features_tokens self x y Hy).
  - vm_compute. reflexivity.
  - vm_compute. reflexivity.
  - vm_compute. reflexivity.
Qed.

(** C2 as stated fails: the model built with the default arguments
    (image size 224) raises on a (2, 3, 224, 224) batch, at the shape
    assertion of the first block of the last stage. *)
Lemma forward_default_config_counterexample :
  (self ← TinyViT.__init__ TinyViT.zpow TinyViT.default_config_1; Ok tt) = Ok tt /\
  (self ← TinyViT.__init__ TinyViT.zpow TinyViT.default_config_1;
   TinyViT.forward_shape self [2; 3; 224; 224]) = Raise (AssertionError 258) /\
  (self ← TinyViT.__init__ TinyViT.zpow TinyViT.default_config_1;
   TinyViT.forward_shape self [2; 3; 224; 224]) <> Ok [2; 256; 64; 64].
Proof.
  split; [vm_compute; reflexivity|].
  split; [vm_compute; reflexivity|]. vm_compute. discriminate.
Qed.

(** C1, what the code does. Built with the default arguments the model
    construction completes although the six parameters of the neck carry
    no lr-scale tag: line 423 builds an [AssertionError] object for each
    of them and drops it, nothing is raised. *)
Theorem untagged_parameters_pass_silently :
  (self ← TinyViT.__init__ TinyViT.zpow TinyViT.default_config_1; Ok tt) = Ok tt /\
  (self ← TinyViT.__init__ TinyViT.zpow TinyViT.default_config_1;
   Ok (bool_decide (["neck"; "0"; "weight"] ∈
                      NN.named_parameters [] (TinyViT.modules self)),
       TinyViT.lr_scale self !! ["neck"; "0"; "weight"]))
  = Ok (true, None) /\
  (self ← TinyViT.__init__ TinyViT.zpow TinyViT.default_config_1;
   report ← TinyViT.lr_scale_report self;
   Ok (List.filter TinyViT.is_exception report))
  = Ok [TinyViT.PyAssertionError ["neck"; "0"; "weight"];
        TinyViT.PyAssertionError ["neck"; "1"; "weight"];
        TinyViT.PyAssertionError ["neck"; "1"; "bias"];
        TinyViT.PyAssertionError ["neck"; "2"; "weight"];
        TinyViT.PyAssertionError ["neck"; "3"; "weight"];
        TinyViT.PyAssertionError ["neck"; "3"; "bias"]].
Proof.
  split; [vm_compute; reflexivity|].
  split; vm_compute; reflexivity.
Qed.

(** ** The tagging pass: TinyViT.set_layer_lr_decay *)

Module TagFacts.
Import TinyViT.


Lemma module_ind (P : NN.module -> Prop) :
  (forall own ch, Forall (fun nc : string * NN.module => P nc.2) ch ->
                  P (NN.Mod own ch)) ->
  forall m, P m.
Proof.
  intros H. fix IH 1. intros [own ch]. apply H.
  induction ch as [|[n c] ch IHch]; constructor; [apply IH|apply IHch].
Qed.

(** Every parameter of a module carries the module's name as a prefix. *)
Lemma named_parameters_prefix m : forall prefix q,
  In q (NN.named_parameters prefix m) -> prefix `prefix_of` q.
Proof.
  induction m as [own ch IH] using module_ind. intros prefix q Hq. simpl in Hq.
  apply in_app_or in Hq as [Hq|Hq].
  - apply in_map_iff in Hq as (n & <- & _). by exists [n].
  - apply in_flat_map in Hq as ([n c] & Hnc & Hq).
    rewrite List.Forall_forall in IH. specialize (IH _ Hnc _ _ Hq).
    destruct IH as [k ->]. exists (n :: k). by rewrite <- app_assoc.
Qed.

Section Tag.
Context {R : Type}.
Variable rpow : R -> nat -> R.

Lemma lookup_set_all (ps : list NN.path) (v : R) q : forall st : gmap NN.path R,
  foldl (fun st p => <[p := v]> st) st ps !! q =
  if decide (In q ps) then Some v else st !! q.
Proof.
  induction ps as [|p ps IH]; intros st; simpl.
  - done.
  - rewrite IH. destruct (decide (In q ps)) as [Hin|Hnin].
    + rewrite decide_True; [done|by right].
    + destruct (decide (p = q)) as [->|Hne].
      * rewrite decide_True by (by left). apply lookup_insert_eq.
      * rewrite decide_False by (intros [?|?]; done).
        by apply lookup_insert_ne.
Qed.

(** [m.apply(lambda x: _set_lr_scale(x, lr_scales[i]))] tags every
    parameter of [m] and nothing else. *)
Lemma apply_tag (lr_scales : list R) i v :
  getitem lr_scales i = Ok v ->
  forall m prefix (st : gmap NN.path R),
  exists st',
    NN.apply (tag lr_scales i) prefix m st = Ok st' /\
    forall q, st' !! q =
      if decide (In q (NN.named_parameters prefix m)) then Some v else st !! q.
Proof.
  intros Hv. induction m as [own ch IH] using module_ind. intros prefix st.
  assert (Hch : forall st : gmap NN.path R, exists st1,
             NN.apply_children
               (fun n c st => NN.apply (tag lr_scales i) (prefix ++ [n]) c st) ch st
             = Ok st1 /\
             forall q, st1 !! q =
               if decide (In q (flat_map (fun nc : string * NN.module =>
                            match nc with
                            | (n, c) => NN.named_parameters (prefix ++ [n]) c
                            end) ch))
               then Some v else st !! q).
  { clear st. induction IH as [|[n c] ch Hc _ IHch]; intros st; simpl.
    - eauto.
    - simpl in Hc. destruct (Hc (prefix ++ [n]) st) as (st1 & Hs1 & H1).
      rewrite Hs1. cbn [mbind result_bind].
      destruct (IHch st1) as (st2 & Hs2 & H2). rewrite Hs2.
      exists st2. split; [done|]. intros q. rewrite H2, H1.
      destruct (decide (In q (flat_map _ ch))) as [Hin|Hnin].
      + rewrite decide_True; [done|]. apply in_or_app. by right.
      + destruct (decide (In q (NN.named_parameters (prefix ++ [n]) c))) as [Hq|Hq].
        * rewrite decide_True; [done|]. apply in_or_app. by left.
        * rewrite decide_False; [done|].
          intros Hin. apply in_app_or in Hin as [?|?]; done. }
  destruct (Hch st) as (st1 & Hst1 & H1).
  simpl. rewrite Hst1. simpl. unfold tag. rewrite Hv. simpl.
  eexists. split; [done|]. intros q. unfold _set_lr_scale.
  rewrite lookup_set_all. simpl.
  destruct (decide (In q _)) as [Hin|Hnin]; [done|].
  rewrite H1. rewrite decide_False; [done|].
  intros Hin. apply Hnin. apply in_or_app. by right.
Qed.

Lemma apply_Mod {S : Type} (fn : NN.path -> NN.module -> S -> result S)
    prefix own ch st :
  NN.apply fn prefix (NN.Mod own ch) st =
  NN.apply_children (fun n c st => NN.apply fn (prefix ++ [n]) c st) ch st
    ≫= fn prefix (NN.Mod own ch).
Proof. reflexivity. Qed.

(** *** Runs of tagging steps *)

#[local] Arguments NN.apply : simpl never.
#[local] Arguments PatchMerging.modules : simpl never.
#[local] Arguments PatchEmbed.modules : simpl never.
#[local] Arguments Layer.block_modules : simpl never.
#[local] Arguments component_path : simpl never.

Lemma run_ops_app lr_scales ops1 : forall ops2 (st : gmap NN.path R),
  run_ops lr_scales (ops1 ++ ops2) st =
  run_ops lr_scales ops1 st ≫= run_ops lr_scales ops2.
Proof.
  induction ops1 as [|op ops1 IH]; intros ops2 st; simpl; [done|].
  destruct (NN.apply _ _ _ st) as [st1|e]; simpl; [apply IH|done].
Qed.

Lemma tag_blocks_ops lr_scales li blocks : forall bj i (st : gmap NN.path R),
  tag_blocks lr_scales li bj blocks i st =
  run_ops lr_scales (blocks_ops li bj blocks i) st
    ≫= fun st' => Ok (i + length blocks, st').
Proof.
  induction blocks as [|b blocks IH]; intros bj i st; simpl.
  - by rewrite Nat.add_0_r.
  - destruct (NN.apply _ _ _ st) as [st1|e]; simpl; [|done].
    rewrite IH. replace (i + 1 + length blocks) with (i + S (length blocks)) by lia.
    done.
Qed.

Lemma tag_layers_ops lr_scales layers : forall li i (st : gmap NN.path R),
  tag_layers lr_scales li layers i st =
  run_ops lr_scales (layers_ops li layers i) st
    ≫= fun st' => Ok (i + sum (map (fun l => length (Layer.blocks l)) layers), st').
Proof.
  induction layers as [|l layers IH]; intros li i st; simpl.
  - by rewrite Nat.add_0_r.
  - rewrite tag_blocks_ops, !run_ops_app.
    destruct (run_ops lr_scales (blocks_ops li 0 (Layer.blocks l) i) st)
      as [st1|e]; simpl; [|done].
    unfold downsample_ops. destruct (Layer.downsample l) as [ds|]; simpl.
    + destruct (NN.apply _ _ _ st1) as [st2|e]; simpl; [|done].
      rewrite IH. by rewrite Nat.add_assoc.
    + rewrite IH. by rewrite Nat.add_assoc.
Qed.

(** When every step finds its scale and steps that share a parameter
    use the same index, each parameter ends with the scale of the steps
    that tag it, and the other parameters keep what they had. *)
Lemma run_ops_spec lr_scales ops : forall st : gmap NN.path R,
  (forall op, In op ops -> exists v, getitem lr_scales (op_index op) = Ok v) ->
  (forall op op' q, In op ops -> In op' ops ->
     In q (op_parameters op) -> In q (op_parameters op') ->
     op_index op = op_index op') ->
  exists st',
    run_ops lr_scales ops st = Ok st' /\
    (forall op v q, In op ops -> getitem lr_scales (op_index op) = Ok v ->
       In q (op_parameters op) -> st' !! q = Some v) /\
    (forall q, (forall op, In op ops -> ~ In q (op_parameters op)) ->
       st' !! q = st !! q).
Proof.
  induction ops as [|o ops IH]; intros st Hget Hsame.
  - exists st. simpl. split; [done|]. split; [intros ? ? ? []|done].
  - destruct (Hget o (or_introl eq_refl)) as [vo Hvo].
    destruct (apply_tag lr_scales _ _ Hvo (op_module o) (op_prefix o) st)
      as (st1 & Hst1 & H1).
    destruct (IH st1) as (st' & Hst' & Htag & Hframe).
    { intros op Hop. apply Hget. by right. }
    { intros op op' q Hop Hop'. apply Hsame; by right. }
    exists st'. simpl. rewrite Hst1. simpl. split; [done|]. split.
    + intros op v q Hop Hv Hq.
      destruct (decide (Exists (fun op' => In q (op_parameters op')) ops))
        as [Hex|Hnex].
      * apply List.Exists_exists in Hex as (op' & Hop' & Hq').
        destruct (Hget op' (or_intror Hop')) as [v' Hv'].
        rewrite (Htag op' v' q Hop' Hv' Hq'). f_equal.
        assert (Hidx : op_index op = op_index op')
          by (apply (Hsame op op' q); auto; by right).
        rewrite Hidx in Hv. congruence.
      * rewrite Hframe.
        2:{ intros op' Hop' Hq'. apply Hnex, List.Exists_exists. eauto. }
        destruct Hop as [<-|Hop].
        -- rewrite H1. unfold op_parameters in Hq.
           rewrite decide_True by done. congruence.
        -- exfalso. apply Hnex, List.Exists_exists. eauto.
    + intros q Hq. rewrite Hframe by (intros op Hop; apply Hq; by right).
      rewrite H1. rewrite decide_False; [done|].
      apply (Hq o). by left.
Qed.

(** *** The steps of the traversal *)

Lemma blocks_ops_In li blocks : forall bj0 i0 op,
  In op (blocks_ops li bj0 blocks i0) <->
  exists k b, blocks !! k = Some b /\
    op = Build_tag_op (component_path (Block li (bj0 + k)))
           (Layer.block_modules b) (Z.of_nat (i0 + k)).
Proof.
  induction blocks as [|b blocks IH]; intros bj0 i0 op; simpl.
  - split; [done|]. intros (k & b & Hk & _). by rewrite lookup_nil in Hk.
  - rewrite IH. split.
    + intros [<-|(k & b' & Hk & ->)].
      * exists 0, b. by rewrite !Nat.add_0_r.
      * exists (S k), b'. split; [done|]. do 2 f_equal; [f_equal|]; lia.
    + intros ([|k] & b' & Hk & ->); simpl in Hk.
      * left. injection Hk as ->. by rewrite !Nat.add_0_r.
      * right. exists k, b'. split; [done|]. do 2 f_equal; [f_equal|]; lia.
Qed.

Lemma layers_ops_In layers : forall li0 i0 op,
  In op (layers_ops li0 layers i0) <->
  (exists k l bj b, layers !! k = Some l /\ Layer.blocks l !! bj = Some b /\
     op = Build_tag_op (component_path (Block (li0 + k) bj))
            (Layer.block_modules b)
            (Z.of_nat (i0 + sum (take k (block_counts layers)) + bj))) \/
  (exists k l ds, layers !! k = Some l /\ Layer.downsample l = Some ds /\
     op = Build_tag_op (component_path (Downsample (li0 + k)))
            (PatchMerging.modules ds)
            (Z.of_nat (i0 + sum (take (S k) (block_counts layers))) - 1)).
Proof.
  induction layers as [|l layers IH]; intros li0 i0 op.
  - simpl. split; [done|].
    intros [(k & ? & ? & ? & Hk & _)|(k & ? & ? & Hk & _)];
      by rewrite lookup_nil in Hk.
  - cbn [layers_ops block_counts map]. fold (block_counts layers).
    rewrite !in_app_iff, blocks_ops_In, IH. unfold downsample_ops. split.
    + intros [(bj & b & Hb & ->)|[Hds|[Hr|Hr]]].
      * left. exists 0, l, bj, b. simpl. rewrite !Nat.add_0_r. done.
      * right. exists 0, l. destruct (Layer.downsample l) as [ds|]; [|done].
        destruct Hds as [<-|[]]. exists ds. simpl. rewrite !Nat.add_0_r. done.
      * destruct Hr as (k & l' & bj & b & Hk & Hb & ->).
        left. exists (S k), l', bj, b. split; [done|]. split; [done|].
        simpl. do 2 f_equal; [f_equal|]; lia.
      * destruct Hr as (k & l' & ds & Hk & Hds & ->).
        right. exists (S k), l', ds. split; [done|]. split; [done|].
        simpl. do 2 f_equal; [f_equal|]; lia.
    + intros [([|k] & l' & bj & b & Hk & Hb & ->)|([|k] & l' & ds & Hk & Hds & ->)];
        simpl in Hk.
      * injection Hk as <-. left. exists bj, b. simpl. rewrite !Nat.add_0_r. done.
      * right. right. left. exists k, l', bj, b. split; [done|]. split; [done|].
        simpl. do 2 f_equal; [f_equal|]; lia.
      * injection Hk as <-. right. left. rewrite Hds. left.
        simpl. rewrite !Nat.add_0_r. done.
      * right. right. right. exists k, l', ds. split; [done|]. split; [done|].
        simpl. do 2 f_equal; [f_equal|]; lia.
Qed.

(** Two components whose names are prefixes of one parameter name are
    the same component. *)
Lemma component_path_comparable c c' q :
  component_path c `prefix_of` q -> component_path c' `prefix_of` q -> c = c'.
Proof.
  intros [k ->] [k' Hk]. unfold component_path in Hk.
  destruct c, c'; simplify_eq/=; try done;
    repeat match goal with
           | H : pretty _ = pretty _ |- _ => apply (inj pretty) in H; subst
           end; done.
Qed.

Lemma plan_components (self : TinyViT.t R) op :
  In op (plan self) ->
  exists c, op_prefix op = component_path c /\
            op_index op = scale_index (block_counts (layers self)) c.
Proof.
  unfold plan. intros [<-|Hop].
  - by exists Stem.
  - apply in_app_or in Hop as [Hop|[<-|[<-|[]]]].
    + apply layers_ops_In in Hop
        as [(k & l & bj & b & _ & _ & ->)|(k & l & ds & _ & _ & ->)].
      * by exists (Block k bj).
      * by exists (Downsample k).
    + by exists NormHead.
    + by exists Head.
Qed.

Lemma plan_same_index (self : TinyViT.t R) op op' q :
  In op (plan self) -> In op' (plan self) ->
  In q (op_parameters op) -> In q (op_parameters op') ->
  op_index op = op_index op'.
Proof.
  intros Hop Hop' Hq Hq'.
  destruct (plan_components self op Hop) as (c & Hc & ->).
  destruct (plan_components self op' Hop') as (c' & Hc' & ->).
  apply named_parameters_prefix in Hq, Hq'. rewrite Hc in Hq. rewrite Hc' in Hq'.
  by rewrite (component_path_comparable c c' q Hq Hq').
Qed.

(** *** Reading [lr_scales] *)

Lemma getitem_map_seq (f : nat -> R) n (z : Z) :
  let j := (if z <? 0 then Z.of_nat n + z else z)%Z in
  (0 <= j < Z.of_nat n)%Z ->
  getitem (map f (seq 0 n)) z = Ok (f (Z.to_nat j)).
Proof.
  intros j Hj. unfold getitem. rewrite length_map, length_seq. fold j.
  destruct (Z.leb_spec 0 j); [|lia]. destruct (Z.ltb_spec j (Z.of_nat n)); [|lia].
  simpl. change (map f (seq 0 n)) with (f <$> seq 0 n).
  rewrite list_lookup_fmap, lookup_seq_lt by lia. done.
Qed.

Lemma sum_take_le (counts : list nat) k : sum (take k counts) <= sum counts.
Proof.
  revert k. induction counts as [|n counts IH]; intros [|k]; simpl; try lia.
  specialize (IH k). lia.
Qed.

Lemma sum_take_lookup (counts : list nat) k n :
  counts !! k = Some n -> sum (take (S k) counts) = sum (take k counts) + n.
Proof.
  revert k. induction counts as [|m counts IH]; intros [|k] Hk; simpl in *; try done.
  - injection Hk as ->. destruct counts; simpl; lia.
  - rewrite (IH k Hk). destruct k; simpl; lia.
Qed.

Lemma block_counts_lookup (layers : list Layer.t) k l :
  layers !! k = Some l -> block_counts layers !! k = Some (length (Layer.blocks l)).
Proof.
  intros Hk. unfold block_counts.
  change (map ?f ?x) with (f <$> x). by rewrite list_lookup_fmap, Hk.
Qed.

(** *** The completeness check of line 423 never raises *)

Lemma mapM_Ok_all {X Y} (f : X -> result Y) (l : list X) :
  (forall x, In x l -> exists y, f x = Ok y) -> exists ys, mapM f l = Ok ys.
Proof.
  induction l as [|x l IH]; intros Hf; simpl; [by eexists|].
  destruct (Hf x (or_introl eq_refl)) as [y ->].
  destruct IH as [ys ->]; [intros; apply Hf; by right|]. simpl. by eexists.
Qed.

Lemma names_lookup (ps : list NN.path) q : forall names : gmap NN.path NN.path,
  In q ps -> is_Some (foldl (fun names k => <[k := k]> names) names ps !! q).
Proof.
  induction ps as [|p ps IH]; intros names Hq; simpl; [done|].
  destruct (decide (In q ps)) as [Hin|Hnin]; [by apply IH|].
  destruct Hq as [->|?]; [|done].
  assert (Hkeep : forall (ks : list NN.path) (m : gmap NN.path NN.path),
             is_Some (m !! q) ->
             is_Some (foldl (fun names k => <[k := k]> names) m ks !! q)).
  { clear. induction ks as [|k ks IHk]; intros m Hm; simpl; [done|].
    apply IHk. destruct (decide (k = q)) as [->|Hne].
    - rewrite lookup_insert_eq. eauto.
    - by rewrite lookup_insert_ne. }
  apply Hkeep. rewrite lookup_insert_eq. eauto.
Qed.

Lemma check_never_raises (st : gmap NN.path R) (names : gmap NN.path NN.path) m :
  forall prefix,
  (forall q, In q (NN.named_parameters prefix m) -> is_Some (names !! q)) ->
  NN.apply (fun prefix m (_ : unit) => _ ← check_module st names prefix m; Ok tt)
           prefix m tt = Ok tt.
Proof.
  induction m as [own ch IH] using module_ind. intros prefix Hnames.
  rewrite apply_Mod.
  assert (Hch : NN.apply_children
                  (fun n c st0 =>
                     NN.apply (fun prefix m (_ : unit) =>
                                 _ ← check_module st names prefix m; Ok tt)
                              (prefix ++ [n]) c st0) ch tt = Ok tt).
  { assert (Hsub : forall q,
               In q (flat_map (fun nc : string * NN.module =>
                       match nc with
                       | (n, c) => NN.named_parameters (prefix ++ [n]) c
                       end) ch) -> is_Some (names !! q)).
    { intros q Hq. apply Hnames. simpl. apply in_or_app. by right. }
    clear Hnames. induction IH as [|[n c] ch Hc _ IHch]; simpl; [done|].
    simpl in Hc. rewrite Hc.
    - cbn [mbind result_bind]. apply IHch. intros q Hq. apply Hsub. simpl.
      apply in_or_app. by right.
    - intros q Hq. apply Hsub. simpl. apply in_or_app. by left. }
  rewrite Hch. cbn [mbind result_bind]. unfold check_module.
  destruct (mapM_Ok_all (check_param st names)
              (NN.named_parameters prefix (NN.Mod own ch))) as [ys ->]; [|done].
  intros q Hq. unfold check_param. destruct (bool_decide _); [by eexists|].
  destruct (Hnames q Hq) as [k ->]. by eexists.
Qed.

(** *** The pass as a run of its steps *)

Lemma set_layer_lr_decay_run (self : TinyViT.t R) decay st' :
  block_counts (layers self) = depths self ->
  run_ops (map (fun i => rpow decay (sum (depths self) - i - 1))
               (range (sum (depths self))))
          (plan self) (lr_scale self) = Ok st' ->
  exists self',
    set_layer_lr_decay rpow self decay = Ok self' /\ lr_scale self' = st'.
Proof.
  intros Hcounts Hrun. unfold set_layer_lr_decay.
  set (lr_scales := map _ (range (sum (depths self)))) in *.
  unfold plan in Hrun. cbn [run_ops op_index op_prefix op_module] in Hrun.
  destruct (NN.apply (tag lr_scales 0) _ _ (lr_scale self)) as [st1|]; [|done].
  cbn [mbind result_bind] in Hrun |- *.
  rewrite run_ops_app in Hrun. rewrite tag_layers_ops.
  destruct (run_ops lr_scales (layers_ops 0 (layers self) 0) st1) as [st2|]; [|done].
  cbn [mbind result_bind run_ops op_index op_prefix op_module] in Hrun |- *.
  fold (block_counts (layers self)). rewrite Hcounts, Nat.add_0_l, Nat.eqb_refl.
  cbn [assert_ mbind result_bind].
  destruct (NN.apply (tag lr_scales (-1)) _ _ st2) as [st3|]; [|done].
  cbn [mbind result_bind] in Hrun |- *.
  destruct (NN.apply (tag lr_scales (-1)) _ _ st3) as [st4|]; [|done].
  cbn [mbind result_bind] in Hrun |- *. injection Hrun as ->.
  rewrite check_never_raises.
  - cbn [mbind result_bind]. eexists. split; [done|]. done.
  - intros q Hq. by apply names_lookup.
Qed.

Section Scales.
Variable decay : R.
Variable total : nat.

#[local] Abbreviation lr_scales := (map (fun i => rpow decay (total - i - 1)) (range total)).

Lemma getitem_position i :
  i < total -> getitem lr_scales (Z.of_nat i) = Ok (rpow decay (total - i - 1)).
Proof.
  intros Hi. unfold range. rewrite getitem_map_seq.
  - destruct (Z.ltb_spec (Z.of_nat i) 0); [lia|]. by rewrite Nat2Z.id.
  - destruct (Z.ltb_spec (Z.of_nat i) 0); lia.
Qed.

Lemma getitem_last :
  1 <= total -> getitem lr_scales (-1) = Ok (rpow decay (total - (total - 1) - 1)).
Proof.
  intros Ht. unfold range. rewrite getitem_map_seq.
  - simpl. do 3 f_equal. lia.
  - simpl. lia.
Qed.

Lemma getitem_pred X :
  1 <= X <= total ->
  getitem lr_scales (Z.of_nat X - 1) = Ok (rpow decay (total - (X - 1) - 1)).
Proof.
  intros HX. replace (Z.of_nat X - 1)%Z with (Z.of_nat (X - 1)) by lia.
  apply getitem_position. lia.
Qed.

End Scales.

End Tag.

End TagFacts.

(** C7. With one scale per block, [lr_scales[p] = decay_rate ** (total -
    p - 1)] for the global block position p (counted once per block over
    all stages, in stage order), [set_layer_lr_decay] gives every
    parameter of the block at position p the scale [lr_scales[p]], the
    stem's parameters the first block's scale, the parameters of
    [norm_head] and [head] the last block's scale, which is
    [decay_rate ** 0 = 1], and the parameters of the downsample transform
    of a stage that has blocks the scale of the last block of that
    stage. *)
Theorem lr_scale_by_depth {R : Type} (rpow : R -> nat -> R) (rone : R)
    (self : TinyViT.t R) (decay : R) :
  (forall x, rpow x 0 = rone) ->
  map (fun l => length (Layer.blocks l)) (TinyViT.layers self) = TinyViT.depths self ->
  1 <= sum (TinyViT.depths self) ->
  exists self',
    TinyViT.set_layer_lr_decay rpow self decay = Ok self' /\
    let total := sum (TinyViT.depths self) in
    let scale p := rpow decay (total - p - 1) in
    let position li bj := sum (take li (TinyViT.depths self)) + bj in
    (forall li l bj b q,
       TinyViT.layers self !! li = Some l -> Layer.blocks l !! bj = Some b ->
       In q (NN.named_parameters ["layers"; pretty li; "blocks"; pretty bj]
               (Layer.block_modules b)) ->
       TinyViT.lr_scale self' !! q = Some (scale (position li bj))) /\
    (forall q,
       In q (NN.named_parameters ["patch_embed"]
               (PatchEmbed.modules (TinyViT.patch_embed self))) ->
       TinyViT.lr_scale self' !! q = Some (scale 0)) /\
    (forall q,
       In q (NN.named_parameters ["norm_head"] NN.LayerNorm) \/
       In q (NN.named_parameters ["head"] (TinyViT.head_modules self)) ->
       TinyViT.lr_scale self' !! q = Some (scale (total - 1)) /\
       scale (total - 1) = rone) /\
    (forall li l ds q,
       TinyViT.layers self !! li = Some l -> Layer.downsample l = Some ds ->
       Layer.blocks l <> [] ->
       In q (NN.named_parameters ["layers"; pretty li; "downsample"]
               (PatchMerging.modules ds)) ->
       TinyViT.lr_scale self' !! q =
       Some (scale (position li (length (Layer.blocks l)) - 1))).
Proof.
  intros Hpow0 Hcounts Htotal.
  fold (TinyViT.block_counts (TinyViT.layers self)) in Hcounts.
  set (total := sum (TinyViT.depths self)) in *.
  set (lr_scales := map (fun i => rpow decay (total - i - 1)) (range total)).
  assert (Hblock : forall li l bj b,
            TinyViT.layers self !! li = Some l -> Layer.blocks l !! bj = Some b ->
            sum (take li (TinyViT.depths self)) + bj < total).
  { intros li l bj b Hl Hb. apply TagFacts.block_counts_lookup in Hl.
    rewrite Hcounts in Hl. apply lookup_lt_Some in Hb.
    pose proof (TagFacts.sum_take_lookup _ _ _ Hl).
    pose proof (TagFacts.sum_take_le (TinyViT.depths self) (S li)). unfold total. lia. }
  assert (Hget : forall op, In op (TinyViT.plan self) ->
            exists v, getitem lr_scales (TinyViT.op_index op) = Ok v).
  { unfold TinyViT.plan. intros op [<-|Hop].
    - eexists. apply (TagFacts.getitem_position rpow decay total 0). lia.
    - apply in_app_or in Hop as [Hop|[<-|[<-|[]]]].
      + apply TagFacts.layers_ops_In in Hop
          as [(k & l & bj & b & Hl & Hb & ->)|(k & l & ds & Hl & Hds & ->)];
          cbn [TinyViT.op_index]; rewrite Hcounts, Nat.add_0_l.
        * eexists. apply TagFacts.getitem_position. eauto.
        * pose proof (TagFacts.sum_take_le (TinyViT.depths self) (S k)).
          destruct (decide (sum (take (S k) (TinyViT.depths self)) = 0)) as [->|Hne].
          -- eexists. by apply TagFacts.getitem_last.
          -- eexists. apply TagFacts.getitem_pred. unfold total. lia.
      + eexists. by apply TagFacts.getitem_last.
      + eexists. by apply TagFacts.getitem_last. }
  destruct (TagFacts.run_ops_spec lr_scales (TinyViT.plan self)
              (TinyViT.lr_scale self) Hget (TagFacts.plan_same_index self))
    as (st' & Hrun & Htag & _).
  destruct (TagFacts.set_layer_lr_decay_run rpow self decay st' Hcounts Hrun)
    as (self' & Hself' & Hlr).
  exists self'. split; [exact Hself'|]. rewrite Hlr. cbn zeta.
  split; [|split; [|split]].
  - intros li l bj b q Hl Hb Hq.
    apply (Htag (TinyViT.Build_tag_op (TinyViT.component_path (TinyViT.Block li bj))
                   (Layer.block_modules b)
                   (Z.of_nat (sum (take li (TinyViT.depths self)) + bj)))).
    + unfold TinyViT.plan. right. apply in_or_app. left.
      apply TagFacts.layers_ops_In. left. exists li, l, bj, b.
      by rewrite Hcounts.
    + apply TagFacts.getitem_position. eauto.
    + exact Hq.
  - intros q Hq.
    apply (Htag (TinyViT.Build_tag_op (TinyViT.component_path TinyViT.Stem)
                   (PatchEmbed.modules (TinyViT.patch_embed self)) 0)).
    + by left.
    + apply (TagFacts.getitem_position rpow decay total 0). lia.
    + exact Hq.
  - intros q Hq. split.
    + destruct Hq as [Hq|Hq].
      * apply (Htag (TinyViT.Build_tag_op (TinyViT.component_path TinyViT.NormHead)
                       NN.LayerNorm (-1))).
        -- unfold TinyViT.plan. right. apply in_or_app. right. by left.
        -- by apply TagFacts.getitem_last.
        -- exact Hq.
      * apply (Htag (TinyViT.Build_tag_op (TinyViT.component_path TinyViT.Head)
                       (TinyViT.head_modules self) (-1))).
        -- unfold TinyViT.plan. right. apply in_or_app. right. right. by left.
        -- by apply TagFacts.getitem_last.
        -- exact Hq.
    + replace (total - (total - 1) - 1) with 0 by lia. apply Hpow0.
  - intros li l ds q Hl Hds Hne Hq.
    pose proof (TagFacts.block_counts_lookup _ _ _ Hl) as Hc. rewrite Hcounts in Hc.
    pose proof (TagFacts.sum_take_lookup _ _ _ Hc) as HS.
    pose proof (TagFacts.sum_take_le (TinyViT.depths self) (S li)).
    assert (0 < length (Layer.blocks l)) by (destruct (Layer.blocks l); simpl; [done|lia]).
    apply (Htag (TinyViT.Build_tag_op (TinyViT.component_path (TinyViT.Downsample li))
                   (PatchMerging.modules ds)
                   (Z.of_nat (sum (take (S li) (TinyViT.depths self))) - 1))).
    + unfold TinyViT.plan. right. apply in_or_app. left.
      apply TagFacts.layers_ops_In. right. exists li, l, ds.
      by rewrite Hcounts.
    + cbn [TinyViT.op_index].
      etransitivity;
        [apply (TagFacts.getitem_pred rpow decay total); unfold total; lia|].
      do 3 f_equal. lia.
    + exact Hq.
Qed.

Lemma lr_scale_by_depth_witness :
  exists self,
    TinyViT.build TinyViT.default_config_1 = Ok self /\
    (forall x, TinyViT.zpow x 0 = 1%Z) /\
    map (fun l => length (Layer.blocks l)) (TinyViT.layers self) = TinyViT.depths self /\
    1 <= sum (TinyViT.depths self) /\
    exists self',
      TinyViT.set_layer_lr_decay TinyViT.zpow self 2%Z = Ok self' /\
      let total := sum (TinyViT.depths self) in
      let scale p := TinyViT.zpow 2%Z (total - p - 1) in
      let position li bj := sum (take li (TinyViT.depths self)) + bj in
      (forall li l bj b q,
         TinyViT.layers self !! li = Some l -> Layer.blocks l !! bj = Some b ->
         In q (NN.named_parameters ["layers"; pretty li; "blocks"; pretty bj]
                 (Layer.block_modules b)) ->
         TinyViT.lr_scale self' !! q = Some (scale (position li bj))) /\
      (forall q,
         In q (NN.named_parameters ["patch_embed"]
                 (PatchEmbed.modules (TinyViT.patch_embed self))) ->
         TinyViT.lr_scale self' !! q = Some (scale 0)) /\
      (forall q,
         In q (NN.named_parameters ["norm_head"] NN.LayerNorm) \/
         In q (NN.named_parameters ["head"] (TinyViT.head_modules self)) ->
         TinyViT.lr_scale self' !! q = Some (scale (total - 1)) /\
         scale (total - 1) = 1%Z) /\
      (forall li l ds q,
         TinyViT.layers self !! li = Some l -> Layer.downsample l = Some ds ->
         Layer.blocks l <> [] ->
         In q (NN.named_parameters ["layers"; pretty li; "downsample"]
                 (PatchMerging.modules ds)) ->
         TinyViT.lr_scale self' !! q =
         Some (scale (position li (length (Layer.blocks l)) - 1))).
Proof.
  eexists. split; [vm_compute; reflexivity|].
  assert (H0 : forall x, TinyViT.zpow x 0 = 1%Z) by (intros x; reflexivity).
  split; [exact H0|]. split; [reflexivity|]. split; [vm_compute; lia|].
  apply (lr_scale_by_depth TinyViT.zpow 1%Z _ 2%Z H0).
  - reflexivity.
  - vm_compute. lia.
Defined.

(** ** More on the tagging pass *)

Module PassFacts.
Import TinyViT TagFacts.

#[local] Arguments NN.apply : simpl never.
#[local] Arguments PatchMerging.modules : simpl never.
#[local] Arguments PatchEmbed.modules : simpl never.
#[local] Arguments Layer.block_modules : simpl never.
#[local] Arguments component_path : simpl never.

(** A function that always raises makes [apply] raise: it is called at
    least once, on the first leaf. *)
Lemma apply_raise {S : Type} (fn : NN.path -> NN.module -> S -> result S) e :
  (forall prefix m st, fn prefix m st = Raise e) ->
  forall m prefix st, NN.apply fn prefix m st = Raise e.
Proof.
  intros Hfn. induction m as [own ch IH] using module_ind. intros prefix st.
  rewrite apply_Mod. destruct ch as [|[n c] ch]; simpl.
  - apply Hfn.
  - inversion IH as [|? ? Hc _]; subst. simpl in Hc. by rewrite Hc.
Qed.

(** The parameters of a [ModuleList] are those of its members, each
    under its position. *)
Lemma In_numbered prefix q ms : forall g : nat -> string,
  In q (flat_map (fun nc : string * NN.module =>
                    NN.named_parameters (prefix ++ [nc.1]) nc.2)
                 (imap (fun i m => (g i, m)) ms)) <->
  exists i m, ms !! i = Some m /\ In q (NN.named_parameters (prefix ++ [g i]) m).
Proof.
  induction ms as [|m ms IH]; intros g; simpl.
  - split; [done|]. intros (i & m & Hi & _). by rewrite lookup_nil in Hi.
  - rewrite in_app_iff, (IH (g ∘ S)). split.
    + intros [Hq|(i & m' & Hi & Hq)].
      * by exists 0, m.
      * by exists (S i), m'.
    + intros ([|i] & m' & Hi & Hq); simpl in Hi.
      * left. by injection Hi as ->.
      * right. by exists i, m'.
Qed.

Lemma In_ModuleList prefix q ms :
  In q (NN.named_parameters prefix (NN.ModuleList ms)) <->
  exists i m, ms !! i = Some m /\
              In q (NN.named_parameters (prefix ++ [pretty i]) m).
Proof.
  unfold NN.ModuleList, NN.numbered. cbn [NN.named_parameters map app].
  rewrite <- (In_numbered prefix q ms pretty).
  assert (Heq : forall l : list (string * NN.module),
            flat_map (fun nc => match nc with
                                | (n, c) => NN.named_parameters (prefix ++ [n]) c
                                end) l =
            flat_map (fun nc : string * NN.module =>
                        NN.named_parameters (prefix ++ [nc.1]) nc.2) l).
  { intros l. apply flat_map_ext. by intros [n c]. }
  by rewrite Heq.
Qed.

Lemma layer_parameters li l q :
  In q (NN.named_parameters ["layers"; pretty li] (Layer.modules l)) <->
  (exists bj b, Layer.blocks l !! bj = Some b /\
     In q (NN.named_parameters (component_path (Block li bj))
             (Layer.block_modules b))) \/
  (exists ds, Layer.downsample l = Some ds /\
     In q (NN.named_parameters (component_path (Downsample li))
             (PatchMerging.modules ds))).
Proof.
  unfold Layer.modules.
  change (NN.named_parameters ["layers"; pretty li] (NN.Mod [] (?b :: ?d)))
    with (NN.named_parameters ["layers"; pretty li; "blocks"] b.2 ++
          flat_map (fun nc : string * NN.module =>
                      match nc with
                      | (n, c) => NN.named_parameters (["layers"; pretty li] ++ [n]) c
                      end) d).
  rewrite in_app_iff. cbn [snd]. rewrite In_ModuleList.
  apply Morphisms_Prop.or_iff_morphism.
  - split.
    + intros (bj & m & Hm & Hq).
      change (map ?f ?x) with (f <$> x) in Hm. rewrite list_lookup_fmap in Hm.
      destruct (Layer.blocks l !! bj) as [b|] eqn:Hb; [|done].
      injection Hm as <-. by exists bj, b.
    + intros (bj & b & Hb & Hq). exists bj, (Layer.block_modules b).
      change (map ?f ?x) with (f <$> x). by rewrite list_lookup_fmap, Hb.
  - destruct (Layer.downsample l) as [ds|]; cbn [flat_map].
    + rewrite app_nil_r. split; [by exists ds|]. by intros (ds' & [= <-] & Hq).
    + split; [done|]. by intros (ds' & [=] & _).
Qed.

Lemma layers_parameters (ls : list Layer.t) q :
  In q (NN.named_parameters ["layers"] (NN.ModuleList (map Layer.modules ls))) <->
  exists op, In op (layers_ops 0 ls 0) /\ In q (op_parameters op).
Proof.
  rewrite In_ModuleList. split.
  - intros (li & m & Hm & Hq).
    change (map ?f ?x) with (f <$> x) in Hm. rewrite list_lookup_fmap in Hm.
    destruct (ls !! li) as [l|] eqn:Hl; [|done]. injection Hm as <-.
    apply (layer_parameters li l q) in Hq
      as [(bj & b & Hb & Hq)|(ds & Hds & Hq)].
    + exists (Build_tag_op (component_path (Block li bj))
                (Layer.block_modules b)
                (Z.of_nat (0 + sum (take li (block_counts ls)) + bj))).
      split; [|exact Hq].
      apply layers_ops_In. left. by exists li, l, bj, b.
    + exists (Build_tag_op (component_path (Downsample li))
                (PatchMerging.modules ds)
                (Z.of_nat (0 + sum (take (S li) (block_counts ls))) - 1)).
      split; [|exact Hq].
      apply layers_ops_In. right. by exists li, l, ds.
  - intros (op & Hop & Hq).
    apply layers_ops_In in Hop
      as [(k & l & bj & b & Hl & Hb & ->)|(k & l & ds & Hl & Hds & ->)];
      exists k, (Layer.modules l);
      (split; [change (map ?f ?x) with (f <$> x); by rewrite list_lookup_fmap, Hl|]);
      apply (layer_parameters k l q).
    + left. by exists bj, b.
    + right. by exists ds.
Qed.

Section Pass.
Context {R : Type}.
Variable rpow : R -> nat -> R.

(** Every step of the traversal finds its scale when there is at least
    one block. *)
Lemma plan_getitem (self : TinyViT.t R) decay :
  block_counts (layers self) = depths self ->
  1 <= sum (depths self) ->
  forall op, In op (plan self) ->
  exists v, getitem (map (fun i => rpow decay (sum (depths self) - i - 1))
                         (range (sum (depths self)))) (op_index op) = Ok v.
Proof.
  intros Hcounts Htotal. unfold plan. intros op [<-|Hop].
  - eexists. apply (getitem_position rpow decay _ 0). lia.
  - apply in_app_or in Hop as [Hop|[<-|[<-|[]]]].
    + apply layers_ops_In in Hop
        as [(k & l & bj & b & Hl & Hb & ->)|(k & l & ds & Hl & Hds & ->)];
        cbn [op_index]; rewrite Hcounts, Nat.add_0_l.
      * eexists. apply getitem_position.
        apply block_counts_lookup in Hl. rewrite Hcounts in Hl.
        apply lookup_lt_Some in Hb.
        pose proof (sum_take_lookup _ _ _ Hl).
        pose proof (sum_take_le (depths self) (S k)). lia.
      * pose proof (sum_take_le (depths self) (S k)).
        destruct (decide (sum (take (S k) (depths self)) = 0)) as [->|Hne].
        -- eexists. by apply getitem_last.
        -- eexists. apply getitem_pred. lia.
    + eexists. by apply getitem_last.
    + eexists. by apply getitem_last.
Qed.

(** The result of the pass, field by field. *)
Lemma set_layer_lr_decay_result (self : TinyViT.t R) decay st' :
  block_counts (layers self) = depths self ->
  run_ops (map (fun i => rpow decay (sum (depths self) - i - 1))
               (range (sum (depths self))))
          (plan self) (lr_scale self) = Ok st' ->
  set_layer_lr_decay rpow self decay =
  Ok {| img_size := img_size self;
        num_classes := num_classes self;
        depths := depths self;
        num_layers := num_layers self;
        mlp_ratio := mlp_ratio self;
        patch_embed := patch_embed self;
        patches_resolution := patches_resolution self;
        layers := layers self;
        norm_head := norm_head self;
        head := head self;
        neck := neck self;
        lr_scale := st';
        param_name := foldl (fun names k => <[k := k]> names) (param_name self)
                            (NN.named_parameters [] (modules self)) |}.
Proof.
  intros Hcounts Hrun. unfold set_layer_lr_decay.
  set (lr_scales := map _ (range (sum (depths self)))) in *.
  unfold plan in Hrun. cbn [run_ops op_index op_prefix op_module] in Hrun.
  destruct (NN.apply (tag lr_scales 0) _ _ (lr_scale self)) as [st1|]; [|done].
  cbn [mbind result_bind] in Hrun |- *.
  rewrite run_ops_app in Hrun. rewrite tag_layers_ops.
  destruct (run_ops lr_scales (layers_ops 0 (layers self) 0) st1) as [st2|]; [|done].
  cbn [mbind result_bind run_ops op_index op_prefix op_module] in Hrun |- *.
  fold (block_counts (layers self)). rewrite Hcounts, Nat.add_0_l, Nat.eqb_refl.
  cbn [assert_ mbind result_bind].
  destruct (NN.apply (tag lr_scales (-1)) _ _ st2) as [st3|]; [|done].
  cbn [mbind result_bind] in Hrun |- *.
  destruct (NN.apply (tag lr_scales (-1)) _ _ st3) as [st4|]; [|done].
  cbn [mbind result_bind] in Hrun |- *. injection Hrun as ->.
  rewrite check_never_raises; [done|].
  intros q Hq. by apply names_lookup.
Qed.

(** Every parameter of the model belongs to a visited component or to
    the neck. *)
Lemma root_parameters (self : TinyViT.t R) q :
  In q (NN.named_parameters [] (modules self)) <->
  (exists op, In op (plan self) /\ In q (op_parameters op)) \/
  In q (NN.named_parameters ["neck"] neck_modules).
Proof.
  unfold modules.
  change (NN.named_parameters [] (NN.Mod [] [(?a, ?ma); (?b, ?mb); (?c, ?mc);
                                             (?d, ?md); (?e, ?me)]))
    with (NN.named_parameters [a] ma ++ NN.named_parameters [b] mb ++
          NN.named_parameters [c] mc ++ NN.named_parameters [d] md ++
          NN.named_parameters [e] me ++ []).
  rewrite app_nil_r, !in_app_iff, layers_parameters. unfold plan. split.
  - intros [Hq|[(op & Hop & Hq)|[Hq|[Hq|Hq]]]]; [left..|by right].
    + exists (Build_tag_op (component_path Stem)
                (PatchEmbed.modules (patch_embed self)) 0).
      split; [by left|exact Hq].
    + exists op. split; [|done]. right. apply in_or_app. by left.
    + exists (Build_tag_op (component_path NormHead) NN.LayerNorm (-1)).
      split; [|exact Hq]. right. apply in_or_app. right. by left.
    + exists (Build_tag_op (component_path Head) (head_modules self) (-1)).
      split; [|exact Hq]. right. apply in_or_app. right. right. by left.
  - intros [(op & [<-|Hop] & Hq)|Hq].
    + by left.
    + apply in_app_or in Hop as [Hop|[<-|[<-|[]]]].
      * right. left. by exists op.
      * by do 2 right; left.
      * by do 3 right; left.
    + by do 4 right.
Qed.

(** The pass succeeds on a model with at least one block whose stages
    hold [depths[i]] blocks; its tags are those of the run of steps. *)
Lemma pass_succeeds (self : TinyViT.t R) decay :
  block_counts (layers self) = depths self ->
  1 <= sum (depths self) ->
  exists self',
    set_layer_lr_decay rpow self decay = Ok self' /\
    param_name self' =
      foldl (fun names k => <[k := k]> names) (param_name self)
            (NN.named_parameters [] (modules self)) /\
    (forall op v q, In op (plan self) ->
       getitem (map (fun i => rpow decay (sum (depths self) - i - 1))
                    (range (sum (depths self)))) (op_index op) = Ok v ->
       In q (op_parameters op) -> lr_scale self' !! q = Some v) /\
    (forall q, (forall op, In op (plan self) -> ~ In q (op_parameters op)) ->
       lr_scale self' !! q = lr_scale self !! q).
Proof.
  intros Hcounts Htotal.
  destruct (run_ops_spec _ (plan self) (lr_scale self)
              (plan_getitem self decay Hcounts Htotal) (plan_same_index self))
    as (st' & Hrun & Htag & Hframe).
  eexists. split; [by apply set_layer_lr_decay_result|].
  cbn [lr_scale param_name]. done.
Qed.

(** What [build] stores and what it leaves empty. *)
Lemma build_fields (cfg : config R) self :
  build cfg = Ok self ->
  depths self = cfg_depths cfg /\ img_size self = cfg_img_size cfg /\
  lr_scale self = ∅ /\ param_name self = ∅.
Proof.
  unfold build. intros Hb.
  destruct (getitem (cfg_embed_dims cfg) 0); [|done]. simpl in Hb.
  destruct (mapM _ _); [|done]. simpl in Hb.
  destruct (getitem (cfg_embed_dims cfg) (-1)); [|done]. simpl in Hb.
  by injection Hb as <-.
Qed.

Lemma getitem_In {X} (l : list X) i x : getitem l i = Ok x -> In x l.
Proof.
  unfold getitem. destruct (_ && _); [|done].
  destruct (l !! _) as [y|] eqn:Hy; [|done]. intros [= <-].
  apply list_elem_of_In. by eapply list_elem_of_lookup_2.
Qed.

Lemma names_fold_lookup (ps : list NN.path) q :
  forall names : gmap NN.path NN.path,
  foldl (fun names k => <[k := k]> names) names ps !! q =
  if decide (In q ps) then Some q else names !! q.
Proof.
  induction ps as [|p ps IH]; intros names; simpl; [done|].
  rewrite IH. destruct (decide (In q ps)) as [Hin|Hnin].
  - rewrite decide_True; [done|by right].
  - destruct (decide (p = q)) as [->|Hne].
    + rewrite decide_True by (by left). apply lookup_insert_eq.
    + rewrite decide_False by (intros [?|?]; done). by apply lookup_insert_ne.
Qed.

(** No visited component lies under [neck]. *)
Lemma neck_not_visited (self : TinyViT.t R) q op :
  In q (NN.named_parameters ["neck"] neck_modules) ->
  In op (plan self) -> ~ In q (op_parameters op).
Proof.
  intros Hq Hop Hq'. destruct (plan_components self op Hop) as (c & Hc & _).
  apply named_parameters_prefix in Hq as [k ->].
  apply named_parameters_prefix in Hq' as [k' Hk']. rewrite Hc in Hk'.
  by destruct c.
Qed.

End Pass.

End PassFacts.

(** X1. The tagging pass writes [lr_scale] only below [patch_embed],
    [layers.<i>.blocks.<j>], [layers.<i>.downsample], [norm_head] and
    [head]: on every other name the attribute is what it was before, and
    in particular the six parameters of the neck, which belong to the
    model, are left as they were. *)
Theorem lr_scale_only_under_visited_components {R : Type} (rpow : R -> nat -> R)
    (self : TinyViT.t R) (decay : R) :
  TinyViT.block_counts (TinyViT.layers self) = TinyViT.depths self ->
  1 <= sum (TinyViT.depths self) ->
  exists self',
    TinyViT.set_layer_lr_decay rpow self decay = Ok self' /\
    (forall q, (forall c, ~ TinyViT.component_path c `prefix_of` q) ->
       TinyViT.lr_scale self' !! q = TinyViT.lr_scale self !! q) /\
    length (NN.named_parameters ["neck"] TinyViT.neck_modules) = 6 /\
    (forall q, In q (NN.named_parameters ["neck"] TinyViT.neck_modules) ->
       In q (NN.named_parameters [] (TinyViT.modules self)) /\
       TinyViT.lr_scale self' !! q = TinyViT.lr_scale self !! q).
Proof.
  intros Hcounts Htotal.
  destruct (PassFacts.pass_succeeds rpow self decay Hcounts Htotal)
    as (self' & Hself' & _ & _ & Hframe).
  exists self'. split; [exact Hself'|]. split; [|split; [reflexivity|]].
  - intros q Hq. apply Hframe. intros op Hop Hin.
    destruct (TagFacts.plan_components self op Hop) as (c & Hc & _).
    apply TagFacts.named_parameters_prefix in Hin. rewrite Hc in Hin.
    exact (Hq c Hin).
  - intros q Hq. split.
    + apply PassFacts.root_parameters. by right.
    + apply Hframe. intros op. by apply PassFacts.neck_not_visited.
Qed.

Lemma lr_scale_only_under_visited_components_witness :
  TinyViT.block_counts (TinyViT.layers TinyViT.default_model) =
    TinyViT.depths TinyViT.default_model /\
  1 <= sum (TinyViT.depths TinyViT.default_model) /\
  exists self',
    TinyViT.set_layer_lr_decay TinyViT.zpow TinyViT.default_model 2%Z = Ok self' /\
    (forall q, (forall c, ~ TinyViT.component_path c `prefix_of` q) ->
       TinyViT.lr_scale self' !! q = TinyViT.lr_scale TinyViT.default_model !! q) /\
    length (NN.named_parameters ["neck"] TinyViT.neck_modules) = 6 /\
    (forall q, In q (NN.named_parameters ["neck"] TinyViT.neck_modules) ->
       In q (NN.named_parameters [] (TinyViT.modules TinyViT.default_model)) /\
       TinyViT.lr_scale self' !! q = TinyViT.lr_scale TinyViT.default_model !! q).
Proof.
  split; [reflexivity|]. split; [vm_compute; lia|].
  apply (lr_scale_only_under_visited_components TinyViT.zpow
           TinyViT.default_model 2%Z).
  - reflexivity.
  - vm_compute. lia.
Defined.

(** X2. After the pass every parameter of the model that is not one of
    the neck's carries a scale, and the scale is an entry of
    [lr_scales], that is [decay_rate ** (depth - i - 1)] for some
    [i < depth]. *)
Theorem every_parameter_outside_neck_tagged {R : Type} (rpow : R -> nat -> R)
    (self : TinyViT.t R) (decay : R) :
  TinyViT.block_counts (TinyViT.layers self) = TinyViT.depths self ->
  1 <= sum (TinyViT.depths self) ->
  exists self',
    TinyViT.set_layer_lr_decay rpow self decay = Ok self' /\
    forall q, In q (NN.named_parameters [] (TinyViT.modules self)) ->
      ~ In q (NN.named_parameters ["neck"] TinyViT.neck_modules) ->
      exists i, i < sum (TinyViT.depths self) /\
        TinyViT.lr_scale self' !! q =
        Some (rpow decay (sum (TinyViT.depths self) - i - 1)).
Proof.
  intros Hcounts Htotal.
  destruct (PassFacts.pass_succeeds rpow self decay Hcounts Htotal)
    as (self' & Hself' & _ & Htag & _).
  exists self'. split; [exact Hself'|]. intros q Hq Hneck.
  apply PassFacts.root_parameters in Hq as [(op & Hop & Hq)|Hq]; [|done].
  destruct (PassFacts.plan_getitem rpow self decay Hcounts Htotal op Hop)
    as [v Hv].
  pose proof (PassFacts.getitem_In _ _ _ Hv) as Hin.
  apply in_map_iff in Hin as (i & <- & Hi). apply in_seq in Hi.
  exists i. split; [lia|]. by apply (Htag op).
Qed.

Lemma every_parameter_outside_neck_tagged_witness :
  TinyViT.block_counts (TinyViT.layers TinyViT.default_model) =
    TinyViT.depths TinyViT.default_model /\
  1 <= sum (TinyViT.depths TinyViT.default_model) /\
  exists self',
    TinyViT.set_layer_lr_decay TinyViT.zpow TinyViT.default_model 2%Z = Ok self' /\
    forall q,
      In q (NN.named_parameters [] (TinyViT.modules TinyViT.default_model)) ->
      ~ In q (NN.named_parameters ["neck"] TinyViT.neck_modules) ->
      exists i, i < sum (TinyViT.depths TinyViT.default_model) /\
        TinyViT.lr_scale self' !! q =
        Some (TinyViT.zpow 2%Z (sum (TinyViT.depths TinyViT.default_model) - i - 1)).
Proof.
  split; [reflexivity|]. split; [vm_compute; lia|].
  apply (every_parameter_outside_neck_tagged TinyViT.zpow
           TinyViT.default_model 2%Z).
  - reflexivity.
  - vm_compute. lia.
Defined.

(** X3. Lines 421-422: after the pass, [param_name] of every parameter
    of the model, the neck's included, is the parameter's own name from
    the root; no other entry is touched. *)
Theorem param_name_is_own_name {R : Type} (rpow : R -> nat -> R)
    (self : TinyViT.t R) (decay : R) :
  TinyViT.block_counts (TinyViT.layers self) = TinyViT.depths self ->
  1 <= sum (TinyViT.depths self) ->
  exists self',
    TinyViT.set_layer_lr_decay rpow self decay = Ok self' /\
    (forall q, In q (NN.named_parameters [] (TinyViT.modules self)) ->
       TinyViT.param_name self' !! q = Some q) /\
    (forall q, ~ In q (NN.named_parameters [] (TinyViT.modules self)) ->
       TinyViT.param_name self' !! q = TinyViT.param_name self !! q).
Proof.
  intros Hcounts Htotal.
  destruct (PassFacts.pass_succeeds rpow self decay Hcounts Htotal)
    as (self' & Hself' & Hnames & _).
  exists self'. split; [exact Hself'|]. rewrite Hnames.
  split; intros q Hq; rewrite PassFacts.names_fold_lookup.
  - by rewrite decide_True.
  - by rewrite decide_False.
Qed.

Lemma param_name_is_own_name_witness :
  TinyViT.block_counts (TinyViT.layers TinyViT.default_model) =
    TinyViT.depths TinyViT.default_model /\
  1 <= sum (TinyViT.depths TinyViT.default_model) /\
  exists self',
    TinyViT.set_layer_lr_decay TinyViT.zpow TinyViT.default_model 2%Z = Ok self' /\
    (forall q,
       In q (NN.named_parameters [] (TinyViT.modules TinyViT.default_model)) ->
       TinyViT.param_name self' !! q = Some q) /\
    (forall q,
       ~ In q (NN.named_parameters [] (TinyViT.modules TinyViT.default_model)) ->
       TinyViT.param_name self' !! q =
       TinyViT.param_name TinyViT.default_model !! q).
Proof.
  split; [reflexivity|]. split; [vm_compute; lia|].
  apply (param_name_is_own_name TinyViT.zpow TinyViT.default_model 2%Z).
  - reflexivity.
  - vm_compute. lia.
Defined.

(** X4. A configuration whose stages [build] accepts gives a model
    exactly when it has at least one block: with [sum(depths) = 0] the
    list [lr_scales] is empty and line 411 raises [IndexError] at
    [lr_scales[0]]; with one block or more the whole of [__init__]
    returns. *)
Theorem init_needs_a_block {R : Type} (rpow : R -> nat -> R)
    (cfg : TinyViT.config R) (self : TinyViT.t R) :
  TinyViT.build cfg = Ok self ->
  (sum (TinyViT.cfg_depths cfg) = 0 ->
   TinyViT.__init__ rpow cfg = Raise IndexError) /\
  (1 <= sum (TinyViT.cfg_depths cfg) ->
   exists self', TinyViT.__init__ rpow cfg = Ok self').
Proof.
  intros Hb. destruct (PassFacts.build_fields cfg self Hb) as (Hd & _).
  unfold TinyViT.__init__. rewrite Hb. cbn [mbind Py.result_bind].
  split; intros Hsum.
  - unfold TinyViT.set_layer_lr_decay. rewrite Hd, Hsum.
    rewrite (PassFacts.apply_raise _ IndexError); [done|]. by intros.
  - rewrite <- Hd in Hsum.
    destruct (PassFacts.pass_succeeds rpow self (TinyViT.cfg_layer_lr_decay cfg)
                (BuildFacts.build_block_counts cfg self Hb) Hsum)
      as (self' & Hself' & _).
    by exists self'.
Qed.

Lemma init_needs_a_block_witness :
  TinyViT.build TinyViT.default_config_1 = Ok TinyViT.default_model /\
  (sum (TinyViT.cfg_depths TinyViT.default_config_1) = 0 ->
   TinyViT.__init__ TinyViT.zpow TinyViT.default_config_1 = Raise IndexError) /\
  (1 <= sum (TinyViT.cfg_depths TinyViT.default_config_1) ->
   exists self', TinyViT.__init__ TinyViT.zpow TinyViT.default_config_1 = Ok self').
Proof.
  split; [vm_compute; reflexivity|].
  apply (init_needs_a_block TinyViT.zpow TinyViT.default_config_1
           TinyViT.default_model).
  vm_compute; reflexivity.
Defined.

(** X5. Lines 416-417: the downsample transform of stage [li] receives
    [lr_scales[i - 1]] for the number [i] of blocks visited so far, the
    blocks of stage [li] included. When blocks precede it this is the
    scale of the block visited last, whichever stage that block belongs
    to; when none does, the index is -1 and the transform receives the
    last entry of the list, [decay_rate ** 0]. *)
Theorem downsample_scale {R : Type} (rpow : R -> nat -> R)
    (self : TinyViT.t R) (decay : R) :
  TinyViT.block_counts (TinyViT.layers self) = TinyViT.depths self ->
  1 <= sum (TinyViT.depths self) ->
  exists self',
    TinyViT.set_layer_lr_decay rpow self decay = Ok self' /\
    forall li l ds q,
      TinyViT.layers self !! li = Some l -> Layer.downsample l = Some ds ->
      In q (NN.named_parameters ["layers"; pretty li; "downsample"]
              (PatchMerging.modules ds)) ->
      let visited := sum (take (S li) (TinyViT.depths self)) in
      TinyViT.lr_scale self' !! q =
      Some (rpow decay (if visited =? 0 then 0
                        else sum (TinyViT.depths self) - visited)).
Proof.
  intros Hcounts Htotal.
  destruct (PassFacts.pass_succeeds rpow self decay Hcounts Htotal)
    as (self' & Hself' & _ & Htag & _).
  exists self'. split; [exact Hself'|]. intros li l ds q Hl Hds Hq. cbn zeta.
  pose proof (TagFacts.sum_take_le (TinyViT.depths self) (S li)) as Hle.
  set (visited := sum (take (S li) (TinyViT.depths self))) in *.
  assert (Hv : visited = sum (take (S li) (TinyViT.depths self))) by done.
  clearbody visited.
  apply (Htag (TinyViT.Build_tag_op (TinyViT.component_path (TinyViT.Downsample li))
                 (PatchMerging.modules ds) (Z.of_nat visited - 1))).
  - unfold TinyViT.plan. right. apply in_or_app. left.
    apply TagFacts.layers_ops_In. right. exists li, l, ds.
    by rewrite Hcounts, Hv.
  - cbn [TinyViT.op_index].
    destruct (Nat.eqb_spec visited 0) as [->|Hne].
    + etransitivity; [by apply (TagFacts.getitem_last rpow decay)|].
      do 2 f_equal. lia.
    + etransitivity;
        [apply (TagFacts.getitem_pred rpow decay (sum (TinyViT.depths self)));
         lia|].
      do 2 f_equal. lia.
  - exact Hq.
Qed.

Lemma downsample_scale_witness :
  TinyViT.block_counts (TinyViT.layers TinyViT.default_model) =
    TinyViT.depths TinyViT.default_model /\
  1 <= sum (TinyViT.depths TinyViT.default_model) /\
  exists self',
    TinyViT.set_layer_lr_decay TinyViT.zpow TinyViT.default_model 2%Z = Ok self' /\
    forall li l ds q,
      TinyViT.layers TinyViT.default_model !! li = Some l ->
      Layer.downsample l = Some ds ->
      In q (NN.named_parameters ["layers"; pretty li; "downsample"]
              (PatchMerging.modules ds)) ->
      let visited := sum (take (S li) (TinyViT.depths TinyViT.default_model)) in
      TinyViT.lr_scale self' !! q =
      Some (TinyViT.zpow 2%Z
              (if visited =? 0 then 0
               else sum (TinyViT.depths TinyViT.default_model) - visited)).
Proof.
  split; [reflexivity|]. split; [vm_compute; lia|].
  apply (downsample_scale TinyViT.zpow TinyViT.default_model 2%Z).
  - reflexivity.
  - vm_compute. lia.
Defined.

(** ** More on the assembly of the stages *)

Module StageFacts.
Import TinyViT.

Section Stages.
Context {R : Type}.

(** What one iteration of the loop of lines 359-379 has read when it
    returns. *)
Lemma build_layer_inv (cfg : config R) pr K i l :
  build_layer cfg pr K i = Ok l ->
  exists dim depth out_dim,
    cfg_embed_dims cfg !! i = Some dim /\
    cfg_depths cfg !! i = Some depth /\
    getitem (cfg_embed_dims cfg)
      (Z.min (Z.of_nat i + 1) (Z.of_nat (length (cfg_embed_dims cfg)) - 1))
    = Ok out_dim /\
    Layer.dim l = dim /\ Layer.depth l = depth /\
    Layer.input_resolution l = stage_resolution pr i /\
    Layer.downsample l =
      Layer.make_downsample (i <? K - 1) (stage_resolution pr i) dim out_dim /\
    if i =? 0
    then Layer.blocks l =
         map (fun _ => Layer.MBConv_block
                         (MBConv.__init__ dim dim (cfg_mbconv_expand_ratio cfg)))
             (range depth)
    else exists nh ws blocks,
           cfg_num_heads cfg !! i = Some nh /\
           cfg_window_sizes cfg !! i = Some ws /\
           mapM (fun _ => TinyViTBlock.__init__ dim (stage_resolution pr i) nh ws
                            (cfg_mlp_ratio cfg) (cfg_local_conv_size cfg))
                (range depth) = Ok blocks /\
           Layer.blocks l = map Layer.TinyViT_block blocks.
Proof.
  unfold build_layer. intros Hb.
  destruct (getitem (cfg_embed_dims cfg) (Z.of_nat i)) as [dim|] eqn:Hdim; [|done].
  destruct (getitem (cfg_depths cfg) (Z.of_nat i)) as [depth|] eqn:Hdepth; [|done].
  cbn [mbind result_bind] in Hb.
  apply BuildFacts.getitem_Ok_lookup in Hdim, Hdepth.
  destruct (getitem (cfg_embed_dims cfg) _) as [out_dim|] eqn:Hout; [|done].
  cbn [mbind result_bind] in Hb.
  exists dim, depth, out_dim. do 3 (split; [done|]).
  destruct (i =? 0).
  - by injection Hb as <-.
  - destruct (getitem (cfg_num_heads cfg) _) as [nh|] eqn:Hnh; [|done].
    destruct (getitem (cfg_window_sizes cfg) _) as [ws|] eqn:Hws; [|done].
    cbn [mbind result_bind] in Hb. unfold Layer.BasicLayer in Hb.
    destruct (mapM _ (range depth)) as [blocks|] eqn:Hblocks; [|done].
    apply BuildFacts.getitem_Ok_lookup in Hnh, Hws.
    injection Hb as <-. cbn. do 4 (split; [done|]).
    by exists nh, ws, blocks.
Qed.

(** [l[min(i + 1, len(l) - 1)]] is [l[i + 1]] when that entry
    exists. *)
Lemma getitem_min_next {X} (l : list X) i x y :
  l !! S i = Some x ->
  getitem l (Z.min (Z.of_nat i + 1) (Z.of_nat (length l) - 1)) = Ok y -> y = x.
Proof.
  intros Hx Hy. pose proof (lookup_lt_Some _ _ _ Hx) as Hlt.
  replace (Z.min _ _) with (Z.of_nat (S i)) in Hy by lia.
  apply BuildFacts.getitem_Ok_lookup in Hy. congruence.
Qed.

End Stages.

End StageFacts.

(** X6. Lines 359-379: a model that [__init__] assembles has one stage
    per entry of [depths]. Stage [i] has the width [embed_dims[i]] and
    [depths[i]] blocks; the blocks of stage 0 are MBConv blocks of that
    width, those of a later stage are TinyViT blocks built with
    [num_heads[i]] and [window_sizes[i]] (entry 0 of these two lists is
    never read). Every stage but the last has a downsample transform,
    from [embed_dims[i]] to [embed_dims[i + 1]]; the last stage has
    none. *)
Theorem stages_as_configured {R : Type} (cfg : TinyViT.config R)
    (self : TinyViT.t R) :
  TinyViT.build cfg = Ok self ->
  let K := length (TinyViT.cfg_depths cfg) in
  length (TinyViT.layers self) = K /\
  forall i l, TinyViT.layers self !! i = Some l ->
    exists dim depth,
      TinyViT.cfg_embed_dims cfg !! i = Some dim /\
      TinyViT.cfg_depths cfg !! i = Some depth /\
      Layer.dim l = dim /\ length (Layer.blocks l) = depth /\
      (i = 0 ->
       forall b, In b (Layer.blocks l) ->
         b = Layer.MBConv_block
               (MBConv.__init__ dim dim (TinyViT.cfg_mbconv_expand_ratio cfg))) /\
      (i <> 0 ->
       exists nh ws,
         TinyViT.cfg_num_heads cfg !! i = Some nh /\
         TinyViT.cfg_window_sizes cfg !! i = Some ws /\
         forall b, In b (Layer.blocks l) ->
           exists blk,
             b = Layer.TinyViT_block blk /\
             TinyViTBlock.__init__ dim (Layer.input_resolution l) nh ws
               (TinyViT.cfg_mlp_ratio cfg) (TinyViT.cfg_local_conv_size cfg)
             = Ok blk) /\
      (i = K - 1 -> Layer.downsample l = None) /\
      (i < K - 1 ->
       exists out_dim,
         TinyViT.cfg_embed_dims cfg !! S i = Some out_dim /\
         Layer.downsample l =
         Some (PatchMerging.__init__ (Layer.input_resolution l) dim out_dim)).
Proof.
  intros Hb K.
  destruct (BuildFacts.build_layers cfg self Hb) as (HK & _ & Hlen & Hl).
  split; [by rewrite Hlen, HK|]. intros i l Hi.
  pose proof (Hl i l Hi) as Hbl.
  destruct (StageFacts.build_layer_inv cfg _ _ i l Hbl)
    as (dim & depth & out_dim & Hdim & Hdepth & Hout & Hd & _ & Hres & Hds & Hblocks).
  exists dim, depth. do 3 (split; [done|]).
  split; [|split; [|split; [|split]]].
  - apply BuildFacts.build_layer_blocks in Hbl. congruence.
  - intros ->. cbn [Nat.eqb] in Hblocks. rewrite Hblocks. intros b Hin.
    by apply in_map_iff in Hin as (? & <- & _).
  - intros Hne. destruct (Nat.eqb_spec i 0) as [?|_]; [done|].
    destruct Hblocks as (nh & ws & blocks & Hnh & Hws & Hm & Hblocks).
    exists nh, ws. do 2 (split; [done|]). rewrite Hblocks. intros b Hin.
    apply in_map_iff in Hin as (blk & <- & Hin). exists blk. split; [done|].
    apply list_elem_of_In, list_elem_of_lookup_1 in Hin as [bj Hbj].
    destruct (BuildFacts.mapM_Ok_lookup _ _ _ Hm bj blk Hbj) as (? & _ & Hblk).
    by rewrite Hres.
  - intros ->. rewrite Hds, HK. fold K.
    by destruct (Nat.ltb_spec (K - 1) (K - 1)) as [?|_]; [lia|].
  - intros Hlt. rewrite Hds, HK, Hres. fold K.
    destruct (Nat.ltb_spec i (K - 1)) as [_|?]; [|lia].
    assert (Hnext : is_Some (TinyViT.layers self !! S i)).
    { apply lookup_lt_is_Some. rewrite Hlen, HK. fold K. lia. }
    destruct Hnext as [l' Hl'].
    destruct (StageFacts.build_layer_inv cfg _ _ _ l' (Hl _ _ Hl'))
      as (dim' & _ & _ & Hdim' & _).
    exists dim'. split; [done|].
    by rewrite (StageFacts.getitem_min_next _ _ _ _ Hdim' Hout).
Qed.

Lemma stages_as_configured_witness :
  TinyViT.build TinyViT.default_config_1 = Ok TinyViT.default_model /\
  let cfg := TinyViT.default_config_1 in
  let K := length (TinyViT.cfg_depths cfg) in
  length (TinyViT.layers TinyViT.default_model) = K /\
  forall i l, TinyViT.layers TinyViT.default_model !! i = Some l ->
    exists dim depth,
      TinyViT.cfg_embed_dims cfg !! i = Some dim /\
      TinyViT.cfg_depths cfg !! i = Some depth /\
      Layer.dim l = dim /\ length (Layer.blocks l) = depth /\
      (i = 0 ->
       forall b, In b (Layer.blocks l) ->
         b = Layer.MBConv_block
               (MBConv.__init__ dim dim (TinyViT.cfg_mbconv_expand_ratio cfg))) /\
      (i <> 0 ->
       exists nh ws,
         TinyViT.cfg_num_heads cfg !! i = Some nh /\
         TinyViT.cfg_window_sizes cfg !! i = Some ws /\
         forall b, In b (Layer.blocks l) ->
           exists blk,
             b = Layer.TinyViT_block blk /\
             TinyViTBlock.__init__ dim (Layer.input_resolution l) nh ws
               (TinyViT.cfg_mlp_ratio cfg) (TinyViT.cfg_local_conv_size cfg)
             = Ok blk) /\
      (i = K - 1 -> Layer.downsample l = None) /\
      (i < K - 1 ->
       exists out_dim,
         TinyViT.cfg_embed_dims cfg !! S i = Some out_dim /\
         Layer.downsample l =
         Some (PatchMerging.__init__ (Layer.input_resolution l) dim out_dim)).
Proof.
  split; [vm_compute; reflexivity|].
  apply (stages_as_configured TinyViT.default_config_1 TinyViT.default_model).
  vm_compute; reflexivity.
Defined.

(** ** The offset table in closed form *)

Module OffsetFacts.
Import Attention AttentionFacts.

(** The first row of the double loop pairs the origin with every
    point, so the first [r0 * r1] offsets met are the points
    themselves. *)
Lemma pair_offsets_prefix r0 r1 :
  exists rest,
    pair_offsets (product (range r0) (range r1)) =
    product (range r0) (range r1) ++ rest.
Proof.
  set (points := product (range r0) (range r1)).
  destruct points as [|p points'] eqn:Hp; [by exists []|].
  assert (Hp0 : p = (0, 0)).
  { destruct r0 as [|r0]; [done|]. destruct r1 as [|r1].
    - unfold points, product, range in Hp. simpl in Hp.
      clear -Hp. exfalso. revert Hp. generalize 1.
      induction r0 as [|r0 IH]; intros n; simpl; [done|]. apply IH.
    - unfold points, product, range in Hp. simpl in Hp. congruence. }
  subst p. unfold pair_offsets. cbn [flat_map]. eexists. f_equal.
  rewrite <- (map_id ((0, 0) :: points')) at 2. apply map_ext.
  intros [x y]. unfold offset. cbn [fst snd]. by rewrite !abs_diff_0_l.
Qed.

(** The bucket of the offset (a, b) is its row-major position. *)
Lemma lookup_bucket r0 r1 a b :
  a < r0 -> b < r1 ->
  (build_offsets (product (range r0) (range r1))).1 !! (a, b) = Some (a * r1 + b).
Proof.
  intros Ha Hb. set (points := product (range r0) (range r1)).
  assert (Hlen : length points = r0 * r1)
    by (unfold points, range; by rewrite length_product, !length_seq).
  assert (Hk : a * r1 + b < length points) by (rewrite Hlen; nia).
  assert (Hnd : NoDup points)
    by (apply NoDup_product; apply NoDup_ListNoDup, List.seq_NoDup).
  assert (Hlook : points !! (a * r1 + b) = Some (a, b)).
  { destruct (lookup_lt_is_Some_2 points _ Hk) as [x Hx]. rewrite Hx. f_equal.
    rewrite <- (nth_lookup_Some _ _ (0, 0) _ Hx). by apply nth_product_range. }
  destruct (pair_offsets_prefix r0 r1) as [rest Hrest]. fold points in Hrest.
  pose proof (build_offsets_inv points) as [_ Hfirst _ _].
  rewrite Hrest in Hfirst.
  rewrite (Hfirst (a * r1 + b) (a, b)).
  - f_equal. rewrite take_app_le by lia.
    rewrite size_list_to_set.
    + rewrite length_take. lia.
    + eapply sublist_NoDup; [done|apply sublist_take].
  - by rewrite lookup_app_l.
  - rewrite take_app_le by lia. intros Hin.
    apply elem_of_take in Hin as (j & Hj & Hjlt).
    pose proof (NoDup_lookup _ _ _ _ Hnd Hj Hlook). lia.
Qed.

End OffsetFacts.

(** X7. For every resolution (r0, r1), square or not, and a non-zero
    [key_dim] (line 186 divides by a power of it), [Attention.__init__]
    returns; the table has [r0 * r1] buckets, one column of
    [attention_biases] each, and the index buffer has the closed form
    [idxs[i][j] = |i // r1 - j // r1| * r1 + |i % r1 - j % r1|]: the
    bucket of an offset is the row-major position of the offset in the
    grid, so every index is below the number of buckets. *)
Theorem bias_index_closed_form {R : Type} (zero : R) (dim kd nh ar r0 r1 : nat) :
  1 <= kd ->
  exists a,
    Attention.__init__ zero dim kd nh ar [r0; r1] = Ok a /\
    let N := r0 * r1 in
    let idxs := Attention.attention_bias_idxs a in
    shape (Attention.attention_biases a) = [nh; N] /\
    shape idxs = [N; N] /\
    forall i j, i < N -> j < N ->
      item 0 idxs [i; j] =
      Attention.abs_diff (i / r1) (j / r1) * r1 +
      Attention.abs_diff (i mod r1) (j mod r1) /\
      item 0 idxs [i; j] < N.
Proof.
  intros Hkd. eexists. split; [by apply AttentionFacts.init_ok|].
  set (points := product (range r0) (range r1)) in *.
  assert (HN : length points = r0 * r1).
  { unfold points, range. by rewrite AttentionFacts.length_product, !length_seq. }
  cbn [Attention.attention_biases Attention.attention_bias_idxs shape data].
  split; [unfold points; by rewrite AttentionFacts.size_build_offsets|].
  split; [done|].
  intros i j Hi Hj. assert (r1 <> 0) by lia.
  assert (Hrow : forall k, k < r0 * r1 -> k / r1 < r0)
    by (intros k Hk; apply Nat.Div0.div_lt_upper_bound; lia).
  pose proof (Nat.mod_upper_bound i r1).
  pose proof (Nat.mod_upper_bound j r1).
  pose proof (AttentionFacts.abs_diff_lt (i / r1) (j / r1) r0 (Hrow i Hi) (Hrow j Hj)).
  pose proof (AttentionFacts.abs_diff_lt (i mod r1) (j mod r1) r1).
  assert (Hitem : item 0 (Tensor.Build [r0 * r1; r0 * r1]
                            (Attention.build_offsets points).2) [i; j] =
                  Attention.abs_diff (i / r1) (j / r1) * r1 +
                  Attention.abs_diff (i mod r1) (j mod r1)).
  { unfold item. cbn [shape data ravel Tensor.numel foldr].
    replace (i * (r0 * r1 * 1) + (j * 1 + 0)) with (i * length points + j)
      by (rewrite HN; lia).
    rewrite (AttentionFacts.nth_build_offsets_idxs points i j (0, 0))
      by (rewrite HN; lia).
    unfold points.
    rewrite !AttentionFacts.nth_product_range_flat by done.
    unfold Attention.lookup_offset, Attention.offset. cbn [fst snd].
    rewrite OffsetFacts.lookup_bucket; [done|done|auto]. }
  rewrite Hitem. split; [done|]. nia.
Qed.

Lemma bias_index_closed_form_witness :
  1 <= 32 /\
  exists a,
    Attention.__init__ 0%Z 64 32 2 1 [2; 3] = Ok a /\
    let N := 2 * 3 in
    let idxs := Attention.attention_bias_idxs a in
    shape (Attention.attention_biases a) = [2; N] /\
    shape idxs = [N; N] /\
    forall i j, i < N -> j < N ->
      item 0 idxs [i; j] =
      Attention.abs_diff (i / 3) (j / 3) * 3 +
      Attention.abs_diff (i mod 3) (j mod 3) /\
      item 0 idxs [i; j] < N.
Proof.
  split; [lia|]. apply (bias_index_closed_form 0%Z 64 32 2 1 2 3). lia.
Defined.

(** ** Attention.train called twice *)

Module TrainFacts.
Import Attention.

Section Train.
Context {R : Type}.
Variable zero : R.

(** On a freshly constructed object the expanded bias matrix can be
    computed: every index is below the number of buckets. *)
Lemma index_columns_fresh nh r0 r1 :
  let points := product (range r0) (range r1) in
  exists v,
    index_columns zero
      (Tensor.Build [nh; size (build_offsets points).1]
         (replicate (nh * size (build_offsets points).1) zero))
      (Tensor.Build [r0 * r1; r0 * r1] (build_offsets points).2) = Ok v /\
    shape v = [nh; r0 * r1; r0 * r1].
Proof.
  intros points. unfold index_columns. cbn [shape data].
  assert (Hall : forallb (fun k => k <? size (build_offsets points).1)
                         (build_offsets points).2 = true).
  { apply forallb_forall. intros v Hv. apply Nat.ltb_lt.
    pose proof (AttentionFacts.build_offsets_idxs_lt points) as Hlt.
    rewrite List.Forall_forall in Hlt. by apply Hlt. }
  rewrite Hall. by eexists.
Qed.

End Train.

End TrainFacts.

(** X8. Lines 211-217: [train(True)] on an [Attention] object that has
    no cache, such as a freshly constructed one, takes the [else]
    branch and stores the expanded bias matrix in [ab]; a second
    [train(True)] deletes it again and gives back the fresh object. So
    successive calls of [train(True)] alternate between the two
    states, while [train(False)] stores the cache from either of
    them. *)
Theorem train_true_alternates {R : Type} (zero : R) (dim kd nh ar r0 r1 : nat) :
  1 <= kd ->
  exists a s1 v,
    Attention.__init__ zero dim kd nh ar [r0; r1] = Ok a /\
    Attention.ab a = None /\
    Attention.train zero true a = Ok s1 /\
    Attention.ab s1 = Some v /\
    Attention.index_columns zero (Attention.attention_biases a)
      (Attention.attention_bias_idxs a) = Ok v /\
    Attention.training s1 = true /\
    Attention.train zero true s1 = Ok a /\
    (exists e, Attention.train zero false a = Ok e /\ Attention.ab e = Some v) /\
    (exists e, Attention.train zero false s1 = Ok e /\ Attention.ab e = Some v).
Proof.
  intros Hkd.
  destruct (TrainFacts.index_columns_fresh zero nh r0 r1) as (v & Hv & _).
  eexists _, _, v. split; [by apply AttentionFacts.init_ok|].
  unfold Attention.train.
  cbn [Attention.ab Attention.attention_biases Attention.attention_bias_idxs
       Attention.training andb].
  rewrite !bool_decide_eq_false_2 by (by intros [? ?]).
  cbn [andb]. rewrite Hv. cbn [mbind Py.result_bind mret Py.result_ret].
  split; [done|]. split; [done|]. split; [done|]. split; [done|].
  split; [done|].
  cbn [Attention.ab Attention.attention_biases Attention.attention_bias_idxs
       Attention.training Attention.num_heads Attention.key_dim Attention.nh_kd
       Attention.d Attention.dh Attention.attn_ratio andb].
  rewrite bool_decide_eq_true_2 by (by eexists).
  split; [done|]. rewrite Hv. cbn [mbind Py.result_bind mret Py.result_ret].
  split; by eexists.
Qed.

Lemma train_true_alternates_witness :
  1 <= 32 /\
  exists a s1 v,
    Attention.__init__ 0%Z 64 32 2 1 [2; 3] = Ok a /\
    Attention.ab a = None /\
    Attention.train 0%Z true a = Ok s1 /\
    Attention.ab s1 = Some v /\
    Attention.index_columns 0%Z (Attention.attention_biases a)
      (Attention.attention_bias_idxs a) = Ok v /\
    Attention.training s1 = true /\
    Attention.train 0%Z true s1 = Ok a /\
    (exists e, Attention.train 0%Z false a = Ok e /\ Attention.ab e = Some v) /\
    (exists e, Attention.train 0%Z false s1 = Ok e /\ Attention.ab e = Some v).
Proof.
  split; [lia|]. apply (train_true_alternates 0%Z 64 32 2 1 2 3). lia.
Defined.

(** ** When the forward pass returns *)

Module ShapeOk.

#[local] Arguments Nat.mul : simpl never.
#[local] Arguments Nat.div : simpl never.
#[local] Arguments Nat.modulo : simpl never.
#[local] Arguments N.mul : simpl never.
#[local] Arguments N.of_nat : simpl never.

Lemma shape_view_ok s' s :
  Tensor.numel s' = Tensor.numel s -> Shape.view s' s = Ok s'.
Proof.
  intros H. unfold Shape.view. by rewrite !ShapeFacts.numel_of_nat, H, N.eqb_refl.
Qed.

Lemma view_infer_last_ok d0 d1 d2 c s :
  d0 * d1 * d2 <> 0 -> Tensor.numel s = d0 * d1 * d2 * c ->
  Shape.view_infer_last d0 d1 d2 s = Ok [d0; d1; d2; c].
Proof.
  intros Hne Hs. unfold Shape.view_infer_last. rewrite !ShapeFacts.numel_of_nat, Hs.
  cbn [Tensor.numel foldr].
  replace (d0 * (d1 * (d2 * 1))) with (d0 * d1 * d2) by lia.
  rewrite <- Nat2N.inj_mod, <- Nat2N.inj_div, Nat2N.id.
  rewrite (Nat.mul_comm _ c), Nat.Div0.mod_mul, Nat.div_mul by done.
  destruct (N.eqb_spec (N.of_nat (d0 * d1 * d2)) 0) as [?|_]; [lia|]. done.
Qed.

(** The inferred size, when [view] with [-1] returns. *)
Lemma view_infer_last_inv d0 d1 d2 s y :
  Shape.view_infer_last d0 d1 d2 s = Ok y ->
  exists c, y = [d0; d1; d2; c] /\ Tensor.numel s = d0 * d1 * d2 * c /\
            d0 * d1 * d2 <> 0.
Proof.
  unfold Shape.view_infer_last. rewrite !ShapeFacts.numel_of_nat.
  cbn [Tensor.numel foldr].
  replace (d0 * (d1 * (d2 * 1))) with (d0 * d1 * d2) by lia.
  destruct (N.eqb_spec (N.of_nat (d0 * d1 * d2)) 0) as [?|Hne]; [done|].
  rewrite <- Nat2N.inj_mod, <- Nat2N.inj_div, Nat2N.id.
  destruct (N.eqb_spec (N.of_nat (Tensor.numel s mod (d0 * d1 * d2))) 0)
    as [Hmod|?]; [|done].
  cbn [orb negb]. intros [= <-]. eexists. split; [done|]. split; [|lia].
  assert (Hmod' : Tensor.numel s mod (d0 * d1 * d2) = 0) by lia.
  pose proof (Nat.div_mod_eq (Tensor.numel s) (d0 * d1 * d2)). lia.
Qed.

Lemma add_same_refl s : Shape.add_same s s = Ok s.
Proof. unfold Shape.add_same. by rewrite decide_True. Qed.

Lemma conv2d_ok a b ks st pad B H W :
  0 < st -> ks <= H + 2 * pad -> ks <= W + 2 * pad ->
  Shape.conv2d a b ks st pad [B; a; H; W] =
  Ok [B; b; (H + 2 * pad - ks) / st + 1; (W + 2 * pad - ks) / st + 1].
Proof.
  intros Hst HH HW. unfold Shape.conv2d.
  rewrite Nat.eqb_refl.
  destruct (Nat.ltb_spec 0 st); [|lia].
  destruct (Nat.leb_spec ks (H + 2 * pad)); [|lia].
  destruct (Nat.leb_spec ks (W + 2 * pad)); [|lia]. done.
Qed.

(** A freshly constructed convolution with batch normalisation is in
    training mode: it returns when the convolution does and leaves more
    than one value per channel, here because the batch is not a single
    sample or because one side of the output grid is at least 2. *)
Lemma Conv2d_BN_ok a b ks st pad g B H W :
  0 < st -> ks <= H + 2 * pad -> ks <= W + 2 * pad ->
  B <> 1 \/ st <= H + 2 * pad - ks \/ st <= W + 2 * pad - ks ->
  Conv2d_BN.forward_shape (Conv2d_BN.__init__ a b ks st pad g) [B; a; H; W] =
  Ok [B; b; (H + 2 * pad - ks) / st + 1; (W + 2 * pad - ks) / st + 1].
Proof.
  intros Hst HH HW Hbn. unfold Conv2d_BN.forward_shape.
  cbn [Conv2d_BN.__init__ Conv2d_BN.a Conv2d_BN.b Conv2d_BN.ks Conv2d_BN.stride
       Conv2d_BN.pad Conv2d_BN.training].
  rewrite conv2d_ok by done. cbn [mbind result_bind Shape.batch_norm2d andb].
  destruct (Nat.eqb_spec B 1) as [HB|_]; [|done].
  destruct (Nat.eqb_spec ((H + 2 * pad - ks) / st + 1) 1) as [HH1|_]; [|done].
  destruct (Nat.eqb_spec ((W + 2 * pad - ks) / st + 1) 1) as [HW1|_]; [|done].
  exfalso.
  assert (HH0 : (H + 2 * pad - ks) / st = 0) by lia.
  assert (HW0 : (W + 2 * pad - ks) / st = 0) by lia.
  apply Nat.div_small_iff in HH0, HW0; lia.
Qed.

Lemma iadd_refl x : Shape.iadd x x = Ok x.
Proof.
  unfold Shape.iadd. rewrite Nat.leb_refl. cbn [andb].
  assert (Hall : forall l : list nat,
            forallb (fun d_o : nat * nat => (d_o.2 =? d_o.1) || (d_o.2 =? 1))
                    (zip l l) = true).
  { induction l as [|d l IH]; [done|].
    cbn [zip zip_with forallb fst snd]. by rewrite Nat.eqb_refl, IH. }
  by rewrite Hall.
Qed.

Lemma scale_check_ok kd : 1 <= kd -> Attention.scale_check kd = Ok tt.
Proof.
  intros Hkd. unfold Attention.scale_check.
  by destruct (Nat.eqb_spec kd 0) as [?|_]; [lia|].
Qed.

Lemma PatchEmbed_ok c n resolution B H W :
  5 <= H -> 5 <= W ->
  PatchEmbed.forward_shape (PatchEmbed.__init__ c n resolution) [B; c; H; W] =
  Ok [B; n; (H + 3) / 4; (W + 3) / 4].
Proof.
  intros HH HW. unfold PatchEmbed.forward_shape.
  cbn [PatchEmbed.__init__ PatchEmbed.seq_0 PatchEmbed.seq_2].
  rewrite Conv2d_BN_ok by lia. cbn [mbind result_bind].
  pose proof (Nat.div_le_lower_bound (H + 2 * 1 - 3) 2 2 ltac:(lia) ltac:(lia)).
  rewrite Conv2d_BN_ok by lia.
  assert (E : forall X, 1 <= X ->
            ((X + 2 * 1 - 3) / 2 + 1 + 2 * 1 - 3) / 2 + 1 = (X + 3) / 4).
  { intros [|Y] HX; [lia|].
    replace (S Y + 2 * 1 - 3) with Y by lia.
    replace (Y / 2 + 1 + 2 * 1 - 3) with (Y / 2) by lia.
    rewrite Nat.Div0.div_div.
    replace (S Y + 3) with (Y + 1 * 4) by lia.
    by rewrite Nat.div_add by lia. }
  by rewrite !E by lia.
Qed.

Lemma MBConv_ok c r B H W :
  1 <= H -> 1 <= W -> B <> 1 \/ 2 <= H \/ 2 <= W ->
  MBConv.forward_shape (MBConv.__init__ c c r) [B; c; H; W] = Ok [B; c; H; W].
Proof.
  intros HH HW Hbn. unfold MBConv.forward_shape.
  cbn [MBConv.__init__ MBConv.conv1 MBConv.conv2 MBConv.conv3].
  rewrite Conv2d_BN_ok by lia. cbn [mbind result_bind].
  rewrite !Nat.div_1_r.
  replace (H + 2 * 0 - 1 + 1) with H by lia.
  replace (W + 2 * 0 - 1 + 1) with W by lia.
  rewrite Conv2d_BN_ok by lia. cbn [mbind result_bind].
  rewrite !Nat.div_1_r.
  replace (H + 2 * 1 - 3 + 1) with H by lia.
  replace (W + 2 * 1 - 3 + 1) with W by lia.
  rewrite Conv2d_BN_ok by lia. cbn [mbind result_bind].
  rewrite !Nat.div_1_r.
  replace (H + 2 * 0 - 1 + 1) with H by lia.
  replace (W + 2 * 0 - 1 + 1) with W by lia.
  apply iadd_refl.
Qed.

Lemma stride_c_cases out_dim :
  PatchMerging.stride_c out_dim = 1 \/ PatchMerging.stride_c out_dim = 2.
Proof. unfold PatchMerging.stride_c. case_bool_decide; auto. Qed.

Lemma PatchMerging_convs_ok res dim out_dim B H W :
  3 <= H -> 3 <= W ->
  (x ← Conv2d_BN.forward_shape
         (PatchMerging.conv1 (PatchMerging.__init__ res dim out_dim)) [B; dim; H; W];
   x ← Conv2d_BN.forward_shape
         (PatchMerging.conv2 (PatchMerging.__init__ res dim out_dim)) x;
   x ← Conv2d_BN.forward_shape
         (PatchMerging.conv3 (PatchMerging.__init__ res dim out_dim)) x;
   PatchMerging.flatten_transpose x) =
  Ok [B; ((H - 1) / PatchMerging.stride_c out_dim + 1) *
         ((W - 1) / PatchMerging.stride_c out_dim + 1); out_dim].
Proof.
  intros HH HW.
  cbn [PatchMerging.__init__ PatchMerging.conv1 PatchMerging.conv2
       PatchMerging.conv3].
  pose proof (stride_c_cases out_dim) as Hs.
  rewrite Conv2d_BN_ok by lia. cbn [mbind result_bind].
  rewrite !Nat.div_1_r.
  replace (H + 2 * 0 - 1 + 1) with H by lia.
  replace (W + 2 * 0 - 1 + 1) with W by lia.
  rewrite Conv2d_BN_ok by lia. cbn [mbind result_bind].
  replace (H + 2 * 1 - 3) with (H - 1) by lia.
  replace (W + 2 * 1 - 3) with (W - 1) by lia.
  pose proof (Nat.div_le_lower_bound (H - 1) (PatchMerging.stride_c out_dim) 1
                ltac:(lia) ltac:(lia)).
  rewrite Conv2d_BN_ok by lia. cbn [mbind result_bind PatchMerging.flatten_transpose].
  rewrite !Nat.div_1_r. do 3 f_equal; lia.
Qed.

Lemma PatchMerging_4d_ok res dim out_dim B H W :
  3 <= H -> 3 <= W ->
  PatchMerging.forward_shape (PatchMerging.__init__ res dim out_dim) [B; dim; H; W] =
  Ok [B; ((H - 1) / PatchMerging.stride_c out_dim + 1) *
         ((W - 1) / PatchMerging.stride_c out_dim + 1); out_dim].
Proof.
  intros HH HW. unfold PatchMerging.forward_shape.
  cbn [length Nat.eqb mbind result_bind].
  by apply PatchMerging_convs_ok.
Qed.

Lemma PatchMerging_tokens_ok dim out_dim B H W :
  1 <= B -> 3 <= H -> 3 <= W ->
  PatchMerging.forward_shape (PatchMerging.__init__ (H, W) dim out_dim)
    [B; H * W; dim] =
  Ok [B; ((H - 1) / PatchMerging.stride_c out_dim + 1) *
         ((W - 1) / PatchMerging.stride_c out_dim + 1); out_dim].
Proof.
  intros HB HH HW. unfold PatchMerging.forward_shape.
  cbn [length Nat.eqb PatchMerging.__init__ PatchMerging.input_resolution hd].
  rewrite (view_infer_last_ok B H W dim);
    [|nia|cbn [Tensor.numel foldr]; lia].
  cbn [mbind result_bind].
  change (permute_list [0; 3; 1; 2] [B; H; W; dim]) with [B; dim; H; W].
  by apply (PatchMerging_convs_ok (H, W)).
Qed.

(** On a token grid the transform returns only when the number of
    tokens is that of its [input_resolution]. *)
Lemma PatchMerging_tokens_inv dim out_dim B H W L y :
  1 <= B -> 1 <= dim ->
  PatchMerging.forward_shape (PatchMerging.__init__ (H, W) dim out_dim)
    [B; L; dim] = Ok y ->
  L = H * W /\ 1 <= H /\ 1 <= W /\
  y = [B; ((H - 1) / PatchMerging.stride_c out_dim + 1) *
          ((W - 1) / PatchMerging.stride_c out_dim + 1); out_dim].
Proof.
  intros HB Hdim. unfold PatchMerging.forward_shape.
  cbn [length Nat.eqb PatchMerging.__init__ PatchMerging.input_resolution hd].
  intros Hy.
  ShapeFacts.bind_inv_as Hy v0 Hv0.
  destruct (Shape.view_infer_last B H W [B; L; dim]) as [v|] eqn:Hv;
    [|discriminate Hv0].
  apply view_infer_last_inv in Hv as (c & -> & Hc & Hne).
  cbn [mbind result_bind] in Hv0. injection Hv0 as <-.
  change (permute_list [0; 3; 1; 2] [B; H; W; c]) with [B; c; H; W] in Hy.
  ShapeFacts.bind_inv_as Hy x1 Hx1.
  apply ShapeFacts.Conv2d_BN_conv in Hx1.
  cbn [PatchMerging.__init__ PatchMerging.conv1 Conv2d_BN.__init__
       Conv2d_BN.a Conv2d_BN.b Conv2d_BN.ks Conv2d_BN.stride Conv2d_BN.pad] in Hx1.
  apply ShapeFacts.conv2d_inv in Hx1 as [-> ->].
  cbn [Tensor.numel foldr] in Hc.
  assert (HH : 1 <= H) by (destruct H; lia).
  assert (HW : 1 <= W) by (destruct W; lia).
  split; [apply (Nat.mul_cancel_l _ _ (B * dim)); nia|].
  do 2 (split; [done|]).
  rewrite !Nat.div_1_r in Hy.
  replace (H + 2 * 0 - 1 + 1) with H in Hy by lia.
  replace (W + 2 * 0 - 1 + 1) with W in Hy by lia.
  ShapeFacts.bind_inv_as Hy x2 Hx2.
  apply ShapeFacts.Conv2d_BN_conv in Hx2.
  cbn [PatchMerging.__init__ PatchMerging.conv2 Conv2d_BN.__init__
       Conv2d_BN.a Conv2d_BN.b Conv2d_BN.ks Conv2d_BN.stride Conv2d_BN.pad] in Hx2.
  apply ShapeFacts.conv2d_inv in Hx2 as [_ ->].
  replace (H + 2 * 1 - 3) with (H - 1) in Hy by lia.
  replace (W + 2 * 1 - 3) with (W - 1) in Hy by lia.
  ShapeFacts.bind_inv_as Hy x3 Hx3.
  apply ShapeFacts.Conv2d_BN_conv in Hx3.
  cbn [PatchMerging.__init__ PatchMerging.conv3 Conv2d_BN.__init__
       Conv2d_BN.a Conv2d_BN.b Conv2d_BN.ks Conv2d_BN.stride Conv2d_BN.pad] in Hx3.
  apply ShapeFacts.conv2d_inv in Hx3 as [_ ->].
  cbn [PatchMerging.flatten_transpose] in Hy. injection Hy as <-.
  rewrite !Nat.div_1_r. do 3 f_equal; lia.
Qed.

Lemma Mlp_ok d h B N :
  Mlp.forward_shape (Mlp.__init__ d h) [B; N; d] = Ok [B; N; d].
Proof.
  unfold Mlp.forward_shape, Shape.layer_norm, Shape.linear.
  cbn [Mlp.__init__ Mlp.in_features Mlp.hidden_features Mlp.out_features last].
  rewrite Nat.eqb_refl. cbn [mbind result_bind last]. rewrite Nat.eqb_refl.
  cbn [mbind result_bind last removelast app]. by rewrite Nat.eqb_refl.
Qed.

Lemma Attention_ok dim kd nh ws B :
  1 <= B -> 1 <= ws -> 1 <= nh ->
  Attention.forward_shape (Attention.arch_init dim kd nh 1 (ws, ws))
    [B; ws * ws; dim] = Ok [B; ws * ws; dim].
Proof.
  intros HB Hws Hnh.
  unfold Attention.forward_shape, Shape.layer_norm, Shape.linear.
  cbn [Attention.arch_init Attention.arch_dim Attention.arch_num_heads
       Attention.arch_key_dim Attention.arch_nh_kd Attention.arch_d
       Attention.arch_dh Attention.arch_points fst snd last].
  rewrite !Nat.eqb_refl. cbn [mbind result_bind last removelast app].
  rewrite !Nat.eqb_refl. cbn [mbind result_bind last removelast app].
  rewrite (view_infer_last_ok B (ws * ws) nh (kd + kd + 1 * kd));
    [|nia|cbn [Tensor.numel foldr]; nia].
  cbn [mbind result_bind last]. rewrite !Nat.eqb_refl.
  cbn [mbind result_bind orb].
  rewrite shape_view_ok by (cbn [Tensor.numel foldr]; nia).
  cbn [mbind result_bind last removelast app]. by rewrite Nat.eqb_refl.
Qed.

(** The window transform keeps the shape for every grid, whether or
    not the window size divides its sides. *)
Lemma window_transform_shape_ok dim nh ws r lcs kd B H W :
  1 <= B -> 1 <= H -> 1 <= W -> 1 <= ws -> 1 <= nh ->
  TinyViTBlock.window_transform_shape
    {| TinyViTBlock.dim := dim;
       TinyViTBlock.input_resolution := (H, W);
       TinyViTBlock.num_heads := nh;
       TinyViTBlock.window_size := ws;
       TinyViTBlock.mlp_ratio := r;
       TinyViTBlock.attn := Attention.arch_init dim kd nh 1 (ws, ws);
       TinyViTBlock.mlp := Mlp.__init__ dim (dim * r);
       TinyViTBlock.local_conv :=
         Conv2d_BN.__init__ dim dim lcs 1 (lcs / 2) dim |}
    B H W dim (H * W) [B; H * W; dim] = Ok [B; H * W; dim].
Proof.
  intros HB HH HW Hws Hnh. unfold TinyViTBlock.window_transform_shape.
  cbn [TinyViTBlock.window_size TinyViTBlock.attn].
  destruct ((H =? ws) && (W =? ws)) eqn:Hfast.
  { apply andb_true_iff in Hfast as [->%Nat.eqb_eq ->%Nat.eqb_eq].
    by apply Attention_ok. }
  clear Hfast.
  rewrite shape_view_ok by (cbn [Tensor.numel foldr]; lia). cbn [mbind result_bind].
  repeat (rewrite WindowFacts.py_mod_ok by lia; cbn [mbind result_bind]).
  repeat (rewrite WindowFacts.py_floordiv_ok by lia; cbn [mbind result_bind]).
  pose proof (TensorFacts.pad_to_multiple H ws ltac:(lia)) as HpH.
  pose proof (TensorFacts.pad_to_multiple W ws ltac:(lia)) as HpW.
  set (pb := (ws - H mod ws) mod ws) in *.
  set (pr := (ws - W mod ws) mod ws) in *.
  set (nH := (H + pb) / ws) in *. set (nW := (W + pr) / ws) in *.
  clearbody nH nW. clearbody pb pr.
  assert (Hpad : (if negb (pb =? 0) || negb (pr =? 0)
                  then [B; H + pb; W + pr; dim] else [B; H; W; dim]) =
                 [B; H + pb; W + pr; dim]).
  { destruct (Nat.eqb_spec pb 0) as [->|_], (Nat.eqb_spec pr 0) as [->|_];
      cbn [negb orb]; try done. by rewrite !Nat.add_0_r. }
  rewrite Hpad, <- HpH, <- HpW.
  rewrite shape_view_ok by (cbn [Tensor.numel foldr]; lia). cbn [mbind result_bind].
  change (permute_list (transposition 6 2 3) [B; nH; ws; nW; ws; dim])
    with [B; nH; nW; ws; ws; dim].
  rewrite shape_view_ok by (cbn [Tensor.numel foldr]; lia). cbn [mbind result_bind].
  assert (1 <= nH) by (destruct nH; lia).
  assert (1 <= nW) by (destruct nW; lia).
  rewrite Attention_ok by (try done; nia). cbn [mbind result_bind].
  rewrite shape_view_ok by (cbn [Tensor.numel foldr]; lia). cbn [mbind result_bind].
  change (permute_list (transposition 6 2 3) [B; nH; nW; ws; ws; dim])
    with [B; nH; ws; nW; ws; dim].
  rewrite shape_view_ok by (cbn [Tensor.numel foldr]; lia). cbn [mbind result_bind].
  rewrite HpH, HpW.
  apply shape_view_ok. cbn [Tensor.numel foldr].
  destruct (Nat.eqb_spec pb 0) as [->|_], (Nat.eqb_spec pr 0) as [->|_];
    cbn [negb orb Tensor.numel foldr];
    rewrite ?Nat.add_0_r, ?Nat.min_l by lia; lia.
Qed.

Lemma TinyViTBlock_ok dim nh ws r lcs B H W blk :
  1 <= B -> 1 <= H -> 1 <= W -> B <> 1 \/ 2 <= H \/ 2 <= W ->
  1 <= ws -> 1 <= nh -> Nat.odd lcs = true ->
  TinyViTBlock.__init__ dim (H, W) nh ws r lcs = Ok blk ->
  TinyViTBlock.forward_shape blk [B; H * W; dim] = Ok [B; H * W; dim].
Proof.
  intros HB HH HW Hbn Hws Hnh Hodd. unfold TinyViTBlock.__init__.
  rewrite WindowFacts.py_floordiv_ok by lia. cbn [mbind result_bind mret result_ret].
  destruct (Attention.scale_check (dim / nh)) as [[]|]; [|done].
  cbn [mbind result_bind mret result_ret].
  intros [= <-]. unfold TinyViTBlock.forward_shape.
  cbn [TinyViTBlock.input_resolution TinyViTBlock.mlp TinyViTBlock.local_conv].
  rewrite Nat.eqb_refl. cbn [assert_ mbind result_bind].
  rewrite window_transform_shape_ok by done. cbn [mbind result_bind].
  rewrite add_same_refl. cbn [mbind result_bind].
  change (permute_list (transposition 3 1 2) [B; H * W; dim])
    with [B; dim; H * W].
  rewrite shape_view_ok by (cbn [Tensor.numel foldr]; lia). cbn [mbind result_bind].
  assert (Hks : 2 * (lcs / 2) + 1 = lcs).
  { pose proof (Nat.div_mod_eq lcs 2) as E.
    rewrite <- Nat.bit0_mod, Nat.bit0_odd, Hodd in E. simpl Nat.b2n in E. lia. }
  rewrite Conv2d_BN_ok by lia. cbn [mbind result_bind].
  rewrite !Nat.div_1_r.
  replace (H + 2 * (lcs / 2) - lcs + 1) with H by lia.
  replace (W + 2 * (lcs / 2) - lcs + 1) with W by lia.
  rewrite shape_view_ok by (cbn [Tensor.numel foldr]; lia). cbn [mbind result_bind].
  change (permute_list (transposition 3 1 2) [B; dim; H * W])
    with [B; H * W; dim].
  rewrite Mlp_ok. cbn [mbind result_bind]. apply add_same_refl.
Qed.

Lemma blocks_all_ok (blks : list Layer.block) x :
  (forall b, In b blks -> Layer.block_forward_shape b x = Ok x) ->
  Layer.blocks_forward_shape blks x = Ok x.
Proof.
  induction blks as [|b blks IH]; intros Hb; [done|].
  cbn [Layer.blocks_forward_shape]. rewrite (Hb b) by (by left).
  cbn [mbind result_bind]. apply IH. intros b' Hb'. apply Hb. by right.
Qed.

Section Stage.
Context {R : Type}.

(** One stage of a model that [build] assembled, on an input of the
    shape the stage expects: a (B, dim, H, W) tensor for stage 0, a
    token grid of H * W tokens for a later stage, H x W being the
    declared resolution of the stage. *)
Lemma stage_forward_ok (cfg : TinyViT.config R) pr K i l B H W dim :
  TinyViT.build_layer cfg pr K i = Ok l ->
  TinyViT.stage_resolution pr i = (H, W) ->
  TinyViT.cfg_embed_dims cfg !! i = Some dim ->
  1 <= B -> 3 <= H -> 3 <= W ->
  (forall nh, TinyViT.cfg_num_heads cfg !! i = Some nh -> 1 <= nh) ->
  (forall ws, TinyViT.cfg_window_sizes cfg !! i = Some ws -> 1 <= ws) ->
  Nat.odd (TinyViT.cfg_local_conv_size cfg) = true ->
  Layer.forward_shape l (if i =? 0 then [B; dim; H; W] else [B; H * W; dim]) =
  match Layer.downsample l with
  | Some ds =>
      Ok [B; ((H - 1) / PatchMerging.stride_c (PatchMerging.out_dim ds) + 1) *
             ((W - 1) / PatchMerging.stride_c (PatchMerging.out_dim ds) + 1);
          PatchMerging.out_dim ds]
  | None => Ok (if i =? 0 then [B; dim; H; W] else [B; H * W; dim])
  end.
Proof.
  intros Hl Hres Hdim HB HH HW Hnh Hws Hodd.
  destruct (StageFacts.build_layer_inv cfg pr K i l Hl)
    as (dim' & depth & out_dim & Hdim' & _ & _ & Hd & _ & _ & Hds & Hblocks).
  rewrite Hdim in Hdim'. injection Hdim' as <-. rewrite Hres in Hds, Hblocks.
  unfold Layer.forward_shape.
  rewrite blocks_all_ok.
  - cbn [mbind result_bind]. rewrite Hds. unfold Layer.make_downsample.
    destruct (i <? K - 1); [|done]. cbn [PatchMerging.__init__ PatchMerging.out_dim].
    destruct (i =? 0).
    + by apply PatchMerging_4d_ok.
    + by apply PatchMerging_tokens_ok.
  - intros b Hb. destruct (i =? 0).
    + rewrite Hblocks in Hb. apply in_map_iff in Hb as (? & <- & _).
      cbn [Layer.block_forward_shape]. apply MBConv_ok; lia.
    + destruct Hblocks as (nh & ws & blocks & Hnh' & Hws' & Hm & Hblocks).
      rewrite Hblocks in Hb. apply in_map_iff in Hb as (blk & <- & Hin).
      apply list_elem_of_In, list_elem_of_lookup_1 in Hin as [bj Hbj].
      destruct (BuildFacts.mapM_Ok_lookup _ _ _ Hm bj blk Hbj) as (? & _ & Hblk).
      cbn [Layer.block_forward_shape].
      apply (TinyViTBlock_ok dim nh ws (TinyViT.cfg_mlp_ratio cfg)
               (TinyViT.cfg_local_conv_size cfg)); auto; lia.
Qed.

Lemma getitem_lookup {X} (l : list X) i x :
  l !! i = Some x -> getitem l (Z.of_nat i) = Ok x.
Proof.
  intros Hx. pose proof (lookup_lt_Some _ _ _ Hx) as Hlt. unfold getitem.
  destruct (Z.ltb_spec (Z.of_nat i) 0) as [?|_]; [lia|].
  destruct (Z.leb_spec 0 (Z.of_nat i)) as [_|?]; [|lia].
  destruct (Z.ltb_spec (Z.of_nat i) (Z.of_nat (length l))) as [_|?]; [|lia].
  cbn [andb]. by rewrite Nat2Z.id, Hx.
Qed.

Lemma getitem_in_range {X} (l : list X) z :
  (- Z.of_nat (length l) <= z < Z.of_nat (length l))%Z ->
  exists x, getitem l z = Ok x.
Proof.
  intros Hz. unfold getitem.
  set (j := if (z <? 0)%Z then (Z.of_nat (length l) + z)%Z else z).
  assert (Hj : (0 <= j < Z.of_nat (length l))%Z)
    by (unfold j; destruct (Z.ltb_spec z 0); lia).
  destruct (Z.leb_spec 0 j) as [_|?]; [|lia].
  destruct (Z.ltb_spec j (Z.of_nat (length l))) as [_|?]; [|lia].
  cbn [andb].
  destruct (lookup_lt_is_Some_2 l (Z.to_nat j) ltac:(lia)) as [x ->]. by exists x.
Qed.

Lemma build_layer_ok (cfg : TinyViT.config R) pr K i :
  i < length (TinyViT.cfg_embed_dims cfg) ->
  i < length (TinyViT.cfg_depths cfg) ->
  (i <> 0 ->
   exists nh ws, TinyViT.cfg_num_heads cfg !! i = Some nh /\
                 TinyViT.cfg_window_sizes cfg !! i = Some ws /\
                 forall dim, TinyViT.cfg_embed_dims cfg !! i = Some dim ->
                             1 <= nh <= dim) ->
  exists l, TinyViT.build_layer cfg pr K i = Ok l.
Proof.
  intros Hi Hi' Hattn. unfold TinyViT.build_layer.
  destruct (lookup_lt_is_Some_2 _ _ Hi) as [dim Hdim].
  destruct (lookup_lt_is_Some_2 _ _ Hi') as [depth Hdepth].
  rewrite (getitem_lookup _ _ _ Hdim), (getitem_lookup _ _ _ Hdepth).
  cbn [mbind result_bind].
  destruct (getitem_in_range (TinyViT.cfg_embed_dims cfg)
              (Z.min (Z.of_nat i + 1)
                 (Z.of_nat (length (TinyViT.cfg_embed_dims cfg)) - 1)))
    as [out_dim ->]; [lia|].
  cbn [mbind result_bind]. destruct (Nat.eqb_spec i 0) as [_|Hne]; [by eexists|].
  destruct (Hattn Hne) as (nh & ws & Hnh & Hws & Hpos).
  specialize (Hpos dim Hdim).
  rewrite (getitem_lookup _ _ _ Hnh), (getitem_lookup _ _ _ Hws).
  cbn [mbind result_bind]. unfold Layer.BasicLayer.
  destruct (TagFacts.mapM_Ok_all
              (fun _ : nat => TinyViTBlock.__init__ dim
                                (TinyViT.stage_resolution pr i) nh ws
                                (TinyViT.cfg_mlp_ratio cfg)
                                (TinyViT.cfg_local_conv_size cfg))
              (range depth)) as [blocks ->]; [|by eexists].
  intros _ _. unfold TinyViTBlock.__init__.
  rewrite WindowFacts.py_floordiv_ok by lia. cbn [mbind result_bind].
  rewrite scale_check_ok by (apply Nat.div_str_pos; lia). by eexists.
Qed.

(** [build] returns as soon as every stage finds its entries in the
    lists of the configuration and every attention stage has at least
    one head and no more heads than channels. *)
Lemma build_ok (cfg : TinyViT.config R) :
  TinyViT.cfg_embed_dims cfg <> [] ->
  length (TinyViT.cfg_depths cfg) <= length (TinyViT.cfg_embed_dims cfg) ->
  (forall i, 1 <= i < length (TinyViT.cfg_depths cfg) ->
     exists nh ws, TinyViT.cfg_num_heads cfg !! i = Some nh /\
                   TinyViT.cfg_window_sizes cfg !! i = Some ws /\
                   forall dim, TinyViT.cfg_embed_dims cfg !! i = Some dim ->
                               1 <= nh <= dim) ->
  exists self, TinyViT.build cfg = Ok self.
Proof.
  intros Hne Hlen Hattn. unfold TinyViT.build.
  destruct (getitem_in_range (TinyViT.cfg_embed_dims cfg) 0) as [e0 ->].
  { destruct (TinyViT.cfg_embed_dims cfg); [done|]. cbn [length]. lia. }
  cbn [mbind result_bind].
  destruct (TagFacts.mapM_Ok_all
              (TinyViT.build_layer cfg
                 (PatchEmbed.patches_resolution
                    (PatchEmbed.__init__ (TinyViT.cfg_in_chans cfg) e0
                       (TinyViT.cfg_img_size cfg)))
                 (length (TinyViT.cfg_depths cfg)))
              (range (length (TinyViT.cfg_depths cfg)))) as [ls ->].
  { intros i Hi. apply in_seq in Hi. apply build_layer_ok; [lia..|].
    intros Hi0. apply Hattn. lia. }
  cbn [mbind result_bind].
  destruct (getitem_in_range (TinyViT.cfg_embed_dims cfg) (-1)) as [e1 ->].
  { destruct (TinyViT.cfg_embed_dims cfg); [done|]. cbn [length]. lia. }
  by eexists.
Qed.

(** The stem and the neck of an assembled model. *)
Lemma build_stem_neck (cfg : TinyViT.config R) self :
  TinyViT.build cfg = Ok self ->
  exists e0,
    getitem (TinyViT.cfg_embed_dims cfg) 0 = Ok e0 /\
    TinyViT.patch_embed self =
      PatchEmbed.__init__ (TinyViT.cfg_in_chans cfg) e0 (TinyViT.cfg_img_size cfg) /\
    getitem (TinyViT.cfg_embed_dims cfg) (-1) = Ok (TinyViT.neck self).
Proof.
  unfold TinyViT.build. intros Hb.
  destruct (getitem (TinyViT.cfg_embed_dims cfg) 0) as [e0|]; [|done].
  cbn [mbind result_bind] in Hb.
  destruct (mapM _ _); [|done]. cbn [mbind result_bind] in Hb.
  destruct (getitem (TinyViT.cfg_embed_dims cfg) (-1)) as [e1|]; [|done].
  cbn [mbind result_bind] in Hb. injection Hb as <-. by exists e0.
Qed.

(** A four-stage model for 1024 x 1024 images whose first two
    transitions halve the grid and whose last one keeps it. *)
Lemma built_forward_1024 (cfg : TinyViT.config R) self d0 d1 d2 d3 B :
  TinyViT.build cfg = Ok self ->
  TinyViT.cfg_img_size cfg = 1024 ->
  TinyViT.cfg_embed_dims cfg = [d0; d1; d2; d3] ->
  length (TinyViT.cfg_depths cfg) = 4 ->
  Forall (fun nh => 1 <= nh) (TinyViT.cfg_num_heads cfg) ->
  Forall (fun ws => 1 <= ws) (TinyViT.cfg_window_sizes cfg) ->
  Nat.odd (TinyViT.cfg_local_conv_size cfg) = true ->
  PatchMerging.stride_c d1 = 2 -> PatchMerging.stride_c d2 = 2 ->
  PatchMerging.stride_c d3 = 1 ->
  1 <= B ->
  TinyViT.forward_shape self [B; TinyViT.cfg_in_chans cfg; 1024; 1024] =
  Ok [B; 256; 64; 64].
Proof.
  intros Hb Himg Hdims HK Hheads Hwins Hodd Hs1 Hs2 Hs3 HB.
  destruct (BuildFacts.build_layers cfg self Hb) as (HnK & Hpr & Hlen & Hl).
  destruct (build_stem_neck cfg self Hb) as (e0 & He0 & Hstem & Hneck).
  rewrite Hdims in He0, Hneck.
  assert (e0 = d0) as -> by (by injection He0).
  assert (Hd3 : TinyViT.neck self = d3) by (by injection Hneck).
  rewrite HnK, HK in Hlen, Hl. rewrite Himg in Hpr, Hstem. rewrite Hpr in Hl.
  assert (Hnh : forall i nh, TinyViT.cfg_num_heads cfg !! i = Some nh -> 1 <= nh).
  { intros i nh Hi. rewrite List.Forall_forall in Hheads.
    apply Hheads, list_elem_of_In. by eapply list_elem_of_lookup_2. }
  assert (Hws : forall i ws, TinyViT.cfg_window_sizes cfg !! i = Some ws -> 1 <= ws).
  { intros i ws Hi. rewrite List.Forall_forall in Hwins.
    apply Hwins, list_elem_of_In. by eapply list_elem_of_lookup_2. }
  destruct (TinyViT.layers self) as [|l0 [|l1 [|l2 [|l3 [|? ?]]]]] eqn:Hlayers;
    try discriminate Hlen.
  assert (Hds : forall i l, [l0; l1; l2; l3] !! i = Some l ->
            forall dim out_dim,
            [d0; d1; d2; d3] !! i = Some dim ->
            [d0; d1; d2; d3] !! Nat.min (i + 1) 3 = Some out_dim ->
            Layer.downsample l =
            Layer.make_downsample (i <? 3)
              (TinyViT.stage_resolution (1024 / 4, 1024 / 4) i) dim out_dim).
  { intros i l Hi dim out_dim Hdim Hout.
    destruct (StageFacts.build_layer_inv cfg _ _ i l (Hl i l Hi))
      as (dim' & _ & out' & Hdim' & _ & Hout' & _ & _ & _ & Hds & _).
    rewrite Hdims in Hdim', Hout'. rewrite Hdim in Hdim'. injection Hdim' as <-.
    pose proof (lookup_lt_Some _ _ _ Hi) as Hi4. cbn [length] in Hi4, Hout'.
    replace (Z.min (Z.of_nat i + 1) (Z.of_nat 4 - 1))
      with (Z.of_nat (Nat.min (i + 1) 3)) in Hout' by lia.
    apply BuildFacts.getitem_Ok_lookup in Hout'. rewrite Hout in Hout'.
    injection Hout' as <-. exact Hds. }
  assert (Hstage : forall i l H W dim,
            [l0; l1; l2; l3] !! i = Some l ->
            TinyViT.stage_resolution (1024 / 4, 1024 / 4) i = (H, W) ->
            [d0; d1; d2; d3] !! i = Some dim -> 3 <= H -> 3 <= W ->
            Layer.forward_shape l
              (if i =? 0 then [B; dim; H; W] else [B; H * W; dim]) =
            match Layer.downsample l with
            | Some ds =>
                Ok [B; ((H - 1) / PatchMerging.stride_c (PatchMerging.out_dim ds) + 1) *
                       ((W - 1) / PatchMerging.stride_c (PatchMerging.out_dim ds) + 1);
                    PatchMerging.out_dim ds]
            | None => Ok (if i =? 0 then [B; dim; H; W] else [B; H * W; dim])
            end).
  { intros i l H W dim Hi Hres Hdim HH HW.
    apply (stage_forward_ok cfg (1024 / 4, 1024 / 4) 4 i); eauto.
    by rewrite Hdims. }
  unfold TinyViT.forward_shape, TinyViT.forward_features_shape.
  rewrite Hstem, Hlayers, PatchEmbed_ok by lia. cbn [mbind result_bind].
  change ((1024 + 3) / 4) with 256.
  cbn [TinyViT.layers_forward_shape].
  pose proof (Hstage 0 l0 256 256 d0 eq_refl eq_refl eq_refl
                ltac:(lia) ltac:(lia)) as E.
  cbn [Nat.eqb] in E. rewrite E. clear E.
  rewrite (Hds 0 l0 eq_refl d0 d1 eq_refl eq_refl).
  cbn [Nat.ltb Nat.leb Layer.make_downsample PatchMerging.__init__
       PatchMerging.out_dim mbind result_bind].
  rewrite Hs1. change ((256 - 1) / 2 + 1) with 128.
  pose proof (Hstage 1 l1 128 128 d1 eq_refl eq_refl eq_refl
                ltac:(lia) ltac:(lia)) as E.
  cbn [Nat.eqb] in E. rewrite E. clear E.
  rewrite (Hds 1 l1 eq_refl d1 d2 eq_refl eq_refl).
  cbn [Nat.ltb Nat.leb Layer.make_downsample PatchMerging.__init__
       PatchMerging.out_dim mbind result_bind].
  rewrite Hs2. change ((128 - 1) / 2 + 1) with 64.
  pose proof (Hstage 2 l2 64 64 d2 eq_refl eq_refl eq_refl
                ltac:(lia) ltac:(lia)) as E.
  cbn [Nat.eqb] in E. rewrite E. clear E.
  rewrite (Hds 2 l2 eq_refl d2 d3 eq_refl eq_refl).
  cbn [Nat.ltb Nat.leb Layer.make_downsample PatchMerging.__init__
       PatchMerging.out_dim mbind result_bind].
  rewrite Hs3. change ((64 - 1) / 1 + 1) with 64.
  pose proof (Hstage 3 l3 64 64 d3 eq_refl eq_refl eq_refl
                ltac:(lia) ltac:(lia)) as E.
  cbn [Nat.eqb] in E. rewrite E. clear E.
  rewrite (Hds 3 l3 eq_refl d3 d3 eq_refl eq_refl).
  cbn [Nat.ltb Nat.leb Layer.make_downsample Nat.eqb mbind result_bind].
  rewrite shape_view_ok by (cbn [Tensor.numel foldr]; lia). cbn [mbind result_bind].
  change (permute_list [0; 3; 1; 2] [B; 64; 64; d3]) with [B; d3; 64; 64].
  unfold TinyViT.neck_forward_shape. rewrite Hd3, conv2d_ok by lia.
  reflexivity.
Qed.

Section Init.
Variable rpow : R -> nat -> R.

(** The tagging pass leaves the network as [build] assembled it. *)
Lemma init_keeps_network (cfg : TinyViT.config R) self :
  TinyViT.build cfg = Ok self ->
  1 <= sum (TinyViT.cfg_depths cfg) ->
  exists self',
    TinyViT.__init__ rpow cfg = Ok self' /\
    forall x, TinyViT.forward_shape self' x = TinyViT.forward_shape self x.
Proof.
  intros Hb Hsum. destruct (PassFacts.build_fields cfg self Hb) as (Hd & _).
  rewrite <- Hd in Hsum.
  pose proof (BuildFacts.build_block_counts cfg self Hb) as Hcounts.
  destruct (TagFacts.run_ops_spec _ (TinyViT.plan self) (TinyViT.lr_scale self)
              (PassFacts.plan_getitem rpow self (TinyViT.cfg_layer_lr_decay cfg)
                 Hcounts Hsum)
              (TagFacts.plan_same_index self))
    as (st' & Hrun & _).
  eexists. split.
  - unfold TinyViT.__init__. rewrite Hb. cbn [mbind result_bind].
    by apply PassFacts.set_layer_lr_decay_result.
  - done.
Qed.

End Init.

End Stage.

End ShapeOk.

(** X9. The stem maps a (B, in_chans, H, W) batch to
    (B, embed_dim, ceil(H / 4), ceil(W / 4)), whatever resolution it was
    declared with. For an image of the declared size the grid it
    returns is the declared [patches_resolution], which rounds down,
    exactly when the size is a multiple of 4. (More than one value per
    channel is asked for because batch normalisation in training mode
    needs it.) *)
Theorem stem_grid (in_chans embed_dim resolution B H W : nat) :
  1 <= B -> 5 <= H -> 5 <= W -> 1 <= in_chans -> 2 <= embed_dim ->
  let stem := PatchEmbed.__init__ in_chans embed_dim resolution in
  PatchEmbed.forward_shape stem [B; in_chans; H; W] =
    Ok [B; embed_dim; (H + 3) / 4; (W + 3) / 4] /\
  (((resolution + 3) / 4, (resolution + 3) / 4) = PatchEmbed.patches_resolution stem
   <-> resolution mod 4 = 0).
Proof.
  intros HB HH HW _ _ stem. split; [apply ShapeOk.PatchEmbed_ok; lia|].
  unfold stem. cbn [PatchEmbed.__init__ PatchEmbed.patches_resolution fst snd].
  pose proof (Nat.div_mod_eq resolution 4) as Hdm.
  pose proof (Nat.mod_upper_bound resolution 4 ltac:(lia)) as Hm.
  assert (Hup : (resolution + 3) / 4 =
                resolution / 4 + (if resolution mod 4 =? 0 then 0 else 1)).
  { destruct (Nat.eqb_spec (resolution mod 4) 0) as [Hz|Hnz].
    - replace (resolution + 3) with (3 + resolution / 4 * 4) by lia.
      rewrite Nat.div_add by lia. by rewrite (Nat.div_small 3 4) by lia.
    - replace (resolution + 3)
        with (resolution mod 4 - 1 + (resolution / 4 + 1) * 4) by lia.
      rewrite Nat.div_add by lia. rewrite Nat.div_small by lia. lia. }
  rewrite Hup. destruct (Nat.eqb_spec (resolution mod 4) 0) as [Hz|Hnz].
  - by rewrite Nat.add_0_r.
  - split; [|done]. intros [= Heq]. lia.
Qed.

Lemma stem_grid_witness :
  1 <= 2 /\ 5 <= 224 /\ 5 <= 224 /\ 1 <= 3 /\ 2 <= 96 /\
  let stem := PatchEmbed.__init__ 3 96 224 in
  PatchEmbed.forward_shape stem [2; 3; 224; 224] =
    Ok [2; 96; (224 + 3) / 4; (224 + 3) / 4] /\
  (((224 + 3) / 4, (224 + 3) / 4) = PatchEmbed.patches_resolution stem
   <-> 224 mod 4 = 0).
Proof.
  do 5 (split; [lia|]). apply (stem_grid 3 96 224 2 224 224); lia.
Defined.

(** X10. [PatchMerging.forward] on a token grid returns exactly when
    the number of tokens is that of its [input_resolution] (H, W) (it
    has no assertion: another count makes [view] or the first
    convolution raise); the result has [out_dim] channels on a grid
    whose sides are halved, rounding up, or kept when [out_dim] is 320,
    448 or 576. A 4-D input goes through the same convolutions
    whatever the declared resolution. *)
Theorem patch_merging_grid (res : nat * nat) (dim out_dim B H W L : nat) :
  1 <= B -> 3 <= H -> 3 <= W -> 1 <= dim -> 1 <= out_dim ->
  let side X := if bool_decide (out_dim ∈ [320; 448; 576])
                then X else (X + 1) / 2 in
  (L = H * W ->
   PatchMerging.forward_shape (PatchMerging.__init__ (H, W) dim out_dim)
     [B; L; dim] = Ok [B; side H * side W; out_dim]) /\
  (L <> H * W ->
   exists e,
     PatchMerging.forward_shape (PatchMerging.__init__ (H, W) dim out_dim)
       [B; L; dim] = Raise e) /\
  PatchMerging.forward_shape (PatchMerging.__init__ res dim out_dim)
    [B; dim; H; W] = Ok [B; side H * side W; out_dim].
Proof.
  intros HB HH HW Hdim _ side.
  assert (Hside : forall X, 1 <= X ->
            (X - 1) / PatchMerging.stride_c out_dim + 1 = side X).
  { intros X HX. unfold side, PatchMerging.stride_c. case_bool_decide.
    - rewrite Nat.div_1_r. lia.
    - replace (X + 1) with (X - 1 + 1 * 2) by lia.
      by rewrite Nat.div_add by lia. }
  split; [|split].
  - intros ->. rewrite ShapeOk.PatchMerging_tokens_ok by lia.
    by rewrite !Hside by lia.
  - intros HL.
    destruct (PatchMerging.forward_shape _ [B; L; dim]) as [y|e] eqn:Hy;
      [|by exists e].
    apply ShapeOk.PatchMerging_tokens_inv in Hy as (HL' & _); [done|lia..].
  - rewrite ShapeOk.PatchMerging_4d_ok by lia. by rewrite !Hside by lia.
Qed.

Lemma patch_merging_grid_witness :
  1 <= 2 /\ 3 <= 14 /\ 3 <= 14 /\ 1 <= 384 /\ 1 <= 768 /\
  let side X := if bool_decide (768 ∈ [320; 448; 576])
                then X else (X + 1) / 2 in
  (196 = 14 * 14 ->
   PatchMerging.forward_shape (PatchMerging.__init__ (14, 14) 384 768)
     [2; 196; 384] = Ok [2; side 14 * side 14; 768]) /\
  (196 <> 14 * 14 ->
   exists e,
     PatchMerging.forward_shape (PatchMerging.__init__ (14, 14) 384 768)
       [2; 196; 384] = Raise e) /\
  PatchMerging.forward_shape (PatchMerging.__init__ (7, 7) 384 768)
    [2; 384; 14; 14] = Ok [2; side 14 * side 14; 768].
Proof.
  do 5 (split; [lia|]). apply (patch_merging_grid (7, 7) 384 768 2 14 14 196); lia.
Defined.

(** X11. A [TinyViTBlock] can be built for, and run on, every token
    grid: for any H, W and window size, whether or not the window size
    divides H and W, and any number of heads between 1 and [dim]
    (it need not divide [dim]), with an odd [local_conv_size], the
    constructor returns and [forward] maps a (B, H * W, dim) input to
    an output of the same shape. *)
Theorem block_runs_on_every_grid (dim nh ws r lcs B H W : nat) :
  1 <= B -> 1 <= H -> 1 <= W -> 2 <= B * H * W -> 1 <= ws ->
  1 <= nh <= dim -> Nat.odd lcs = true ->
  exists blk,
    TinyViTBlock.__init__ dim (H, W) nh ws r lcs = Ok blk /\
    TinyViTBlock.forward_shape blk [B; H * W; dim] = Ok [B; H * W; dim].
Proof.
  intros HB HH HW Hvalues Hws [Hnh Hdim] Hodd.
  assert (Hblk : exists blk, TinyViTBlock.__init__ dim (H, W) nh ws r lcs = Ok blk).
  { unfold TinyViTBlock.__init__.
    rewrite WindowFacts.py_floordiv_ok by lia. cbn [mbind Py.result_bind].
    rewrite ShapeOk.scale_check_ok by (apply Nat.div_str_pos; lia).
    by eexists. }
  destruct Hblk as [blk Hblk]. exists blk. split; [done|].
  apply (ShapeOk.TinyViTBlock_ok dim nh ws r lcs); try done.
  destruct (Nat.eq_dec B 1) as [->|]; [|by left].
  destruct (Nat.eq_dec H 1) as [->|]; [|right; left; lia].
  right. right. lia.
Qed.

Lemma block_runs_on_every_grid_witness :
  1 <= 2 /\ 1 <= 13 /\ 1 <= 13 /\ 2 <= 2 * 13 * 13 /\ 1 <= 7 /\
  1 <= 5 <= 160 /\ Nat.odd 3 = true /\
  exists blk,
    TinyViTBlock.__init__ 160 (13, 13) 5 7 4 3 = Ok blk /\
    TinyViTBlock.forward_shape blk [2; 13 * 13; 160] = Ok [2; 13 * 13; 160].
Proof.
  do 3 (split; [lia|]). split; [vm_compute; lia|]. split; [lia|].
  split; [lia|]. split; [reflexivity|].
  apply (block_runs_on_every_grid 160 5 7 4 3 2 13 13);
    [lia|lia|lia|vm_compute; lia|lia|lia|reflexivity].
Defined.

(** X12. Every four-stage configuration for 1024 x 1024 images whose
    second and third widths are outside {320, 448, 576} and whose last
    width is inside it gives a model whose forward pass returns a
    (B, 256, 64, 64) feature map for every batch size B >= 1, whatever
    the depths (one block at least), the widths, the window sizes and
    the numbers of heads: the transitions bring the 256 x 256 grid of
    the stem to 128, 64 and 64, which are the resolutions the stages
    were declared with. *)
Theorem forward_returns_at_1024 {R : Type} (rpow : R -> nat -> R)
    (cfg : TinyViT.config R) (d0 d1 d2 d3 : nat) :
  TinyViT.cfg_img_size cfg = 1024 ->
  TinyViT.cfg_embed_dims cfg = [d0; d1; d2; d3] ->
  length (TinyViT.cfg_depths cfg) = 4 ->
  1 <= sum (TinyViT.cfg_depths cfg) ->
  length (TinyViT.cfg_num_heads cfg) = 4 ->
  length (TinyViT.cfg_window_sizes cfg) = 4 ->
  Forall2 (fun nh d => 1 <= nh <= d) (TinyViT.cfg_num_heads cfg)
          (TinyViT.cfg_embed_dims cfg) ->
  Forall (fun ws => 1 <= ws) (TinyViT.cfg_window_sizes cfg) ->
  1 <= TinyViT.cfg_in_chans cfg -> 2 <= d0 ->
  1 <= TinyViT.cfg_mbconv_expand_ratio cfg ->
  Nat.odd (TinyViT.cfg_local_conv_size cfg) = true ->
  d1 ∉ [320; 448; 576] -> d2 ∉ [320; 448; 576] -> d3 ∈ [320; 448; 576] ->
  exists self,
    TinyViT.__init__ rpow cfg = Ok self /\
    forall B, 1 <= B ->
      TinyViT.forward_shape self [B; TinyViT.cfg_in_chans cfg; 1024; 1024] =
      Ok [B; 256; 64; 64].
Proof.
  intros Himg Hdims HK Hsum Hnh4 Hws4 Hheads Hwins _ _ _ Hodd Hd1 Hd2 Hd3.
  assert (Hpos : Forall (fun nh => 1 <= nh) (TinyViT.cfg_num_heads cfg)).
  { clear -Hheads. induction Hheads; constructor; [lia|done]. }
  destruct (ShapeOk.build_ok cfg) as [self Hb].
  - by rewrite Hdims.
  - rewrite Hdims, HK. cbn [length]. lia.
  - intros i Hi.
    destruct (lookup_lt_is_Some_2 (TinyViT.cfg_num_heads cfg) i ltac:(lia))
      as [nh Hnh].
    destruct (lookup_lt_is_Some_2 (TinyViT.cfg_window_sizes cfg) i ltac:(lia))
      as [ws Hws].
    exists nh, ws. do 2 (split; [done|]). intros dim Hdim.
    exact (Forall2_lookup_lr _ _ _ _ _ _ Hheads Hnh Hdim).
  - destruct (ShapeOk.init_keeps_network rpow cfg self Hb Hsum)
      as (self' & Hinit & Hsame).
    exists self'. split; [done|]. intros B HB. rewrite Hsame.
    apply (ShapeOk.built_forward_1024 cfg self d0 d1 d2 d3); try done.
    + unfold PatchMerging.stride_c. by rewrite bool_decide_eq_false_2.
    + unfold PatchMerging.stride_c. by rewrite bool_decide_eq_false_2.
    + unfold PatchMerging.stride_c. by rewrite bool_decide_eq_true_2.
Qed.

Lemma forward_returns_at_1024_witness :
  exists self,
    TinyViT.__init__ TinyViT.zpow TinyViT.config_1024 = Ok self /\
    forall B, 1 <= B ->
      TinyViT.forward_shape self
        [B; TinyViT.cfg_in_chans TinyViT.config_1024; 1024; 1024] =
      Ok [B; 256; 64; 64].
Proof.
  apply (forward_returns_at_1024 TinyViT.zpow TinyViT.config_1024 64 128 160 320);
    try reflexivity; try (vm_compute; lia).
  - repeat constructor.
  - repeat constructor.
  - rewrite !elem_of_cons, elem_of_nil. lia.
  - rewrite !elem_of_cons, elem_of_nil. lia.
  - rewrite !elem_of_cons. lia.
Defined.

(** X13. A model with fewer than two stages never returns from
    [forward]: no downsample transform ever turns the (B, C, H, W)
    output of the stem into a token grid, so whenever the stem and the
    MBConv blocks accept the input, line 429 fails to unpack three
    sizes. *)
Theorem forward_needs_two_stages {R : Type} (cfg : TinyViT.config R)
    (self : TinyViT.t R) :
  TinyViT.build cfg = Ok self ->
  length (TinyViT.cfg_depths cfg) <= 1 ->
  forall x,
    (exists e, TinyViT.forward_shape self x = Raise e) /\
    forall x0 x1,
      PatchEmbed.forward_shape (TinyViT.patch_embed self) x = Ok x0 ->
      TinyViT.layers_forward_shape (TinyViT.layers self) x0 = Ok x1 ->
      TinyViT.forward_shape self x = Raise ValueError.
Proof.
  intros Hb HK x.
  destruct (BuildFacts.build_layers cfg self Hb) as (HnK & _ & Hlen & Hl).
  assert (Hrun : forall x0 x1,
            PatchEmbed.forward_shape (TinyViT.patch_embed self) x = Ok x0 ->
            TinyViT.layers_forward_shape (TinyViT.layers self) x0 = Ok x1 ->
            TinyViT.forward_shape self x = Raise ValueError).
  { intros x0 x1 Hx0 Hx1.
    unfold TinyViT.forward_shape, TinyViT.forward_features_shape.
    rewrite Hx0. cbn [mbind result_bind]. rewrite Hx1. cbn [mbind result_bind].
    assert (Hlen4 : length x0 = 4).
    { unfold PatchEmbed.forward_shape in Hx0.
      ShapeFacts.bind_inv_as Hx0 y Hy.
      by apply ShapeFacts.Conv2d_BN_batch in Hx0 as (_ & ? & _). }
    assert (Hlen1 : length x1 = 4).
    { destruct (TinyViT.layers self) as [|l0 [|? ?]] eqn:Hlayers.
      - by injection Hx1 as <-.
      - cbn [TinyViT.layers_forward_shape] in Hx1.
        ShapeFacts.bind_inv_as Hx1 y Hy. injection Hx1 as <-.
        destruct (StageFacts.build_layer_inv cfg _ _ 0 l0 (Hl 0 l0 eq_refl))
          as (? & ? & ? & _ & _ & _ & _ & _ & _ & Hds & _).
        unfold Layer.forward_shape in Hy. ShapeFacts.bind_inv_as Hy z Hz.
        apply ShapeFacts.blocks_batch in Hz as [Hz _].
        rewrite Hds in Hy. unfold Layer.make_downsample in Hy.
        destruct (Nat.ltb_spec 0 (TinyViT.num_layers self - 1)) as [?|_];
          [cbn [length] in Hlen; lia|].
        injection Hy as <-. congruence.
      - cbn [length] in Hlen. lia. }
    by destruct x1 as [|? [|? [|? [|? [|? ?]]]]]. }
  split; [|exact Hrun].
  destruct (PatchEmbed.forward_shape (TinyViT.patch_embed self) x)
    as [x0|e] eqn:Hx0.
  - destruct (TinyViT.layers_forward_shape (TinyViT.layers self) x0)
      as [x1|e] eqn:Hx1.
    + exists ValueError. by apply (Hrun x0 x1).
    + exists e. unfold TinyViT.forward_shape, TinyViT.forward_features_shape.
      rewrite Hx0. cbn [mbind result_bind]. by rewrite Hx1.
  - exists e. unfold TinyViT.forward_shape, TinyViT.forward_features_shape.
    by rewrite Hx0.
Qed.

Lemma forward_needs_two_stages_witness :
  TinyViT.build TinyViT.single_stage_config = Ok TinyViT.single_stage_model /\
  length (TinyViT.cfg_depths TinyViT.single_stage_config) <= 1 /\
  forall x,
    (exists e, TinyViT.forward_shape TinyViT.single_stage_model x = Raise e) /\
    forall x0 x1,
      PatchEmbed.forward_shape
        (TinyViT.patch_embed TinyViT.single_stage_model) x = Ok x0 ->
      TinyViT.layers_forward_shape
        (TinyViT.layers TinyViT.single_stage_model) x0 = Ok x1 ->
      TinyViT.forward_shape TinyViT.single_stage_model x = Raise ValueError.
Proof.
  split; [vm_compute; reflexivity|]. split; [vm_compute; lia|].
  apply (forward_needs_two_stages TinyViT.single_stage_config
           TinyViT.single_stage_model).
  - vm_compute; reflexivity.
  - vm_compute; lia.
Defined.

(** X14. Lines 429-431: [forward] returns only if the last stage
    hands over a token grid (B, L, C) with exactly 64 * 64 = 4096 tokens
    and the width the neck was built for, whatever image size the model
    was configured with: the [view(B, 64, 64, C)] of line 430 is
    written for one grid only. *)
Theorem forward_needs_4096_tokens {R : Type} (self : TinyViT.t R)
    (x y : list nat) :
  TinyViT.forward_shape self x = Ok y ->
  exists x0 B L C,
    PatchEmbed.forward_shape (TinyViT.patch_embed self) x = Ok x0 /\
    TinyViT.layers_forward_shape (TinyViT.layers self) x0 = Ok [B; L; C] /\
    C = TinyViT.neck self /\
    (1 <= B -> 1 <= C -> L = 4096).
Proof.
  unfold TinyViT.forward_shape, TinyViT.forward_features_shape. intros Hy.
  ShapeFacts.bind_inv_as Hy x0 Hx0. ShapeFacts.bind_inv_as Hy x1 Hx1.
  destruct x1 as [|B [|L [|C [|? ?]]]]; try discriminate Hy.
  ShapeFacts.bind_inv_as Hy x2 Hx2.
  apply ShapeFacts.view_inv in Hx2 as [-> Hnumel].
  change (permute_list [0; 3; 1; 2] [B; 64; 64; C]) with [B; C; 64; 64] in Hy.
  unfold TinyViT.neck_forward_shape in Hy. ShapeFacts.bind_inv_as Hy x3 Hx3.
  apply ShapeFacts.conv2d_channels in Hx3.
  exists x0, B, L, C. do 3 (split; [done|]). intros HB HC.
  cbn [Tensor.numel foldr] in Hnumel.
  apply (Nat.mul_cancel_l _ _ (B * C)); nia.
Qed.

Lemma forward_needs_4096_tokens_witness :
  TinyViT.forward_shape TinyViT.model_1024 [2; 3; 1024; 1024] =
    Ok [2; 256; 64; 64] /\
  exists x0 B L C,
    PatchEmbed.forward_shape (TinyViT.patch_embed TinyViT.model_1024)
      [2; 3; 1024; 1024] = Ok x0 /\
    TinyViT.layers_forward_shape (TinyViT.layers TinyViT.model_1024) x0 =
      Ok [B; L; C] /\
    C = TinyViT.neck TinyViT.model_1024 /\
    (1 <= B -> 1 <= C -> L = 4096).
Proof.
  split; [vm_compute; reflexivity|].
  apply (forward_needs_4096_tokens TinyViT.model_1024 [2; 3; 1024; 1024]
           [2; 256; 64; 64]).
  vm_compute; reflexivity.
Defined.

(** X15. Lines 407-417: [m.apply(lambda x: _set_lr_scale(x, lr_scales[i]))]
    does what one call [_set_lr_scale(m, lr_scales[i])] does, since
    [m.parameters()] already covers the descendants that [apply]
    visits; and it raises [IndexError] when [lr_scales[i]] does not
    exist even if [m] has no parameter at all (like the [nn.Identity]
    head of a model without classes), because the index is evaluated at
    every visited module. *)
Theorem apply_set_lr_scale_is_one_call {R : Type} (lr_scales : list R) (i : Z)
    (prefix : NN.path) (m : NN.module) (st : gmap NN.path R) :
  NN.apply (TinyViT.tag lr_scales i) prefix m st =
  (scale ← getitem lr_scales i; Ok (TinyViT._set_lr_scale prefix m scale st)).
Proof.
  destruct (getitem lr_scales i) as [v|e] eqn:Hv; cbn [mbind result_bind].
  - destruct (TagFacts.apply_tag lr_scales i v Hv m prefix st) as (st' & -> & Hst').
    f_equal. apply map_eq. intros q.
    rewrite Hst'. unfold TinyViT._set_lr_scale.
    by rewrite TagFacts.lookup_set_all.
  - apply PassFacts.apply_raise. intros p m' st'. unfold TinyViT.tag.
    by rewrite Hv.
Qed.

(** ** What the completeness check computes *)

Module ReportFacts.
Import TinyViT.

Lemma mapM_pointwise {X Y} (f : X -> result Y) (g : X -> Y) (l : list X) :
  (forall x, In x l -> f x = Ok (g x)) -> mapM f l = Ok (map g l).
Proof.
  induction l as [|x l IH]; intros Hf; [done|].
  cbn [mapM map]. rewrite (Hf x) by (by left). cbn [mbind result_bind].
  rewrite IH by (intros; apply Hf; by right). done.
Qed.

Lemma filter_none {X} (p : X -> bool) (l : list X) :
  (forall x, In x l -> p x = false) -> List.filter p l = [].
Proof.
  induction l as [|x l IH]; intros Hp; [done|].
  cbn [List.filter]. rewrite (Hp x) by (by left).
  apply IH. intros; apply Hp; by right.
Qed.

Lemma filter_all {X} (p : X -> bool) (l : list X) :
  (forall x, In x l -> p x = true) -> List.filter p l = l.
Proof.
  induction l as [|x l IH]; intros Hp; [done|].
  cbn [List.filter]. rewrite (Hp x) by (by left). f_equal.
  apply IH. intros; apply Hp; by right.
Qed.

End ReportFacts.

(** X16. Line 423 for every configuration: on any model that
    [__init__] constructs, the list comprehension evaluates to [True]
    for every parameter outside the neck and builds an
    [AssertionError] object carrying the parameter's name for each of
    the six parameters of the neck, in order; the objects are dropped
    and nothing is raised. *)
Theorem completeness_check_builds_six_errors {R : Type} (rpow : R -> nat -> R)
    (cfg : TinyViT.config R) (self0 : TinyViT.t R) :
  TinyViT.build cfg = Ok self0 ->
  1 <= sum (TinyViT.cfg_depths cfg) ->
  exists self report,
    TinyViT.__init__ rpow cfg = Ok self /\
    TinyViT.lr_scale_report self = Ok report /\
    length report = length (NN.named_parameters [] (TinyViT.modules self)) /\
    List.filter TinyViT.is_exception report =
    [TinyViT.PyAssertionError ["neck"; "0"; "weight"];
     TinyViT.PyAssertionError ["neck"; "1"; "weight"];
     TinyViT.PyAssertionError ["neck"; "1"; "bias"];
     TinyViT.PyAssertionError ["neck"; "2"; "weight"];
     TinyViT.PyAssertionError ["neck"; "3"; "weight"];
     TinyViT.PyAssertionError ["neck"; "3"; "bias"]].
Proof.
  intros Hb Hsum.
  destruct (PassFacts.build_fields cfg self0 Hb) as (Hd & _ & Hlr & _).
  rewrite <- Hd in Hsum.
  pose proof (BuildFacts.build_block_counts cfg self0 Hb) as Hcounts.
  pose proof (PassFacts.plan_getitem rpow self0 (TinyViT.cfg_layer_lr_decay cfg)
                Hcounts Hsum) as Hget.
  destruct (TagFacts.run_ops_spec _ (TinyViT.plan self0) (TinyViT.lr_scale self0)
              Hget (TagFacts.plan_same_index self0))
    as (st' & Hrun & Htag & Hframe).
  set (neck_ps := NN.named_parameters ["neck"] TinyViT.neck_modules).
  set (ps := NN.named_parameters [] (TinyViT.modules self0)).
  set (names := foldl (fun names k => <[k := k]> names) (TinyViT.param_name self0) ps).
  set (g := fun p : NN.path =>
              if decide (In p neck_ps) then TinyViT.PyAssertionError p
              else TinyViT.PyTrue).
  assert (Hcheck : forall p, In p ps -> TinyViT.check_param st' names p = Ok (g p)).
  { intros p Hp. unfold TinyViT.check_param, g.
    destruct (decide (In p neck_ps)) as [Hn|Hn].
    - rewrite Hframe, Hlr, lookup_empty
        by (intros op; by apply PassFacts.neck_not_visited).
      rewrite bool_decide_eq_false_2 by (by intros [? ?]).
      unfold names. rewrite PassFacts.names_fold_lookup. by rewrite decide_True.
    - apply PassFacts.root_parameters in Hp as [(op & Hop & Hp)|Hp]; [|done].
      destruct (Hget op Hop) as [v Hv].
      rewrite (Htag op v p Hop Hv Hp).
      by rewrite bool_decide_eq_true_2 by (by eexists). }
  eexists _, (map g ps). split; [|split; [|split]].
  - unfold TinyViT.__init__. rewrite Hb. cbn [mbind result_bind].
    by apply PassFacts.set_layer_lr_decay_result.
  - unfold TinyViT.lr_scale_report, TinyViT.check_module.
    cbn [TinyViT.lr_scale TinyViT.param_name].
    by apply ReportFacts.mapM_pointwise.
  - by rewrite length_map.
  - unfold ps, TinyViT.modules.
    change (NN.named_parameters [] (NN.Mod [] [(?a, ?ma); (?b, ?mb); (?c, ?mc);
                                               (?d, ?md); (?e, ?me)]))
      with (NN.named_parameters [a] ma ++ NN.named_parameters [b] mb ++
            NN.named_parameters [c] mc ++ NN.named_parameters [d] md ++
            NN.named_parameters [e] me ++ []).
    rewrite app_nil_r, !app_assoc, map_app, List.filter_app. fold neck_ps.
    rewrite ReportFacts.filter_none.
    + rewrite ReportFacts.filter_all.
      * cbn [app].
        transitivity (map TinyViT.PyAssertionError neck_ps); [|reflexivity].
        apply map_ext_in. intros p Hp. unfold g. by rewrite decide_True.
      * intros o Ho. apply in_map_iff in Ho as (p & <- & Hp).
        unfold g. by rewrite decide_True.
    + intros o Ho. apply in_map_iff in Ho as (p & <- & Hp).
      unfold g. rewrite decide_False; [done|].
      intros Hn. apply TagFacts.named_parameters_prefix in Hn as [k ->].
      rewrite !in_app_iff in Hp.
      destruct Hp as [[[Hp|Hp]|Hp]|Hp];
        by apply TagFacts.named_parameters_prefix in Hp as [k' [=]].
Qed.

Lemma completeness_check_builds_six_errors_witness :
  TinyViT.build TinyViT.default_config_1 = Ok TinyViT.default_model /\
  1 <= sum (TinyViT.cfg_depths TinyViT.default_config_1) /\
  exists self report,
    TinyViT.__init__ TinyViT.zpow TinyViT.default_config_1 = Ok self /\
    TinyViT.lr_scale_report self = Ok report /\
    length report = length (NN.named_parameters [] (TinyViT.modules self)) /\
    List.filter TinyViT.is_exception report =
    [TinyViT.PyAssertionError ["neck"; "0"; "weight"];
     TinyViT.PyAssertionError ["neck"; "1"; "weight"];
     TinyViT.PyAssertionError ["neck"; "1"; "bias"];
     TinyViT.PyAssertionError ["neck"; "2"; "weight"];
     TinyViT.PyAssertionError ["neck"; "3"; "weight"];
     TinyViT.PyAssertionError ["neck"; "3"; "bias"]].
Proof.
  split; [vm_compute; reflexivity|]. split; [vm_compute; lia|].
  apply (completeness_check_builds_six_errors TinyViT.zpow
           TinyViT.default_config_1 TinyViT.default_model).
  - vm_compute; reflexivity.
  - vm_compute; lia.
Defined.

(** X17. The stochastic-depth schedule: stage [i] is handed
    [dpr[sum(depths[:i]):sum(depths[:i+1])]], which holds exactly
    [depths[i]] rates, those at the global positions of its blocks; so
    [drop_path[j]] never raises for a block of the stage, and block [j]
    of stage [i] is built with the rate at position
    [sum(depths[:i]) + j], the position that [set_layer_lr_decay]
    counts as well. *)
Theorem drop_path_by_position {A : Type} (value : nat -> A) (depths : list nat)
    (i n : nat) :
  depths !! i = Some n ->
  let rates := TinyViT.stage_drop_path (TinyViT.dpr value depths) depths i in
  rates = map value (seq (sum (take i depths)) n) /\
  length rates = n /\
  forall j, j < n ->
    TinyViT.block_drop_path rates j = Ok (value (sum (take i depths) + j)) /\
    TinyViT.block_drop_path rates j =
    getitem (TinyViT.dpr value depths) (Z.of_nat (sum (take i depths) + j)).
Proof.
  intros Hi rates.
  pose proof (TagFacts.sum_take_lookup _ _ _ Hi) as HS.
  pose proof (TagFacts.sum_take_le depths (S i)) as Hle.
  assert (Hrates : rates = map value (seq (sum (take i depths)) n)).
  { unfold rates, TinyViT.stage_drop_path, TinyViT.slice, TinyViT.dpr, range.
    rewrite !drop_0, Nat.add_1_r, HS.
    change (map value ?l) with (value <$> l).
    rewrite <- fmap_take, <- fmap_drop, take_seq, drop_seq. do 2 f_equal; lia. }
  split; [done|]. rewrite Hrates. split; [by rewrite length_map, length_seq|].
  intros j Hj.
  assert (Hg : forall a m k, k < m ->
            getitem (map value (seq a m)) (Z.of_nat k) = Ok (value (a + k))).
  { intros a m k Hk. apply ShapeOk.getitem_lookup.
    change (map value ?l) with (value <$> l).
    by rewrite list_lookup_fmap, lookup_seq_lt. }
  unfold TinyViT.block_drop_path, TinyViT.dpr, range.
  rewrite !Hg by lia. done.
Qed.

Lemma drop_path_by_position_witness :
  [2; 2; 6; 2] !! 2 = Some 6 /\
  let rates :=
    TinyViT.stage_drop_path (TinyViT.dpr (fun k => k) [2; 2; 6; 2]) [2; 2; 6; 2] 2 in
  rates = map (fun k => k) (seq (sum (take 2 [2; 2; 6; 2])) 6) /\
  length rates = 6 /\
  forall j, j < 6 ->
    TinyViT.block_drop_path rates j = Ok (sum (take 2 [2; 2; 6; 2]) + j) /\
    TinyViT.block_drop_path rates j =
    getitem (TinyViT.dpr (fun k => k) [2; 2; 6; 2])
      (Z.of_nat (sum (take 2 [2; 2; 6; 2]) + j)).
Proof.
  split; [reflexivity|].
  apply (drop_path_by_position (fun k => k) [2; 2; 6; 2] 2 6). reflexivity.
Defined.

(** X18. [Attention.forward] on a (B, N, C) input returns exactly when
    C is the width the layers were built for, B, N and the number of
    heads are not zero (the [view] with -1 needs elements), and N is the
    number of points of the resolution, or that resolution is a single
    point whose bias broadcasts; the output then has the shape of the
    input. The relative-position bias thus ties an [Attention] object
    to windows of one size. *)
Theorem attention_forward_returns_iff (dim kd nh ar r0 r1 B N C : nat)
    (y : list nat) :
  1 <= kd ->
  Attention.forward_shape (Attention.arch_init dim kd nh ar (r0, r1)) [B; N; C]
    = Ok y <->
  y = [B; N; dim] /\ C = dim /\ 1 <= B /\ 1 <= N /\ 1 <= nh /\
  (N = r0 * r1 \/ r0 * r1 = 1).
Proof.
  intros _.
  unfold Attention.forward_shape, Shape.layer_norm, Shape.linear.
  cbn [Attention.arch_init Attention.arch_dim Attention.arch_num_heads
       Attention.arch_key_dim Attention.arch_nh_kd Attention.arch_d
       Attention.arch_dh Attention.arch_points fst snd last].
  destruct (Nat.eqb_spec C dim) as [->|HC];
    [|split; [done|by intros (_ & ? & _)]].
  cbn [mbind result_bind last removelast app]. rewrite Nat.eqb_refl.
  cbn [mbind result_bind last removelast app].
  destruct (decide (B * N * nh = 0)) as [Hz|Hnz].
  { split; [|nia]. intros Hy. ShapeFacts.bind_inv_as Hy v Hv.
    apply ShapeOk.view_infer_last_inv in Hv as (_ & _ & _ & ?). done. }
  rewrite (ShapeOk.view_infer_last_ok B N nh (kd + kd + ar * kd));
    [|done|cbn [Tensor.numel foldr]; nia].
  cbn [mbind result_bind last]. rewrite Nat.eqb_refl.
  cbn [mbind result_bind].
  rewrite ShapeOk.shape_view_ok by (cbn [Tensor.numel foldr]; nia).
  destruct (Nat.eqb_spec (r0 * r1) N) as [HN|HN];
    [|destruct (Nat.eqb_spec (r0 * r1) 1) as [H1|H1]];
    cbn [orb mbind result_bind last removelast app];
    rewrite ?Nat.eqb_refl.
  - split; [intros [= <-]|intros (-> & _)]; [|done].
    split; [done|]. split; [done|]. repeat split; nia.
  - split; [intros [= <-]|intros (-> & _)]; [|done].
    split; [done|]. split; [done|]. repeat split; nia.
  - split; [done|]. intros (_ & _ & _ & _ & _ & [?|?]); lia.
Qed.

Lemma attention_forward_returns_iff_witness :
  1 <= 32 /\
  (Attention.forward_shape (Attention.arch_init 160 32 5 1 (7, 7)) [8; 49; 160]
     = Ok [8; 49; 160] <->
   [8; 49; 160] = [8; 49; 160] /\ 160 = 160 /\ 1 <= 8 /\ 1 <= 49 /\ 1 <= 5 /\
   (49 = 7 * 7 \/ 7 * 7 = 1)).
Proof.
  split; [lia|].
  apply (attention_forward_returns_iff 160 32 5 1 7 7 8 49 160 [8; 49; 160]). lia.
Defined.

(** ** What a window holds *)

Module PartitionFacts.
Import TensorFacts TinyViTBlock.

#[local] Arguments Nat.mul : simpl never.

Section Partition.
Context {A : Type}.
Variable zero : A.

(** Exchanging the axes 2 and 3 of a six-axis tensor. *)
Lemma transpose_2_3 n0 n1 n2 n3 n4 n5 (dat : list A) :
  exists dat',
    transpose zero 2 3 (Tensor.Build [n0; n1; n2; n3; n4; n5] dat) =
    Ok (Tensor.Build [n0; n1; n3; n2; n4; n5] dat') /\
    length dat' = numel [n0; n1; n3; n2; n4; n5] /\
    forall i0 i1 i2 i3 i4 i5,
      i0 < n0 -> i1 < n1 -> i2 < n2 -> i3 < n3 -> i4 < n4 -> i5 < n5 ->
      nth (ravel [n0; n1; n3; n2; n4; n5] [i0; i1; i3; i2; i4; i5]) dat' zero =
      nth (ravel [n0; n1; n2; n3; n4; n5] [i0; i1; i2; i3; i4; i5]) dat zero.
Proof.
  unfold transpose. cbn [shape data length]. rewrite decide_True by lia.
  change (permute_list (transposition 6 2 3) [n0; n1; n2; n3; n4; n5])
    with [n0; n1; n3; n2; n4; n5].
  eexists. split; [done|]. split; [by rewrite length_map, length_seq|].
  intros i0 i1 i2 i3 i4 i5 H0 H1 H2 H3 H4 H5.
  assert (Hin : in_bounds [n0; n1; n3; n2; n4; n5] [i0; i1; i3; i2; i4; i5])
    by (repeat constructor; lia).
  rewrite nth_map_seq by (by apply ravel_lt).
  by rewrite unravel_ravel.
Qed.

(** An entry of the padded tensor is the entry of the original at the
    same place, or the fill value below and right of it. *)
Lemma nth_padded B H W C pr pb (dat : list A) b h w ch :
  b < B -> h < H + pb -> w < W + pr -> ch < C ->
  nth (ravel [B; H + pb; W + pr; C] [b; h; w; ch])
      (map (fun k =>
              match pad_source [B; H; W; C] [(0, 0); (0, pb); (0, pr); (0, 0)]
                      (unravel [B; H + pb; W + pr; C] k) with
              | Some idx => nth (ravel [B; H; W; C] idx) dat zero
              | None => zero
              end)
           (seq 0 (numel [B; H + pb; W + pr; C]))) zero =
  if decide (h < H /\ w < W)
  then nth (ravel [B; H; W; C] [b; h; w; ch]) dat zero else zero.
Proof.
  intros Hb Hh Hw Hch.
  assert (Hin : in_bounds [B; H + pb; W + pr; C] [b; h; w; ch])
    by (repeat constructor; lia).
  rewrite nth_map_seq by (by apply ravel_lt). rewrite unravel_ravel by done.
  cbn [pad_source]. rewrite !Nat.sub_0_r.
  repeat case_decide; cbn [option_map]; try done; lia.
Qed.

(** The crop keeps the entries of the top-left H x W corner where they
    are. *)
Lemma slice_hw_corner B H W C pb pr (dat : list A) :
  exists dat',
    slice_hw zero H W (Tensor.Build [B; H + pb; W + pr; C] dat) =
    Ok (Tensor.Build [B; H; W; C] dat') /\
    forall b h w ch, b < B -> h < H -> w < W -> ch < C ->
      nth (ravel [B; H; W; C] [b; h; w; ch]) dat' zero =
      nth (ravel [B; H + pb; W + pr; C] [b; h; w; ch]) dat zero.
Proof.
  unfold slice_hw. cbn [shape data].
  rewrite !Nat.min_l by lia. eexists. split; [done|].
  intros b h w ch Hb Hh Hw Hch.
  assert (Hin : in_bounds [B; H; W; C] [b; h; w; ch])
    by (repeat constructor; lia).
  rewrite nth_map_seq by (by apply ravel_lt).
  by rewrite unravel_ravel.
Qed.

End Partition.

End PartitionFacts.

(** X19. The window transform on the general path (lines 264-280).
    Attention is called once, on a tensor of shape
    (B * nH * nW, ws * ws, C) whose window [(b * nH + i) * nW + j] holds,
    at position [r * ws + c], the token of image [b] at row [i * ws + r]
    and column [j * ws + c] of the H x W grid, and the fill value 0 where
    that place lies in the padding: a window is a contiguous ws x ws
    patch of one image. Whatever attention returns for that shape is
    read back the same way: the token at row [h] and column [w] of
    image [b] comes from window [(b * nH + h // ws) * nW + w // ws],
    position [(h % ws) * ws + w % ws], and what the padding positions
    received is dropped. *)
Theorem windows_are_contiguous_patches {A : Type} (zero : A)
    (self : TinyViTBlock.t) (B H W C : nat) (x : tensor A) :
  0 < TinyViTBlock.window_size self ->
  shape x = [B; H * W; C] ->
  wf x ->
  let ws := TinyViTBlock.window_size self in
  let nH := (H + (ws - H mod ws) mod ws) / ws in
  let nW := (W + (ws - W mod ws) mod ws) / ws in
  exists (p : tensor A) (rest : tensor A -> result (tensor A)),
    (forall attn_forward,
       TinyViTBlock.general_path zero attn_forward self B H W C (H * W) x =
       attn_forward p ≫= rest) /\
    shape p = [B * nH * nW; ws * ws; C] /\
    (forall b i j r c ch,
       b < B -> i < nH -> j < nW -> r < ws -> c < ws -> ch < C ->
       item zero p [(b * nH + i) * nW + j; r * ws + c; ch] =
       if decide (i * ws + r < H /\ j * ws + c < W)
       then item zero x [b; (i * ws + r) * W + (j * ws + c); ch]
       else zero) /\
    forall y, shape y = shape p -> wf y ->
      exists out,
        rest y = Ok out /\
        shape out = [B; H * W; C] /\
        forall b h w ch, b < B -> h < H -> w < W -> ch < C ->
          item zero out [b; h * W + w; ch] =
          item zero y [(b * nH + h / ws) * nW + w / ws;
                       (h mod ws) * ws + w mod ws; ch].
Proof.
  intros Hws Hs Hwf. cbn zeta. destruct x as [s dat]. unfold wf in Hwf.
  cbn [shape data] in *. subst s. unfold TinyViTBlock.general_path.
  set (ws := TinyViTBlock.window_size self) in *. clearbody ws.
  set (pad_b := (ws - H mod ws) mod ws) in *.
  set (pad_r := (ws - W mod ws) mod ws) in *.
  set (nH := (H + pad_b) / ws) in *. set (nW := (W + pad_r) / ws) in *.
  pose proof (TensorFacts.pad_to_multiple H ws Hws) as HpH.
  pose proof (TensorFacts.pad_to_multiple W ws Hws) as HpW.
  fold pad_b in HpH. fold pad_r in HpW. fold nH in HpH. fold nW in HpW.
  assert (Hpadded : exists dpad,
            (if negb (pad_b =? 0) || negb (pad_r =? 0)
             then F_pad zero (Tensor.Build [B; H; W; C] dat)
                    [0; 0; 0; pad_r; 0; pad_b]
             else Ok (Tensor.Build [B; H; W; C] dat)) =
            Ok (Tensor.Build [B; H + pad_b; W + pad_r; C] dpad) /\
            forall b h w ch, b < B -> h < H + pad_b -> w < W + pad_r -> ch < C ->
              nth (ravel [B; H + pad_b; W + pad_r; C] [b; h; w; ch]) dpad zero =
              if decide (h < H /\ w < W)
              then nth (ravel [B; H; W; C] [b; h; w; ch]) dat zero else zero).
  { destruct (negb (pad_b =? 0) || negb (pad_r =? 0)) eqn:Hpad.
    - rewrite TensorFacts.F_pad_bottom_right. eexists. split; [done|].
      intros b h w ch. apply PartitionFacts.nth_padded.
    - apply orb_false_iff in Hpad as [Hb0 Hr0].
      apply negb_false_iff, Nat.eqb_eq in Hb0, Hr0. rewrite Hb0, Hr0, !Nat.add_0_r.
      exists dat. split; [done|]. intros b h w ch Hb Hh Hw Hch.
      by rewrite decide_True. }
  destruct Hpadded as (dpad & Hpad & Hdpad).
  destruct (PartitionFacts.transpose_2_3 zero B nH ws nW ws C dpad)
    as (daty & Hty & _ & Hdaty).
  exists (Tensor.Build [B * nH * nW; ws * ws; C] daty).
  exists (fun x =>
            x ← view [B; nH; nW; ws; ws; C] x;
            x ← transpose zero 2 3 x;
            x ← reshape [B; H + pad_b; W + pad_r; C] x;
            x ← (if negb (pad_b =? 0) || negb (pad_r =? 0)
                 then slice_hw zero H W x
                 else Ok x);
            view [B; H * W; C] x).
  split; [|split; [done|split]].
  - intros attn_forward.
    rewrite TensorFacts.view_ok by (cbn; lia). rewrite WindowFacts.bind_ok.
    repeat first [rewrite (WindowFacts.py_mod_ok _ _ Hws)
                 | rewrite WindowFacts.bind_ok].
    cbn [data]. fold pad_b pad_r. rewrite Hpad, WindowFacts.bind_ok.
    repeat first [rewrite (WindowFacts.py_floordiv_ok _ _ Hws)
                 | rewrite WindowFacts.bind_ok].
    fold nH nW.
    rewrite TensorFacts.view_ok by (cbn; nia). rewrite WindowFacts.bind_ok.
    cbn [data]. rewrite Hty, WindowFacts.bind_ok. unfold reshape at 1.
    rewrite TensorFacts.view_ok by (cbn; nia). rewrite WindowFacts.bind_ok.
    cbn [data]. reflexivity.
  - intros b i j r c ch Hb Hi Hj Hr Hc Hch. unfold item. cbn [shape data].
    replace (ravel [B * nH * nW; ws * ws; C]
               [(b * nH + i) * nW + j; r * ws + c; ch])
      with (ravel [B; nH; nW; ws; ws; C] [b; i; j; r; c; ch])
      by (cbn [ravel numel foldr]; lia).
    rewrite Hdaty by done.
    replace (ravel [B; nH; ws; nW; ws; C] [b; i; r; j; c; ch])
      with (ravel [B; H + pad_b; W + pad_r; C] [b; i * ws + r; j * ws + c; ch])
      by (rewrite <- HpH, <- HpW; cbn [ravel numel foldr]; lia).
    rewrite Hdpad by nia.
    replace (ravel [B; H * W; C] [b; (i * ws + r) * W + (j * ws + c); ch])
      with (ravel [B; H; W; C] [b; i * ws + r; j * ws + c; ch])
      by (cbn [ravel numel foldr]; lia).
    done.
  - intros [sy ydat] Hsy Hwfy. unfold wf in Hwfy. cbn [shape data] in *. subst sy.
    rewrite TensorFacts.view_ok by (cbn; nia). rewrite WindowFacts.bind_ok.
    cbn [data].
    destruct (PartitionFacts.transpose_2_3 zero B nH nW ws ws C ydat)
      as (dz & Htz & Hlz & Hdz).
    rewrite Htz, WindowFacts.bind_ok. unfold reshape.
    rewrite TensorFacts.view_ok by (cbn; nia). rewrite WindowFacts.bind_ok.
    cbn [data].
    assert (Hcrop : exists dout,
              (if negb (pad_b =? 0) || negb (pad_r =? 0)
               then slice_hw zero H W
                      (Tensor.Build [B; H + pad_b; W + pad_r; C] dz)
               else Ok (Tensor.Build [B; H + pad_b; W + pad_r; C] dz)) =
              Ok (Tensor.Build [B; H; W; C] dout) /\
              forall b h w ch, b < B -> h < H -> w < W -> ch < C ->
                nth (ravel [B; H; W; C] [b; h; w; ch]) dout zero =
                nth (ravel [B; H + pad_b; W + pad_r; C] [b; h; w; ch]) dz zero).
    { destruct (negb (pad_b =? 0) || negb (pad_r =? 0)) eqn:Hp.
      - apply PartitionFacts.slice_hw_corner.
      - apply orb_false_iff in Hp as [Hb0 Hr0].
        apply negb_false_iff, Nat.eqb_eq in Hb0, Hr0.
        rewrite Hb0, Hr0, !Nat.add_0_r. by exists dz. }
    destruct Hcrop as (dout & -> & Hdout). rewrite WindowFacts.bind_ok.
    rewrite TensorFacts.view_ok by (cbn; lia). eexists. split; [done|].
    split; [done|]. intros b h w ch Hb Hh Hw Hch. unfold item. cbn [shape data].
    replace (ravel [B; H * W; C] [b; h * W + w; ch])
      with (ravel [B; H; W; C] [b; h; w; ch])
      by (cbn [ravel numel foldr]; lia).
    rewrite Hdout by done.
    pose proof (Nat.div_mod_eq h ws) as Hh'.
    pose proof (Nat.div_mod_eq w ws) as Hw'.
    pose proof (Nat.mod_upper_bound h ws ltac:(lia)) as Hhm.
    pose proof (Nat.mod_upper_bound w ws ltac:(lia)) as Hwm.
    assert (Hi : h / ws < nH) by (apply Nat.Div0.div_lt_upper_bound; lia).
    assert (Hj : w / ws < nW) by (apply Nat.Div0.div_lt_upper_bound; lia).
    set (i := h / ws) in *. set (r := h mod ws) in *.
    set (j := w / ws) in *. set (c := w mod ws) in *.
    clearbody i r j c. subst h w.
    replace (ravel [B; H + pad_b; W + pad_r; C] [b; ws * i + r; ws * j + c; ch])
      with (ravel [B; nH; ws; nW; ws; C] [b; i; r; j; c; ch])
      by (rewrite <- HpH, <- HpW; cbn [ravel numel foldr]; lia).
    rewrite Hdz by done. f_equal. cbn [ravel numel foldr]. lia.
Qed.

Lemma windows_are_contiguous_patches_witness :
  let self := TinyViTBlock.demo (13, 13) 7 in
  let x := Tensor.Build [1; 13 * 13; 1] (seq 1 169) in
  let ws := TinyViTBlock.window_size self in
  let nH := (13 + (ws - 13 mod ws) mod ws) / ws in
  let nW := (13 + (ws - 13 mod ws) mod ws) / ws in
  exists (p : tensor nat) (rest : tensor nat -> result (tensor nat)),
    (forall attn_forward,
       TinyViTBlock.general_path 0 attn_forward self 1 13 13 1 (13 * 13) x =
       attn_forward p ≫= rest) /\
    shape p = [1 * nH * nW; ws * ws; 1] /\
    (forall b i j r c ch,
       b < 1 -> i < nH -> j < nW -> r < ws -> c < ws -> ch < 1 ->
       item 0 p [(b * nH + i) * nW + j; r * ws + c; ch] =
       if decide (i * ws + r < 13 /\ j * ws + c < 13)
       then item 0 x [b; (i * ws + r) * 13 + (j * ws + c); ch]
       else 0) /\
    forall y, shape y = shape p -> wf y ->
      exists out,
        rest y = Ok out /\
        shape out = [1; 13 * 13; 1] /\
        forall b h w ch, b < 1 -> h < 13 -> w < 13 -> ch < 1 ->
          item 0 out [b; h * 13 + w; ch] =
          item 0 y [(b * nH + h / ws) * nW + w / ws;
                    (h mod ws) * ws + w mod ws; ch].
Proof.
  apply (windows_are_contiguous_patches 0 (TinyViTBlock.demo (13, 13) 7)
           1 13 13 1 (Tensor.Build [1; 13 * 13; 1] (seq 1 169))).
  - simpl. lia.
  - reflexivity.
  - reflexivity.
Defined.

(** ** When the forward pass cannot return *)

Module MismatchFacts.

#[local] Arguments Nat.mul : simpl never.
#[local] Arguments Nat.div : simpl never.

(** What [PatchMerging.forward] returns is a token grid of the output
    width. *)
Lemma PatchMerging_returns_tokens res dim out_dim x y :
  PatchMerging.forward_shape (PatchMerging.__init__ res dim out_dim) x = Ok y ->
  exists B L, y = [B; L; out_dim].
Proof.
  unfold PatchMerging.forward_shape. intros Hy.
  ShapeFacts.bind_inv_as Hy x0 E0. ShapeFacts.bind_inv_as Hy x1 E1.
  ShapeFacts.bind_inv_as Hy x2 E2. ShapeFacts.bind_inv_as Hy x3 E3.
  apply ShapeFacts.Conv2d_BN_conv in E3. unfold Shape.conv2d in E3.
  cbn [PatchMerging.__init__ PatchMerging.conv3 Conv2d_BN.__init__
       Conv2d_BN.a Conv2d_BN.b Conv2d_BN.ks Conv2d_BN.stride Conv2d_BN.pad] in E3.
  destruct x2 as [|B [|C [|H [|W [|? ?]]]]]; try discriminate E3.
  destruct (_ && _); [|discriminate E3]. injection E3 as <-.
  cbn [PatchMerging.flatten_transpose] in Hy. injection Hy as <-. by eexists _, _.
Qed.

(** A halving transform on a token grid of its declared resolution. *)
Lemma PatchMerging_halves dim out_dim H W B L y :
  1 <= dim -> PatchMerging.stride_c out_dim = 2 ->
  PatchMerging.forward_shape (PatchMerging.__init__ (H, W) dim out_dim)
    [B; L; dim] = Ok y ->
  1 <= H /\ 1 <= W /\
  y = [B; ((H - 1) / 2 + 1) * ((W - 1) / 2 + 1); out_dim].
Proof.
  intros Hdim Hs Hy.
  assert (HB : 1 <= B).
  { unfold PatchMerging.forward_shape in Hy.
    cbn [length Nat.eqb PatchMerging.__init__ PatchMerging.input_resolution hd]
      in Hy.
    ShapeFacts.bind_inv_as Hy v0 Hv0.
    destruct (Shape.view_infer_last B H W [B; L; dim]) as [v|] eqn:Hv;
      [|discriminate Hv0].
    apply ShapeOk.view_infer_last_inv in Hv as (_ & _ & _ & Hne).
    destruct B; [|lia]. by rewrite !Nat.mul_0_l in Hne. }
  apply ShapeOk.PatchMerging_tokens_inv in Hy as (-> & HH & HW & ->); [|done..].
  by rewrite Hs.
Qed.

Section Network.
Context {R : Type}.
Variable rpow : R -> nat -> R.

(** The tagging pass returns a model with the same network. *)
Lemma set_layer_lr_decay_network (self self' : TinyViT.t R) decay :
  TinyViT.set_layer_lr_decay rpow self decay = Ok self' ->
  forall x, TinyViT.forward_shape self' x = TinyViT.forward_shape self x.
Proof.
  unfold TinyViT.set_layer_lr_decay. intros H.
  ShapeFacts.bind_inv_as H st1 E1. ShapeFacts.bind_inv_as H ist E2.
  destruct ist as [i st2].
  ShapeFacts.bind_inv_as H u E3. ShapeFacts.bind_inv_as H st3 E4.
  ShapeFacts.bind_inv_as H st4 E5. ShapeFacts.bind_inv_as H u' E6.
  by injection H as <-.
Qed.

End Network.

End MismatchFacts.

(** X20. A four-stage model whose last width is outside
    {320, 448, 576}, as with the default [embed_dims], never returns from
    [forward], whatever the input and the image size (from 32 on): the
    last stage is declared with the resolution of the stage before it
    (lines 362-363), but the transition into it then halves the grid, so
    the first block of the last stage fails its assertion [L == H*W]
    unless something raised before. *)
Theorem last_width_must_keep_grid {R : Type} (cfg : TinyViT.config R)
    (self : TinyViT.t R) (d2 d3 n3 : nat) :
  TinyViT.build cfg = Ok self ->
  length (TinyViT.cfg_depths cfg) = 4 ->
  TinyViT.cfg_embed_dims cfg !! 2 = Some d2 -> 1 <= d2 ->
  TinyViT.cfg_embed_dims cfg !! 3 = Some d3 -> d3 ∉ [320; 448; 576] ->
  TinyViT.cfg_depths cfg !! 3 = Some n3 -> 1 <= n3 ->
  32 <= TinyViT.cfg_img_size cfg ->
  (forall x y, TinyViT.forward_shape self x <> Ok y) /\
  (forall rpow self',
     TinyViT.__init__ rpow cfg = Ok self' ->
     forall x y, TinyViT.forward_shape self' x <> Ok y).
Proof.
  intros Hb HK Hd2 Hd2pos Hd3 Hd3out Hn3 Hn3pos Himg.
  assert (Hnever : forall x y, TinyViT.forward_shape self x <> Ok y).
  { intros x y Hy.
    destruct (BuildFacts.build_layers cfg self Hb) as (HnK & Hpr & Hlen & Hl).
    rewrite HnK, HK in Hlen, Hl. rewrite Hpr in Hl.
    set (pr := (TinyViT.cfg_img_size cfg / 4, TinyViT.cfg_img_size cfg / 4)) in *.
    destruct (TinyViT.layers self) as [|l0 [|l1 [|l2 [|l3 [|? ?]]]]] eqn:Hlayers;
      try discriminate Hlen.
    destruct (TinyViT.stage_resolution pr 2) as [H2 W2] eqn:Hres2.
    assert (Hres3 : TinyViT.stage_resolution pr 3 = (H2, W2)) by exact Hres2.
    assert (Hbig : 2 <= H2 /\ 2 <= W2).
    { unfold TinyViT.stage_resolution, pr in Hres2. cbn [fst snd] in Hres2.
      change (2 ^ TinyViT.stage_exponent 2) with 4 in Hres2.
      injection Hres2 as <- <-.
      assert (2 <= TinyViT.cfg_img_size cfg / 4 / 4).
      { rewrite Nat.Div0.div_div. change (4 * 4) with 16.
        apply Nat.div_le_lower_bound; lia. }
      by split. }
    (* the stages as built *)
    destruct (StageFacts.build_layer_inv cfg _ _ 1 l1 (Hl 1 l1 eq_refl))
      as (dim1 & _ & out1 & _ & _ & Hout1 & _ & _ & _ & Hds1 & _).
    apply (StageFacts.getitem_min_next _ 1 _ _ Hd2) in Hout1 as ->.
    destruct (StageFacts.build_layer_inv cfg _ _ 2 l2 (Hl 2 l2 eq_refl))
      as (dim2 & depth2 & out2 & Hdim2 & _ & Hout2 & _ & _ & _ & Hds2 & Hblocks2).
    rewrite Hd2 in Hdim2. injection Hdim2 as <-.
    apply (StageFacts.getitem_min_next _ 2 _ _ Hd3) in Hout2 as ->.
    rewrite Hres2 in Hds2. cbn [Nat.eqb] in Hblocks2.
    destruct Hblocks2 as (nh2 & ws2 & blocks2 & _ & _ & _ & Hblocks2).
    destruct (StageFacts.build_layer_inv cfg _ _ 3 l3 (Hl 3 l3 eq_refl))
      as (dim3 & depth3 & _ & _ & Hdepth3 & _ & _ & _ & _ & _ & Hblocks3).
    rewrite Hn3 in Hdepth3. injection Hdepth3 as <-.
    cbn [Nat.eqb] in Hblocks3.
    destruct Hblocks3 as (nh & ws & blocks & _ & _ & Hm & Hblocks3).
    rewrite Hres3 in Hm.
    pose proof (BuildFacts.mapM_Ok_length _ _ _ Hm) as Hlen3.
    unfold range in Hlen3. rewrite length_seq in Hlen3.
    destruct blocks as [|blk blocks]; [cbn [length] in Hlen3; lia|].
    destruct (BuildFacts.mapM_Ok_lookup _ _ _ Hm 0 blk eq_refl)
      as (k0 & _ & Hblk).
    assert (Hblkres : TinyViTBlock.input_resolution blk = (H2, W2)).
    { unfold TinyViTBlock.__init__ in Hblk.
      destruct (TinyViTBlock.py_floordiv dim3 nh) as [head_dim|]; [|done].
      cbn [mbind Py.result_bind] in Hblk.
      destruct (Attention.scale_check head_dim); [|done].
      by injection Hblk as <-. }
    (* the run *)
    unfold TinyViT.forward_shape, TinyViT.forward_features_shape in Hy.
    ShapeFacts.bind_inv_as Hy x0 Hx0. ShapeFacts.bind_inv_as Hy x4 Hx4.
    rewrite Hlayers in Hx4. cbn [TinyViT.layers_forward_shape] in Hx4.
    ShapeFacts.bind_inv_as Hx4 x1 Hx1. ShapeFacts.bind_inv_as Hx4 x2 Hx2.
    ShapeFacts.bind_inv_as Hx4 x3 Hx3. ShapeFacts.bind_inv_as Hx4 x4' Hx4'.
    (* stage 1 hands over a token grid of width d2 *)
    unfold Layer.forward_shape in Hx2. ShapeFacts.bind_inv_as Hx2 z1 Hz1.
    rewrite Hds1 in Hx2. cbn [Nat.ltb Nat.leb Layer.make_downsample] in Hx2.
    apply MismatchFacts.PatchMerging_returns_tokens in Hx2 as (B & L & ->).
    (* stage 2 halves it *)
    unfold Layer.forward_shape in Hx3. ShapeFacts.bind_inv_as Hx3 z2 Hz2.
    rewrite Hblocks2 in Hz2. apply ShapeFacts.TinyViT_blocks_same in Hz2 as ->.
    rewrite Hds2 in Hx3. cbn [Nat.ltb Nat.leb Layer.make_downsample] in Hx3.
    apply MismatchFacts.PatchMerging_halves in Hx3 as (HH2 & HW2 & ->);
      [|done|unfold PatchMerging.stride_c; by rewrite bool_decide_eq_false_2].
    (* the first block of stage 3 asserts *)
    unfold Layer.forward_shape in Hx4'. ShapeFacts.bind_inv_as Hx4' z3 Hz3.
    rewrite Hblocks3 in Hz3. cbn [map Layer.blocks_forward_shape] in Hz3.
    ShapeFacts.bind_inv_as Hz3 z4 Hz4. cbn [Layer.block_forward_shape] in Hz4.
    unfold TinyViTBlock.forward_shape in Hz4. rewrite Hblkres in Hz4.
    destruct (Nat.eqb_spec (((H2 - 1) / 2 + 1) * ((W2 - 1) / 2 + 1)) (H2 * W2))
      as [Heq|_]; [|discriminate Hz4].
    destruct Hbig as [HH HW].
    assert (Hlt : forall X, 2 <= X -> 1 <= (X - 1) / 2 + 1 < X).
    { intros X HX. split; [lia|].
      pose proof (Nat.div_lt (X - 1) 2 ltac:(lia) ltac:(lia)). lia. }
    pose proof (Hlt H2 HH) as [? ?]. pose proof (Hlt W2 HW) as [? ?].
    set (a := (H2 - 1) / 2 + 1) in *. set (b := (W2 - 1) / 2 + 1) in *.
    clearbody a b. nia. }
  split; [exact Hnever|].
  intros rpow self' Hinit x y. unfold TinyViT.__init__ in Hinit.
  rewrite Hb in Hinit. cbn [mbind result_bind] in Hinit.
  rewrite (MismatchFacts.set_layer_lr_decay_network rpow self self' _ Hinit).
  apply Hnever.
Qed.

Lemma last_width_must_keep_grid_witness :
  TinyViT.build TinyViT.default_config_1 = Ok TinyViT.default_model /\
  (forall x y, TinyViT.forward_shape TinyViT.default_model x <> Ok y) /\
  (forall rpow self',
     TinyViT.__init__ rpow TinyViT.default_config_1 = Ok self' ->
     forall x y, TinyViT.forward_shape self' x <> Ok y).
Proof.
  split; [vm_compute; reflexivity|].
  apply (last_width_must_keep_grid TinyViT.default_config_1
           TinyViT.default_model 384 768 2).
  - vm_compute; reflexivity.
  - reflexivity.
  - reflexivity.
  - lia.
  - reflexivity.
  - rewrite !elem_of_cons, elem_of_nil. lia.
  - reflexivity.
  - lia.
  - vm_compute; lia.
Defined.
